From Stdlib Require Import ZArith Floats Ascii Sorted.
From stdpp Require Import gmap strings list fin_maps.

#[local] Set Warnings "-inexact-float,-clear-no-such-hyp".

Local Open Scope string_scope.
Local Open Scope list_scope.
Local Open Scope Z_scope.

(** * The sales pipeline of [practice.py]: model and verified properties

    [practice.py] is a straight-line script: it loads a CSV file into a
    pandas frame, cleans it (lines 13-32), provisions five Cassandra tables
    (lines 55-100), copies every cleaned row to the bronze and the silver
    table (lines 103-128) and stores three rollups (lines 133-189).

    The development follows the script stage by stage.  A frame is a list of
    column labels with labelled rows of cells; the cluster session is a
    record of tables threaded through a state-and-exception monad; the
    rollups are folds over the rows of the cleaned frame.  What the script
    borrows from pandas and from the Cassandra driver is written out where
    the script depends on it (coercion to numbers, [dropna], [groupby],
    [iterrows], [CREATE TABLE IF NOT EXISTS], [INSERT] as upsert, [uuid()]);
    the two scalar parsers of pandas (text to number, anything to date) are
    parameters of the development. *)



(* ===================================================================== *)
(** * 1. Cells                                                            *)
(* ===================================================================== *)

(** [datetime.date]. *)
Record date := Date { year : Z; month : Z; day : Z }.

#[global] Instance date_eq_dec : EqDecision date.
Proof. solve_decision. Defined.

#[global] Program Instance date_countable : Countable date :=
  inj_countable' (λ d, (year d, month d, day d))
                 (λ t, Date t.1.1 t.1.2 t.2) _.
Next Obligation. by intros []. Qed.

Definition date_ltb (a b : date) : bool :=
  (year a <? year b)
  || ((year a =? year b)
      && ((month a <? month b) || ((month a =? month b) && (day a <? day b)))).

(** One cell of a frame: an [int64], a [float64] (NaN is pandas' missing
    marker), a [str], a [datetime.date], or [NaT], the missing date. *)
Inductive cell :=
| CInt (z : Z)
| CFloat (f : float)
| CStr (s : string)
| CDate (d : date)
| CNaT.

Definition NaN : cell := CFloat nan.

(** [pd.isna] on a scalar. *)
Definition isna (c : cell) : bool :=
  match c with
  | CFloat f => is_nan f
  | CNaT => true
  | _ => false
  end.

Definition notna (c : cell) : bool := negb (isna c).

Definition is_int (c : cell) : bool :=
  match c with CInt _ => true | _ => false end.

(** Conversion of an integer to the nearest [float64]. *)
Definition Z2float (z : Z) : float := SF2Prim (binary_normalize prec emax z 0 false).

(** Truncation of a [float64] towards zero; [None] for NaN and the
    infinities. *)
Definition float_trunc (f : float) : option Z :=
  match Prim2SF f with
  | S754_zero _ => Some 0
  | S754_finite s m e =>
      let a := if 0 <=? e then Z.pos m * 2 ^ e else Z.pos m / 2 ^ (- e) in
      Some (if s then - a else a)
  | _ => None
  end.

(** The value of a numeric cell as a [float64] ([astype('float')]). *)
Definition float_of (c : cell) : float :=
  match c with
  | CInt z => Z2float z
  | CFloat f => f
  | _ => nan
  end.

Definition as_float (c : cell) : cell := CFloat (float_of c).

(** Python's exceptions, as far as the script can meet them.  All but
    [KeyboardInterrupt] derive from [Exception]. *)
Inductive exn :=
| KeyError (label : string)
| TypeError (msg : string)
| ValueError (msg : string)
| InvalidRequest (msg : string)
| DriverError (msg : string)
| KeyboardInterrupt.

Definition is_Exception (e : exn) : bool :=
  match e with KeyboardInterrupt => false | _ => true end.

Inductive result (A : Type) :=
| Ok (a : A)
| Raise (e : exn).
Arguments Ok {A} a.
Arguments Raise {A} e.

Definition rbind {A B} (r : result A) (k : A → result B) : result B :=
  match r with Ok a => k a | Raise e => Raise e end.

Notation "x <- r ;; k" := (rbind r (λ x, k))
  (at level 100, r at next level, right associativity, only parsing).

(* ===================================================================== *)
(** * 2. What the script uses of pandas                                   *)
(* ===================================================================== *)

(** The two scalar parsers of pandas.  [str_to_number s] is what
    [pd.to_numeric] reads in the text [s] (an integer, a float, or nothing);
    [infer_date col c] is the calendar date [pd.to_datetime(...).dt.date]
    reads in the cell [c] of the column [col] (the column is an argument
    because pandas may infer one date format for the whole column). *)
Class Pandas := {
  str_to_number : string → option (Z + float);
  infer_date : list cell → cell → option date
}.

Section Coercion.
Context `{Pandas}.

(** [pd.to_numeric(..., errors='coerce')] on one value: numbers stay, text
    is parsed, and whatever is no number becomes NaN. *)
Definition to_numeric_scalar (c : cell) : cell :=
  match c with
  | CInt z => CInt z
  | CFloat f => CFloat f
  | CStr s =>
      match str_to_number s with
      | Some (inl z) => CInt z
      | Some (inr f) => CFloat f
      | None => NaN
      end
  | CDate _ | CNaT => NaN
  end.

(** A column has one dtype: [int64] when every value is an integer,
    [float64] otherwise. *)
Definition harmonize (col : list cell) : list cell :=
  if forallb is_int col then col else map as_float col.

Definition in_int64 (z : Z) : bool := (- 2 ^ 63 <=? z) && (z <? 2 ^ 63).

(** [downcast='integer']: a column without NaN whose values all lie within
    [1e-8] of their truncation ([np.allclose(..., rtol=0)]) becomes an
    integer column; any other column is left alone. *)
Definition downcast_value (c : cell) : option Z :=
  match c with
  | CInt z => Some z
  | CFloat f =>
      match float_trunc f with
      | Some z =>
          if in_int64 z && (abs (Z2float z - f) <=? 1e-8)%float
          then Some z else None
      | None => None
      end
  | _ => None
  end.

Definition downcast_integer (col : list cell) : list cell :=
  if existsb isna col then col
  else match mapM downcast_value col with
       | Some zs => CInt <$> zs
       | None => col
       end.

(** [pd.to_numeric(col, errors='coerce')], with [downcast='integer'] when
    [downcast] is set. *)
Definition to_numeric (downcast : bool) (col : list cell) : list cell :=
  let vals := harmonize (to_numeric_scalar <$> col) in
  if downcast then downcast_integer vals else vals.

(** [pd.to_datetime(col, errors='coerce').dt.date]. *)
Definition to_date (col : list cell) : list cell :=
  (λ c, match infer_date col c with Some d => CDate d | None => CNaT end) <$> col.

End Coercion.

(* ===================================================================== *)
(** * 3. Frames                                                           *)
(* ===================================================================== *)

(** A [DataFrame]: the column labels, and the rows with their index label.
    The cells of a row stand in the order of the labels; a cell a row does
    not have reads as NaN. *)
Record DataFrame := Frame {
  columns : list string;
  rows : list (nat * list cell)
}.

(** [pd.read_csv]: the reader hands over the header and the records; the
    index is [0 .. n-1]. *)
Definition read_csv (header : list string) (records : list (list cell)) : DataFrame :=
  Frame header (imap (λ i r, (i, r)) records).

Definition cell_at (p : nat) (r : list cell) : cell := default NaN (r !! p).

Definition set_cell (p : nat) (v : cell) (r : list cell) : list cell :=
  if decide (p < length r)%nat then <[p := v]> r
  else r ++ replicate (p - length r) NaN ++ [v].

(** The positions that carry the label [name]. *)
Fixpoint positions (name : string) (labels : list string) (p : nat) : list nat :=
  match labels with
  | [] => []
  | l :: labels' =>
      if String.eqb l name then p :: positions name labels' (S p)
      else positions name labels' (S p)
  end.

(** [name in df.columns]. *)
Definition has_column (name : string) (df : DataFrame) : bool :=
  existsb (String.eqb name) (columns df).

(** Where [df[name]] is one column: [KeyError] without the label, and with
    a repeated label [df[name]] is a frame, which none of the column
    functions of the script accepts. *)
Definition loc (name : string) (df : DataFrame) : result nat :=
  match positions name (columns df) 0 with
  | [] => Raise (KeyError name)
  | [p] => Ok p
  | _ => Raise (TypeError "arg must be a list, tuple, 1-d array, or Series")
  end.

Definition column_at (p : nat) (df : DataFrame) : list cell :=
  (λ r, cell_at p r.2) <$> rows df.

Definition set_column_at (p : nat) (vals : list cell) (df : DataFrame) : DataFrame :=
  Frame (columns df) (zip_with (λ r v, (r.1, set_cell p v r.2)) (rows df) vals).

(** [df.rename(columns={'Order ID': 'order_id', 'Order Date': 'sale_date',
    'TotalRevenue': 'amount'}, inplace=True)] (lines 13-17). *)
Definition rename_label (l : string) : string :=
  if String.eqb l "Order ID" then "order_id"
  else if String.eqb l "Order Date" then "sale_date"
  else if String.eqb l "TotalRevenue" then "amount"
  else l.

Definition rename (df : DataFrame) : DataFrame :=
  Frame (rename_label <$> columns df) (rows df).

(** [df[name] = v] for a label the frame does not have: a new last column
    with [v] in every row. *)
Definition assign_new (name : string) (v : cell) (df : DataFrame) : DataFrame :=
  Frame (columns df ++ [name])
        ((λ r, (r.1, set_cell (length (columns df)) v r.2)) <$> rows df).

(** [df[name] = f(df[name])]. *)
Definition update_column (f : list cell → list cell) (name : string)
    (df : DataFrame) : result DataFrame :=
  p <- loc name df ;;
  Ok (set_column_at p (f (column_at p df)) df).

Fixpoint locs (names : list string) (df : DataFrame) : result (list nat) :=
  match names with
  | [] => Ok []
  | n :: names' => p <- loc n df ;; ps <- locs names' df ;; Ok (p :: ps)
  end.

Definition complete (ps : list nat) (r : nat * list cell) : bool :=
  forallb (λ p, notna (cell_at p r.2)) ps.

(** [df.dropna(subset=names)]. *)
Definition dropna (names : list string) (df : DataFrame) : result DataFrame :=
  ps <- locs names df ;;
  Ok (Frame (columns df) (filter (λ r, complete ps r = true) (rows df))).

Definition required : list string := ["order_id"; "sale_date"; "amount"].

Section Normalizer.
Context `{Pandas}.

(** Lines 20-24: the placeholder identifier. *)
Definition placeholder (df : DataFrame) : DataFrame :=
  if has_column "order_id" df then df else assign_new "order_id" (CInt 0) df.

(** Lines 27-29: the three coercions. *)
Definition coerce (df : DataFrame) : result DataFrame :=
  df <- update_column (to_numeric true) "order_id" df ;;
  df <- update_column to_date "sale_date" df ;;
  update_column (to_numeric false) "amount" df.

(** Lines 13-32: the cleaned frame, or the exception that ends the script. *)
Definition normalize (df : DataFrame) : result DataFrame :=
  df <- coerce (placeholder (rename df)) ;;
  dropna required df.

End Normalizer.

(* ===================================================================== *)
(** * 4. Rollups                                                          *)
(* ===================================================================== *)

(** Equality and order of group keys: numbers by value, texts and dates in
    their own order. *)
Definition cell_eqb (a b : cell) : bool :=
  match a, b with
  | CInt x, CInt y => x =? y
  | CInt _, CFloat _ | CFloat _, CInt _ | CFloat _, CFloat _ =>
      (float_of a =? float_of b)%float
  | CStr x, CStr y => String.eqb x y
  | CDate x, CDate y => bool_decide (x = y)
  | _, _ => false
  end.

Definition cell_ltb (a b : cell) : bool :=
  match a, b with
  | CInt x, CInt y => x <? y
  | CInt _, CFloat _ | CFloat _, CInt _ | CFloat _, CFloat _ =>
      (float_of a <? float_of b)%float
  | CStr x, CStr y => String.ltb x y
  | CDate x, CDate y => date_ltb x y
  | _, _ => false
  end.

(** [groupby(by).agg({'amount': 'sum'})] is written over any arithmetic
    [(A, add, zero)] of the amounts; the script runs it in [float64]. *)
Section Aggregator.
Context {A : Type} (add : A → A → A) (zero : A).

(** One more value [v] for the group of [k]; the groups stay in key
    order, and a group sums its values in row order. *)
Fixpoint group_add (k : cell) (v : A) (groups : list (cell * A)) : list (cell * A) :=
  match groups with
  | [] => [(k, add zero v)]
  | (k', s) :: rest =>
      if cell_eqb k k' then (k', add s v) :: rest
      else if cell_ltb k k' then (k, add zero v) :: groups
      else (k', s) :: group_add k v rest
  end.

(** The rows whose key is missing belong to no group. *)
Definition group_sums (kvs : list (cell * A)) : list (cell * A) :=
  foldl (λ groups kv, if isna kv.1 then groups else group_add kv.1 kv.2 groups) [] kvs.

(** [sum(...)] from left to right. *)
Definition total (vs : list A) : A := foldl add zero vs.

(** The key and the amount of every row: [df[[by, 'amount']]]. *)
Definition key_amounts (amt : cell → A) (by_ : string) (df : DataFrame)
    : result (list (cell * A)) :=
  pk <- loc by_ df ;;
  pa <- loc "amount" df ;;
  Ok ((λ r, (cell_at pk r.2, amt (cell_at pa r.2))) <$> rows df).

Definition rollup (amt : cell → A) (by_ : string) (df : DataFrame)
    : result (list (cell * A)) :=
  kvs <- key_amounts amt by_ df ;;
  Ok (group_sums kvs).

End Aggregator.

(** The rollup of the script: [float64] sums.  (An [int64] amount column is
    summed in [float64] here as well; the two agree while the sums stay
    below [2^53].) *)
Definition groupby_sum (by_ : string) (df : DataFrame) : result (list (cell * float)) :=
  rollup PrimFloat.add 0%float float_of by_ df.

(** [.reset_index()]: the rollup as a frame with the columns [by] and
    ['amount']. *)
Definition rollup_frame (by_ : string) (groups : list (cell * float)) : DataFrame :=
  Frame [by_; "amount"] (imap (λ i g, (i, [g.1; CFloat g.2])) groups).

(** [astype('int', errors='ignore')]: every value truncated, or the column
    as it was when one value has no integer. *)
Definition int_of (c : cell) : option Z :=
  match c with
  | CInt z => Some z
  | CFloat f => float_trunc f
  | _ => None
  end.

Definition astype_int_ignore (col : list cell) : list cell :=
  match mapM int_of col with
  | Some zs => CInt <$> zs
  | None => col
  end.

(** [astype('float', errors='ignore')]. *)
Definition is_number (c : cell) : bool :=
  match c with CInt _ | CFloat _ => true | _ => false end.

Definition astype_float_ignore (col : list cell) : list cell :=
  if forallb is_number col then as_float <$> col else col.

(** Lines 133-137. *)
Definition gold1 (df : DataFrame) : result DataFrame :=
  groups <- groupby_sum "order_id" df ;;
  g <- update_column astype_int_ignore "order_id" (rollup_frame "order_id" groups) ;;
  update_column astype_float_ignore "amount" g.

(** Lines 154-157.  The dates of the cleaned frame came out of
    [pd.to_datetime] and go through it again unchanged. *)
Definition gold2 (df : DataFrame) : result DataFrame :=
  groups <- groupby_sum "sale_date" df ;;
  update_column astype_float_ignore "amount" (rollup_frame "sale_date" groups).

(** Line 175. *)
Definition gold3 (df : DataFrame) : result DataFrame :=
  groups <- groupby_sum "region" df ;;
  Ok (rollup_frame "region" groups).

(** The grand total of the rollup by [by_]: the sum of its totals. *)
Definition rollup_total {A} (add : A → A → A) (zero : A) (amt : cell → A)
    (by_ : string) (df : DataFrame) : result A :=
  groups <- rollup add zero amt by_ df ;;
  Ok (total add zero groups.*2).

(** The sum of all amounts of a frame, in row order. *)
Definition amount_total {A} (add : A → A → A) (zero : A) (amt : cell → A)
    (df : DataFrame) : result A :=
  pa <- loc "amount" df ;;
  Ok (total add zero ((λ r, amt (cell_at pa r.2)) <$> rows df)).

(* ===================================================================== *)
(** * 5. The cluster session                                              *)
(* ===================================================================== *)

Inductive cql_type := INT | DATE | FLOAT | UUID | TEXT.

(** The shape of a table: its primary key and its columns. *)
Record schema := Schema {
  primary_key : string;
  fields : list (string * cql_type)
}.

(** The values of primary keys. *)
Inductive pkey :=
| KInt (z : Z)
| KDate (d : date)
| KText (s : string)
| KUuid (u : N).

#[global] Instance pkey_eq_dec : EqDecision pkey.
Proof. solve_decision. Defined.

#[global] Program Instance pkey_countable : Countable pkey :=
  inj_countable'
    (λ k, match k with
          | KInt z => inl z
          | KDate d => inr (inl d)
          | KText s => inr (inr (inl s))
          | KUuid u => inr (inr (inr u))
          end)
    (λ x, match x with
          | inl z => KInt z
          | inr (inl d) => KDate d
          | inr (inr (inl s)) => KText s
          | inr (inr (inr u)) => KUuid u
          end) _.
Next Obligation. by intros []. Qed.

(** A stored row maps column names to values; a table maps primary keys to
    rows. *)
Record table := Table {
  table_schema : schema;
  table_rows : gmap pkey (gmap string cell)
}.

(** A value of an [INSERT]: a bound parameter, or the call [uuid()]. *)
Inductive value :=
| Lit (c : cell)
| UuidCall.

Inductive statement :=
| CreateTableIfNotExists (name : string) (s : schema)
| InsertInto (name : string) (cols : list string) (vals : list value).

(** What the script prints: a fixed line, or the line of an [except]
    branch with the row's index label and the exception. *)
Inductive message :=
| Line (s : string)
| InsertError (table_name : string) (label : nat) (e : exn).

(** The world of the script: the tables of the keyspace, what the store
    will answer to the next calls ([Some e]: the call raises [e]; nothing
    left: no fault), the statements the session has received with their
    outcome, and the printed lines. *)
Record World := MkWorld {
  tables : gmap string table;
  faults : list (option exn);
  journal : list (statement * option exn);
  stdout : list message
}.

Definition in_int32 (z : Z) : bool := (- 2 ^ 31 <=? z) && (z <? 2 ^ 31).

Definition uuid_of (k : pkey) : option N :=
  match k with KUuid u => Some u | _ => None end.

(** The identifiers in use as keys of a table. *)
Definition uuids (rws : gmap pkey (gmap string cell)) : gset N :=
  set_omap uuid_of (dom rws).

(** The key a value denotes in a primary-key column of type [ty]: an
    [int] constant within 32 bits, a date, a text, or, for [uuid()], an
    identifier no row of the table uses.  Anything else is refused. *)
Definition to_pkey (ty : cql_type) (v : value)
    (rws : gmap pkey (gmap string cell)) : option pkey :=
  match ty, v with
  | INT, Lit (CInt z) => if in_int32 z then Some (KInt z) else None
  | DATE, Lit (CDate d) => Some (KDate d)
  | TEXT, Lit (CStr s) => Some (KText s)
  | UUID, UuidCall => Some (KUuid (fresh (uuids rws)))
  | _, _ => None
  end.

Definition literal (cv : string * value) : option (string * cell) :=
  match cv.2 with Lit c => Some (cv.1, c) | UuidCall => None end.

(** The columns an [INSERT] sets. *)
Definition written (cols : list string) (vals : list value) : gmap string cell :=
  list_to_map (omap literal (zip cols vals)).

(** [INSERT INTO name (cols) VALUES (vals)]: an upsert.  The row of the
    key takes the written columns and keeps its other columns.  (The types
    of the columns outside the key are not checked here: a refusal of the
    store is a fault of the world.) *)
Definition insert_into (name : string) (cols : list string) (vals : list value)
    (tbls : gmap string table) : result (gmap string table) :=
  match tbls !! name with
  | None => Raise (InvalidRequest "unconfigured table")
  | Some t =>
      let sch := table_schema t in
      if negb (length cols =? length vals)%nat
      then Raise (InvalidRequest "Unmatched column names/values")
      else if negb (forallb (λ c, bool_decide (c ∈ (fields sch).*1)) cols)
      then Raise (InvalidRequest "Undefined column name")
      else
        match (list_to_map (zip cols vals) : gmap string value) !! primary_key sch,
              (list_to_map (fields sch) : gmap string cql_type) !! primary_key sch with
        | Some v, Some ty =>
            match to_pkey ty v (table_rows t) with
            | Some k =>
                let old := default ∅ (table_rows t !! k) in
                Ok (<[name := Table sch (<[k := written cols vals ∪ old]> (table_rows t))]> tbls)
            | None => Raise (InvalidRequest "Invalid constant for the primary key")
            end
        | _, _ => Raise (InvalidRequest "Some partition key parts are missing")
        end
  end.

(** [CREATE TABLE IF NOT EXISTS name (...)]. *)
Definition create_table_if_not_exists (name : string) (s : schema)
    (tbls : gmap string table) : gmap string table :=
  match tbls !! name with
  | Some _ => tbls
  | None => <[name := Table s ∅]> tbls
  end.

Definition run (q : statement) (tbls : gmap string table) : result (gmap string table) :=
  match q with
  | CreateTableIfNotExists name s => Ok (create_table_if_not_exists name s tbls)
  | InsertInto name cols vals => insert_into name cols vals tbls
  end.

(** The script is a computation over the world that returns or raises. *)
Definition M (A : Type) : Type := World → World * result A.

Definition ret {A} (a : A) : M A := λ w, (w, Ok a).
Definition lift {A} (r : result A) : M A := λ w, (w, r).

Definition bind {A B} (m : M A) (k : A → M B) : M B :=
  λ w, match m w with
       | (w', Ok a) => k a w'
       | (w', Raise e) => (w', Raise e)
       end.

Notation "x <~ m ;; k" := (bind m (λ x, k))
  (at level 100, m at next level, right associativity, only parsing).
Notation "m >> k" := (bind m (λ _, k))
  (at level 100, k at level 200, right associativity, only parsing).

(** [print(...)]. *)
Definition print (m : message) : M unit :=
  λ w, (MkWorld (tables w) (faults w) (journal w) (stdout w ++ [m]), Ok tt).

(** What a store with the tables [tbls] and the faults [fs] answers to the
    statement [q]: its next fault, if it has one; otherwise the statement
    runs. *)
Definition answer (q : statement) (tbls : gmap string table)
    (fs : list (option exn)) : result (gmap string table) :=
  match head fs with
  | Some (Some e) => Raise e
  | _ => run q tbls
  end.

(** [session.execute(q)]. *)
Definition execute (q : statement) : M unit :=
  λ w,
    match answer q (tables w) (faults w) with
    | Ok tbls =>
        (MkWorld tbls (tail (faults w)) (journal w ++ [(q, None)]) (stdout w), Ok tt)
    | Raise e =>
        (MkWorld (tables w) (tail (faults w)) (journal w ++ [(q, Some e)]) (stdout w),
         Raise e)
    end.

(** [try: body except Exception as e: handler(e)]. *)
Definition try_except (body : M unit) (handler : exn → M unit) : M unit :=
  λ w, match body w with
       | (w', Raise e) => if is_Exception e then handler e w' else (w', Raise e)
       | done => done
       end.

(** [for x in l: body(x)]. *)
Fixpoint for_each {A} (l : list A) (body : A → M unit) : M unit :=
  match l with
  | [] => ret tt
  | x :: l' => body x >> for_each l' body
  end.

(* ===================================================================== *)
(** * 6. The stages of the script                                         *)
(* ===================================================================== *)

Definition bronze_schema : schema :=
  Schema "order_id" [("order_id", INT); ("sale_date", DATE); ("amount", FLOAT)].
Definition silver_schema : schema :=
  Schema "sale_id"
    [("sale_id", UUID); ("order_id", INT); ("sale_date", DATE); ("amount", FLOAT)].
Definition gold1_schema : schema :=
  Schema "order_id" [("order_id", INT); ("total_sales", FLOAT)].
Definition gold2_schema : schema :=
  Schema "sale_date" [("sale_date", DATE); ("total_sales", FLOAT)].
Definition gold3_schema : schema :=
  Schema "region" [("region", TEXT); ("total_sales", FLOAT)].

(** The tables of the script in the order of their creation, each with the
    line printed after it. *)
Definition script_tables : list (string * schema * string) :=
  [("bronze_table", bronze_schema, "Bronze table created successfully.");
   ("silver_table", silver_schema, "Silver table created successfully.");
   ("gold_table1", gold1_schema, "Gold Table 1 created successfully.");
   ("gold_table2", gold2_schema, "Gold Table 2 created successfully.");
   ("gold_table3", gold3_schema, "Gold Table 3 created successfully.")].

(** Lines 55-100: the five [CREATE TABLE IF NOT EXISTS], outside any
    [try]. *)
Definition ensure_schemas : M unit :=
  for_each script_tables
    (λ t, execute (CreateTableIfNotExists t.1.1 t.1.2) >> print (Line t.2)).

(** [df.iterrows()] yields each row as a Series, which has one dtype: a row
    of numbers only is a row of [int64] or, with one float among them, of
    [float64]; any other row keeps its values. *)
Definition series (df : DataFrame) (r : list cell) : list cell :=
  let vals := (λ p, cell_at p r) <$> seq 0 (length (columns df)) in
  if forallb is_number vals then harmonize vals else vals.

Definition iterrows (df : DataFrame) : list (nat * list cell) :=
  (λ r, (r.1, series df r.2)) <$> rows df.

(** [[row[n] for n in names]] as the parameters of a statement. *)
Fixpoint params (names : list string) (df : DataFrame) (row : list cell)
    : result (list value) :=
  match names with
  | [] => Ok []
  | n :: names' =>
      p <- loc n df ;;
      vs <- params names' df row ;;
      Ok (Lit (cell_at p row) :: vs)
  end.

(** The body of the loop all five writes share:
    [try: session.execute(...) except Exception as e: print(...)]. *)
Definition attempt (title : string) (stmt : list cell → result statement)
    (r : nat * list cell) : M unit :=
  try_except (q <~ lift (stmt r.2) ;; execute q)
             (λ e, print (InsertError title r.1 e)).

(** [for _, row in df.iterrows(): try: ... except ...]. *)
Definition insert_rows (title : string) (stmt : list cell → result statement)
    (df : DataFrame) : M unit :=
  for_each (iterrows df) (attempt title stmt).

Definition bronze_insert (df : DataFrame) (row : list cell) : result statement :=
  vs <- params required df row ;;
  Ok (InsertInto "bronze_table" required vs).

Definition silver_insert (df : DataFrame) (row : list cell) : result statement :=
  vs <- params required df row ;;
  Ok (InsertInto "silver_table" ("sale_id" :: required) (UuidCall :: vs)).

Definition gold_insert (name by_ : string) (g : DataFrame) (row : list cell)
    : result statement :=
  vs <- params [by_; "amount"] g row ;;
  Ok (InsertInto name [by_; "total_sales"] vs).

(** Lines 103-115. *)
Definition write_bronze (df : DataFrame) : M unit :=
  insert_rows "Bronze Table" (bronze_insert df) df >>
  print (Line "Data inserted into Bronze Table successfully.").

(** Lines 118-130. *)
Definition write_silver (df : DataFrame) : M unit :=
  insert_rows "Silver Table" (silver_insert df) df >>
  print (Line "Data inserted into Silver Table successfully.").

(** Lines 133-151. *)
Definition write_gold1 (df : DataFrame) : M unit :=
  g <~ lift (gold1 df) ;;
  insert_rows "Gold Table 1" (gold_insert "gold_table1" "order_id" g) g >>
  print (Line "Data inserted into Gold Table 1 successfully.").

(** Lines 154-171. *)
Definition write_gold2 (df : DataFrame) : M unit :=
  g <~ lift (gold2 df) ;;
  insert_rows "Gold Table 2" (gold_insert "gold_table2" "sale_date" g) g >>
  print (Line "Data inserted into Gold Table 2 successfully.").

(** Lines 174-189: the region rollup, behind the check of the column. *)
Definition write_gold3 (df : DataFrame) : M unit :=
  if has_column "region" df then
    g <~ lift (gold3 df) ;;
    insert_rows "Gold Table 3" (gold_insert "gold_table3" "region" g) g >>
    print (Line "Data inserted into Gold Table 3 successfully.")
  else
    print (Line "Column 'region' does not exist in the dataset. Skipping Gold Table 3.").

Section Script.
Context `{Pandas}.

(** The script, from the loaded frame on.  (The debugging prints of lines
    35-37 and the connection of lines 41-50 are left out: the world starts
    with the session connected.) *)
Definition script (df : DataFrame) : M unit :=
  print (Line (if has_column "order_id" (rename df)
               then "order_id column exists."
               else "order_id column is missing; adding a placeholder.")) >>
  df <~ lift (normalize df) ;;
  ensure_schemas >>
  write_bronze df >>
  write_silver df >>
  write_gold1 df >>
  write_gold2 df >>
  write_gold3 df.

End Script.

(* ===================================================================== *)
(** * 7. Vocabulary of the statements, and worked examples                 *)
(* ===================================================================== *)

(** ** Frames *)

(** Every row carries its position as label, as in a frame fresh from
    [read_csv]. *)
Definition indexed (df : DataFrame) : Prop :=
  ∀ k r, rows df !! k = Some r → r.1 = k.

Section Parsed.
Context `{Pandas}.

(** A required field of the row [r] of the frame [df] does not parse: its
    identifier or its amount reads as no number, or its date as no date. *)
Definition fails_to_parse (df : DataFrame) (r : list cell) : bool :=
  match loc "order_id" df, loc "sale_date" df, loc "amount" df with
  | Ok p1, Ok p2, Ok p3 =>
      isna (to_numeric_scalar (cell_at p1 r))
      || bool_decide (infer_date (column_at p2 df) (cell_at p2 r) = None)
      || isna (to_numeric_scalar (cell_at p3 r))
  | _, _, _ => false
  end.

End Parsed.

(** ** Journals of the session *)

(** What the tables become under the accepted statements of a journal. *)
Definition replay (J : list (statement * option exn)) (tbls : gmap string table)
    : gmap string table :=
  foldl (λ t j, match j.2 with
                | None => match run j.1 t with Ok t' => t' | Raise _ => t end
                | Some _ => t
                end) tbls J.

(** The journal of the statements [qs], sent one after the other to a
    store with the tables [tbls] and the faults [fs]. *)
Fixpoint trace (qs : list statement) (tbls : gmap string table)
    (fs : list (option exn)) : list (statement * option exn) :=
  match qs with
  | [] => []
  | q :: qs' =>
      match answer q tbls fs with
      | Ok tbls' => (q, None) :: trace qs' tbls' (tail fs)
      | Raise e => (q, Some e) :: trace qs' tbls (tail fs)
      end
  end.

(** The lines the [except] branches print for the rows [rws] whose
    statements have the journal [J]. *)
Definition errors (title : string) (rws : list (nat * list cell))
    (J : list (statement * option exn)) : list message :=
  omap (λ rj, InsertError title rj.1.1 <$> rj.2.2) (zip rws J).

(** The store raises no [KeyboardInterrupt]. *)
Definition uninterrupted (fs : list (option exn)) : Prop :=
  Forall (λ f, f ≠ Some KeyboardInterrupt) fs.

(** ** Cleaned rows, tables and statements *)

(** A row of the cleaned frame: the identifier and the amount are numbers
    other than NaN, and the date is a date. *)
Definition cleaned_row (p1 p2 p3 : nat) (r : list cell) : Prop :=
  is_number (cell_at p1 r) = true ∧ isna (cell_at p1 r) = false ∧
  (∃ d, cell_at p2 r = CDate d) ∧
  is_number (cell_at p3 r) = true ∧ isna (cell_at p3 r) = false.

(** The rows of the table [name] (none when there is no such table). *)
Definition rows_of (name : string) (tbls : gmap string table)
    : gmap pkey (gmap string cell) :=
  default ∅ (table_rows <$> tbls !! name).

(** The table [name] exists with the shape [s]. *)
Definition has_schema (name : string) (s : schema) (tbls : gmap string table) : Prop :=
  table_schema <$> tbls !! name = Some s.

(** The row an [INSERT] of the bronze loop writes. *)
Definition bronze_row (c1 c2 c3 : cell) : gmap string cell :=
  <["order_id" := c1]> (<["sale_date" := c2]> (<["amount" := c3]> ∅)).

(** The key of an [int] primary key column for the value [c]. *)
Definition int_key (c : cell) : option pkey :=
  match c with
  | CInt z => if in_int32 z then Some (KInt z) else None
  | _ => None
  end.

(** What one accepted or refused [INSERT] of the bronze loop makes of the
    rows of the bronze table. *)
Definition bronze_upsert (rws : gmap pkey (gmap string cell)) (c : cell * cell * cell)
    : gmap pkey (gmap string cell) :=
  match int_key c.1.1 with
  | Some k => <[k := bronze_row c.1.1 c.1.2 c.2 ∪ default ∅ (rws !! k)]> rws
  | None => rws
  end.

(** The identifier [uuid()] gives to a new row of the table. *)
Definition fresh_uuid (rws : gmap pkey (gmap string cell)) : pkey :=
  KUuid (fresh (uuids rws)).

(** What one accepted [INSERT] of the silver loop makes of the rows of the
    silver table. *)
Definition silver_append (rws : gmap pkey (gmap string cell)) (c : cell * cell * cell)
    : gmap pkey (gmap string cell) :=
  <[fresh_uuid rws := bronze_row c.1.1 c.1.2 c.2]> rws.

(** The sales record of a row: its identifier, its date and its amount. *)
Definition record_at (p1 p2 p3 : nat) (r : nat * list cell) : cell * cell * cell :=
  (cell_at p1 r.2, cell_at p2 r.2, cell_at p3 r.2).

Definition bronze_statement (c : cell * cell * cell) : statement :=
  InsertInto "bronze_table" required [Lit c.1.1; Lit c.1.2; Lit c.2].

Definition silver_statement (c : cell * cell * cell) : statement :=
  InsertInto "silver_table" ("sale_id" :: required)
    [UuidCall; Lit c.1.1; Lit c.1.2; Lit c.2].

(** The frame has the three required columns at [p1], [p2], [p3], and its
    rows are cleaned: what [normalize] returns. *)
Definition cleaned (df : DataFrame) (p1 p2 p3 : nat) : Prop :=
  loc "order_id" df = Ok p1 ∧ loc "sale_date" df = Ok p2 ∧ loc "amount" df = Ok p3 ∧
  ∀ r, r ∈ rows df → cleaned_row p1 p2 p3 r.2.

(** The journal of a store that has no fault to raise. *)
Definition run_all (qs : list statement) (tbls : gmap string table) : gmap string table :=
  foldl (λ t q, match run q t with Ok t' => t' | Raise _ => t end) tbls qs.

(** ** Worked examples: an instance of the parsers, frames and worlds *)

Definition digit (a : ascii) : option Z :=
  let n := Z.of_nat (nat_of_ascii a) in
  if (48 <=? n) && (n <=? 57) then Some (n - 48) else None.

Fixpoint digits (s : string) (acc : Z) : option Z :=
  match s with
  | EmptyString => Some acc
  | String a s' =>
      match digit a with
      | Some d => digits s' (10 * acc + d)
      | None => None
      end
  end.

Definition decimal (s : string) : option Z :=
  match s with EmptyString => None | _ => digits s 0 end.

Definition iso_date (s : string) : option date :=
  match decimal (String.substring 0 4 s), decimal (String.substring 5 2 s), decimal (String.substring 8 2 s) with
  | Some y, Some m, Some d =>
      if (String.length s =? 10)%nat
         && String.eqb (String.substring 4 1 s) "-" && String.eqb (String.substring 7 1 s) "-"
      then Some (Date y m d) else None
  | _, _, _ => None
  end.

(** Parsers that read decimal integers and dates written [YYYY-MM-DD]. *)
Definition iso_pandas : Pandas :=
  {| str_to_number := λ s, inl <$> decimal s;
     infer_date := λ _ c, match c with CStr s => iso_date s | _ => None end |}.

Definition sales_header : list string := ["Order ID"; "Order Date"; "TotalRevenue"].

(** A keyspace without tables and a store without faults. *)
Definition new_world : World := MkWorld ∅ [] [] [].

(** Three sales whose amounts overflow when the two of order 1 are added. *)
Definition huge_sales : DataFrame :=
  read_csv sales_header
    [ [CInt 1; CStr "2024-01-01"; CFloat 1e308];
      [CInt 1; CStr "2024-01-03"; CFloat 1e308];
      [CInt 2; CStr "2024-01-02"; CFloat (-1e308)] ].

(** Three sales with whole amounts. *)
Definition whole_sales : DataFrame :=
  read_csv sales_header
    [ [CInt 1; CStr "2024-01-01"; CInt 10];
      [CInt 2; CStr "2024-01-02"; CInt 5];
      [CInt 1; CStr "2024-01-03"; CInt 2] ].

(** The amount of a cell as an integer (for whole amounts). *)
Definition whole (c : cell) : Z :=
  match c with CInt z => z | _ => 0 end.

Definition cleaned_of (df : DataFrame) : DataFrame :=
  match @normalize iso_pandas df with Ok d => d | Raise _ => Frame [] [] end.

(** ** Statements sent, provisioning and refused writes, with their examples *)

(** The statements a computation has sent: what it added to the journal. *)
Definition sent (w w' : World) : list (statement * option exn) :=
  drop (length (journal w)) (journal w').

Definition mixed_records : list (list cell) :=
  [ [CStr "1"; CStr "2024-01-01"; CFloat 10.5];
    [CStr "bad"; CStr "2024-01-02"; CFloat 5];
    [CStr "1"; CStr "2024-01-03"; CFloat 2] ].

(** Two sales of a file without identifiers; the second has no amount. *)
Definition anonymous_sales : DataFrame :=
  read_csv ["Order Date"; "TotalRevenue"]
    [ [CStr "2024-01-01"; CFloat 10.5];
      [CStr "2024-01-02"; NaN];
      [CStr "2024-01-03"; CFloat 2] ].

(** One sale whose amount reads as infinity. *)
Definition infinite_sale : DataFrame :=
  read_csv sales_header [ [CInt 7; CStr "2024-02-01"; CFloat infinity] ].

Definition skip_line : message :=
  Line "Column 'region' does not exist in the dataset. Skipping Gold Table 3.".

Definition gold3_done : message :=
  Line "Data inserted into Gold Table 3 successfully.".

(** The statement of the gold loop for a row of the rollup frame. *)
Definition gold_statement (name by_ : string) (r : nat * list cell) : statement :=
  InsertInto name [by_; "total_sales"] [Lit (cell_at 0 r.2); Lit (cell_at 1 r.2)].

(** One sale of a file that has a [region] column with nothing in it. *)
Definition regionless_sale : DataFrame :=
  read_csv ["Order ID"; "Order Date"; "TotalRevenue"; "region"]
    [ [CInt 1; CStr "2024-01-01"; CFloat 10.5; NaN] ].

Definition create_all (l : list (string * schema * string)) (tbls : gmap string table)
    : gmap string table :=
  foldl (λ tb t, create_table_if_not_exists t.1.1 t.1.2 tb) tbls l.

Definition provision (t : string * schema * string) : M unit :=
  execute (CreateTableIfNotExists t.1.1 t.1.2) >> print (Line t.2).

(** A keyspace whose bronze table was made by someone else, with another
    shape, and already has a row. *)
Definition foreign_world : World :=
  MkWorld {[ "bronze_table" :=
               Table (Schema "id" [("id", TEXT)]) {[ KText "a" := ∅ ]} ]} [] [] [].

(** The keyspace after provisioning, on a store without faults. *)
Definition provisioned : World := (ensure_schemas new_world).1.

(** The identifiers [uuid()] gives to the rows of the records [cs], one
    after the other. *)
Fixpoint silver_keys (rws : gmap pkey (gmap string cell)) (cs : list (cell * cell * cell))
    : list pkey :=
  match cs with
  | [] => []
  | c :: cs' => fresh_uuid rws :: silver_keys (silver_append rws c) cs'
  end.


(** The keyspace after a run of the script on [whole_sales]. *)
Definition after_whole_sales : World := (@script iso_pandas whole_sales new_world).1.

(** In the journal [J] the statement at [i] was refused with [e], and
    every other statement was accepted. *)
Definition one_failure (J : list (statement * option exn)) (i : nat) (e : exn) : Prop :=
  (∃ q, J !! i = Some (q, Some e)) ∧
  ∀ j q o, j ≠ i → J !! j = Some (q, o) → o = None.

(** The accepted statements of a journal. *)
Definition accepted (J : list (statement * option exn)) : list statement :=
  omap (λ j, match j.2 with None => Some j.1 | Some _ => None end) J.

Definition bronze_done : message := Line "Data inserted into Bronze Table successfully.".
Definition silver_done : message := Line "Data inserted into Silver Table successfully.".

(** The provisioned keyspace on a store that refuses the second statement
    it receives. *)
Definition flaky : World :=
  MkWorld (tables provisioned) [None; Some (DriverError "write timeout")] [] [].

(** Three sales: two of order 1, and one whose order number is no [int]. *)
Definition repeated_sales : DataFrame :=
  read_csv sales_header
    [ [CInt 1; CStr "2024-01-01"; CInt 10];
      [CInt 1; CStr "2024-01-02"; CInt 5];
      [CInt 3000000000; CStr "2024-01-03"; CInt 2] ].

(** ** Errors of the stages, the keyspace, and the rollup by date, with their examples *)

(** The line the script prints about the identifier column (lines 20-24). *)
Definition identifier_line (df : DataFrame) : message :=
  Line (if has_column "order_id" (rename df)
        then "order_id column exists."
        else "order_id column is missing; adding a placeholder.").

(** Sales without a date column. *)
Definition undated_sales : DataFrame :=
  read_csv ["Order ID"; "TotalRevenue"] [ [CInt 1; CInt 10]; [CInt 2; CInt 5] ].

(** Sales with a second text column, one of them without amount. *)
Definition annotated_sales : DataFrame :=
  read_csv ["Order ID"; "Item"; "Order Date"; "TotalRevenue"]
    [ [CInt 1; CStr "Fruits"; CStr "2024-01-01"; CInt 10];
      [CInt 2; CStr "Snacks"; CStr "2024-01-02"; CStr "n/a"];
      [CInt 3; CStr "Cereal"; CStr "2024-01-03"; CInt 2] ].

Definition gold1_done : message := Line "Data inserted into Gold Table 1 successfully.".

(** Sales one of whose order numbers does not parse. *)
Definition smudged_sales : DataFrame :=
  read_csv sales_header
    [ [CStr "1"; CStr "2024-01-01"; CInt 10];
      [CStr "#2"; CStr "2024-01-02"; CInt 5];
      [CStr "3"; CStr "2024-01-03"; CInt 2] ].

(** The provisioned keyspace on a store interrupted at the second
    statement it receives. *)
Definition interrupted : World :=
  MkWorld (tables provisioned) [None; Some KeyboardInterrupt; None] [] [].

(** The journal entry of an accepted [CREATE TABLE IF NOT EXISTS]. *)
Definition created (t : string * schema * string) : statement * option exn :=
  (CreateTableIfNotExists t.1.1 t.1.2, None).

(** A new keyspace on a store that refuses the third statement it
    receives. *)
Definition unwilling : World :=
  MkWorld ∅ [None; None; Some (DriverError "unavailable"); None] [] [].

(** A silver table of another shape, with one row. *)
Definition legacy_silver : table :=
  Table (Schema "id" [("id", INT); ("note", TEXT)])
        {[ KInt 7 := {[ "id" := CInt 7; "note" := CStr "kept" ]} ]}.

Definition legacy_world : World :=
  MkWorld {[ "silver_table" := legacy_silver ]} [] [] [].

(** The keyspace [t2] keeps what [t1] stores: every table of [t1] is in
    [t2] with the same shape, every row of it is still there under its
    key, and every column the row had is still set. *)
Definition keeps (t1 t2 : gmap string table) : Prop :=
  ∀ name tb, t1 !! name = Some tb →
    ∃ tb', t2 !! name = Some tb' ∧ table_schema tb' = table_schema tb ∧
      ∀ k row, table_rows tb !! k = Some row →
        ∃ row', table_rows tb' !! k = Some row' ∧ dom row ⊆ dom row'.

(** A computation that keeps what the keyspace stores, whatever it
    returns or raises. *)
Definition keeping {A} (m : M A) : Prop := ∀ w, keeps (tables w) (tables (m w).1).







#[global] Instance cell_is_date_dec (c : cell) (d : date) : Decision (c = CDate d).
Proof.
  destruct c as [z|f|s|d'|]; try (right; discriminate).
  destruct (decide (d' = d)) as [->|Hne]; [by left|right; congruence].
Defined.





(* ===================================================================== *)
(** * 8. Lemmas and theorems                                              *)
(* ===================================================================== *)

(** ** Cells of a row *)

Lemma cell_at_set_cell p v r : cell_at p (set_cell p v r) = v.
Proof.
  unfold cell_at, set_cell. case_decide as Hp.
  - by rewrite list_lookup_insert_eq.
  - rewrite lookup_app_r; [|lia].
    rewrite lookup_app_r; rewrite length_replicate; [|lia].
    by replace (p - length r - (p - length r))%nat with 0%nat by lia.
Qed.

Lemma cell_at_set_cell_ne p q v r : p ≠ q → cell_at q (set_cell p v r) = cell_at q r.
Proof.
  intros Hpq. unfold cell_at, set_cell. case_decide as Hp.
  - by rewrite list_lookup_insert_ne.
  - destruct (decide (q < length r)%nat) as [Hq|Hq].
    + by rewrite lookup_app_l.
    + rewrite (lookup_ge_None_2 r q); [|lia].
      rewrite lookup_app_r; [|lia].
      destruct (decide (q < p)%nat).
      * rewrite lookup_app_l; [|rewrite length_replicate; lia].
        rewrite lookup_replicate_2; [done|lia].
      * rewrite lookup_app_r; rewrite length_replicate; [|lia].
        rewrite lookup_ge_None_2; [done|simpl; lia].
Qed.

(** ** Positions of a label *)

Lemma positions_spec name labels q p :
  p ∈ positions name labels q ↔ ∃ i, p = (q + i)%nat ∧ labels !! i = Some name.
Proof.
  revert q. induction labels as [|l labels IH]; intros q; simpl.
  - split; [by intros ?%elem_of_nil|by intros (? & _ & ?)].
  - destruct (String.eqb_spec l name) as [->|Hne].
    + rewrite elem_of_cons, IH. split.
      * intros [->|(i & -> & Hi)]; [exists 0%nat|exists (S i)]; split; auto; lia.
      * intros ([|i] & -> & Hi); [left; lia|right; exists i; split; [lia|done]].
    + rewrite IH. split.
      * intros (i & -> & Hi). exists (S i). split; [lia|done].
      * intros ([|i] & -> & Hi); simplify_eq/=. exists i. split; [lia|done].
Qed.

Lemma loc_Ok name df p : loc name df = Ok p → columns df !! p = Some name.
Proof.
  unfold loc. destruct (positions name (columns df) 0) as [|p' [|]] eqn:E; try done.
  intros [= ->]. assert (p ∈ positions name (columns df) 0) as Hp by (rewrite E; set_solver).
  apply positions_spec in Hp as (i & -> & Hi). done.
Qed.

Lemma loc_ne n1 n2 df p1 p2 :
  loc n1 df = Ok p1 → loc n2 df = Ok p2 → n1 ≠ n2 → p1 ≠ p2.
Proof. intros H1%loc_Ok H2%loc_Ok Hne ->. congruence. Qed.

Lemma loc_columns name df df' : columns df' = columns df → loc name df' = loc name df.
Proof. unfold loc. by intros ->. Qed.

Section CoercionFacts.
Context `{Pandas}.

Lemma to_numeric_scalar_number c : is_number (to_numeric_scalar c) = true.
Proof. destruct c; simpl; try done. by destruct (str_to_number s) as [[]|]. Qed.

Lemma length_harmonize col : length (harmonize col) = length col.
Proof. unfold harmonize. destruct (forallb _ _); [done|by rewrite length_map]. Qed.

Lemma length_downcast_integer col : length (downcast_integer col) = length col.
Proof.
  unfold downcast_integer. destruct (existsb _ _); [done|].
  destruct (mapM _ _) as [zs|] eqn:E; [|done].
  rewrite length_fmap. symmetry. by eapply length_mapM.
Qed.

Lemma length_to_numeric dc col : length (to_numeric dc col) = length col.
Proof.
  unfold to_numeric. destruct dc;
    rewrite ?length_downcast_integer, length_harmonize; apply length_fmap.
Qed.

Lemma length_to_date col : length (to_date col) = length col.
Proof. apply length_fmap. Qed.

(** A missing value stays missing through the dtype of the column and the
    downcast. *)
Lemma harmonize_na col k c :
  col !! k = Some c → is_number c = true → isna c = true →
  ∃ v, harmonize col !! k = Some v ∧ isna v = true.
Proof.
  intros Hk Hnum Hna. unfold harmonize. destruct (forallb _ _); [eauto|].
  exists (as_float c). rewrite list_lookup_fmap, Hk. split; [done|].
  by destruct c.
Qed.

Lemma downcast_integer_na col k c :
  col !! k = Some c → isna c = true → downcast_integer col !! k = Some c.
Proof.
  intros Hk Hna. unfold downcast_integer.
  destruct (existsb isna col) eqn:E; [done|].
  assert (existsb isna col = true) as E'; [|congruence].
  apply existsb_exists. exists c. split; [|done].
  apply list_elem_of_In, list_elem_of_lookup. eauto.
Qed.

Lemma to_numeric_na dc col k c :
  col !! k = Some c → isna (to_numeric_scalar c) = true →
  ∃ v, to_numeric dc col !! k = Some v ∧ isna v = true.
Proof.
  intros Hk Hna. unfold to_numeric.
  destruct (harmonize_na (to_numeric_scalar <$> col) k (to_numeric_scalar c))
    as (v & Hv & Hvna); [by rewrite list_lookup_fmap, Hk|apply to_numeric_scalar_number|done|].
  destruct dc; [|eauto]. exists v. split; [|done]. by apply downcast_integer_na.
Qed.

(** A column of integers comes back as it is. *)
Lemma to_numeric_ints dc col : Forall (λ c, is_int c = true) col → to_numeric dc col = col.
Proof.
  intros Hint. unfold to_numeric.
  assert (to_numeric_scalar <$> col = col) as ->.
  { induction Hint as [|c col Hc _ IH]; [done|]. rewrite fmap_cons, IH. by destruct c. }
  unfold harmonize. rewrite (proj2 (forallb_forall _ _)); last first.
  { intros c Hc%list_elem_of_In. by eapply Forall_forall in Hint. }
  destruct dc; [|done]. unfold downcast_integer.
  assert (existsb isna col = false) as ->.
  { induction Hint as [|c col Hc _ IH]; [done|]. simpl. rewrite IH. by destruct c. }
  assert (∃ zs, col = CInt <$> zs) as [zs ->].
  { induction Hint as [|c col Hc _ [zs ->]]; [by exists []|].
    destruct c as [z| | | |]; try done. by exists (z :: zs). }
  rewrite mapM_fmap_Forall_Some; [done|]. by apply Forall_forall.
Qed.

End CoercionFacts.

(** ** Column updates *)

Lemma indexed_read_csv header records : indexed (read_csv header records).
Proof.
  intros k r. unfold read_csv. simpl. rewrite list_lookup_imap.
  destruct (records !! k); [|done]. by intros [= <-].
Qed.

Lemma set_column_at_lookup p vals df k r' :
  rows (set_column_at p vals df) !! k = Some r' ↔
  ∃ r v, rows df !! k = Some r ∧ vals !! k = Some v ∧ r' = (r.1, set_cell p v r.2).
Proof.
  unfold set_column_at. simpl. rewrite lookup_zip_with_Some. naive_solver.
Qed.

Lemma column_at_lookup p df k :
  column_at p df !! k = (λ r, cell_at p r.2) <$> rows df !! k.
Proof. unfold column_at. by rewrite list_lookup_fmap. Qed.

Lemma length_column_at p df : length (column_at p df) = length (rows df).
Proof. apply length_fmap. Qed.

Lemma update_column_spec f name df df' :
  (∀ col, length (f col) = length col) →
  update_column f name df = Ok df' →
  ∃ p, loc name df = Ok p ∧ columns df' = columns df ∧
       length (rows df') = length (rows df) ∧
       ∀ k r', rows df' !! k = Some r' ↔
         ∃ r v, rows df !! k = Some r ∧ f (column_at p df) !! k = Some v ∧
                r' = (r.1, set_cell p v r.2).
Proof.
  intros Hlen. unfold update_column. destruct (loc name df) as [p|] eqn:Hp; [|done].
  simpl. intros [= <-]. exists p. split_and!; [done|done| |].
  - unfold set_column_at. simpl. rewrite length_zip_with, Hlen, length_column_at. lia.
  - intros k r'. apply set_column_at_lookup.
Qed.

Lemma update_column_other f name df df' p q :
  (∀ col, length (f col) = length col) →
  update_column f name df = Ok df' → loc name df = Ok p → q ≠ p →
  column_at q df' = column_at q df.
Proof.
  intros Hlen Hup Hp Hq. destruct (update_column_spec _ _ _ _ Hlen Hup) as (p' & Hp' & _ & Hl & Hrows).
  assert (p' = p) as -> by congruence.
  apply list_eq. intros k. rewrite !column_at_lookup.
  destruct (rows df' !! k) as [r'|] eqn:Hr'.
  - apply Hrows in Hr' as (r & v & -> & _ & ->). simpl.
    by rewrite cell_at_set_cell_ne.
  - apply lookup_ge_None in Hr'. rewrite (lookup_ge_None_2 (rows df)); [done|lia].
Qed.

Section NormalizerFacts.
Context `{Pandas}.

(** What the three coercions leave in each row. *)
Lemma coerce_spec df df' :
  coerce df = Ok df' →
  ∃ p1 p2 p3,
    loc "order_id" df = Ok p1 ∧ loc "sale_date" df = Ok p2 ∧ loc "amount" df = Ok p3 ∧
    columns df' = columns df ∧ length (rows df') = length (rows df) ∧
    ∀ k r', rows df' !! k = Some r' →
      ∃ r, rows df !! k = Some r ∧ r'.1 = r.1 ∧
        to_numeric true (column_at p1 df) !! k = Some (cell_at p1 r'.2) ∧
        to_date (column_at p2 df) !! k = Some (cell_at p2 r'.2) ∧
        to_numeric false (column_at p3 df) !! k = Some (cell_at p3 r'.2) ∧
        ∀ q, q ≠ p1 → q ≠ p2 → q ≠ p3 → cell_at q r'.2 = cell_at q r.2.
Proof.
  unfold coerce. intros Hc.
  destruct (update_column (to_numeric true) "order_id" df) as [d1|] eqn:E1; [|done].
  simpl in Hc.
  destruct (update_column to_date "sale_date" d1) as [d2|] eqn:E2; [|done].
  simpl in Hc. rename Hc into E3.
  pose proof (update_column_spec _ _ _ _ (length_to_numeric true) E1)
    as (p1 & Hp1 & Hc1 & Hl1 & Hr1).
  pose proof (update_column_spec _ _ _ _ length_to_date E2)
    as (p2 & Hp2 & Hc2 & Hl2 & Hr2).
  pose proof (update_column_spec _ _ _ _ (length_to_numeric false) E3)
    as (p3 & Hp3 & Hc3 & Hl3 & Hr3).
  rewrite (loc_columns _ df d1 Hc1) in Hp2.
  assert (loc "amount" df = Ok p3) as Hp3'.
  { rewrite <- Hp3. symmetry. apply loc_columns. congruence. }
  assert (p1 ≠ p2) as H12 by (by eapply (loc_ne "order_id" "sale_date")).
  assert (p1 ≠ p3) as H13 by (by eapply (loc_ne "order_id" "amount")).
  assert (p2 ≠ p3) as H23 by (by eapply (loc_ne "sale_date" "amount")).
  assert (column_at p2 d1 = column_at p2 df) as Hcol2.
  { eapply update_column_other; [apply (length_to_numeric true)|done..]. }
  assert (column_at p3 d2 = column_at p3 df) as Hcol3.
  { transitivity (column_at p3 d1).
    - eapply update_column_other; [apply length_to_date|done| |done].
      by rewrite (loc_columns _ df d1 Hc1).
    - eapply update_column_other; [apply (length_to_numeric true)|done..]. }
  rewrite Hcol2 in Hr2. rewrite Hcol3 in Hr3.
  exists p1, p2, p3. split_and!; [done|done|done|congruence|congruence|].
  intros k r' (r2 & v3 & (r1 & v2 & (r & v1 & Hr & Hv1 & ->)%Hr1 & Hv2 & ->)%Hr2 & Hv3 & ->)%Hr3.
  exists r. cbn [fst snd]. split_and!; [done|done|..].
  - by rewrite Hv1, cell_at_set_cell_ne, cell_at_set_cell_ne, cell_at_set_cell.
  - by rewrite Hv2, cell_at_set_cell_ne, cell_at_set_cell.
  - by rewrite Hv3, cell_at_set_cell.
  - intros q ???. by rewrite !cell_at_set_cell_ne.
Qed.

Lemma dropna_required_spec df df' :
  dropna required df = Ok df' →
  ∃ p1 p2 p3,
    loc "order_id" df = Ok p1 ∧ loc "sale_date" df = Ok p2 ∧ loc "amount" df = Ok p3 ∧
    columns df' = columns df ∧
    rows df' = filter (λ r, complete [p1; p2; p3] r = true) (rows df).
Proof.
  unfold dropna, required. simpl.
  destruct (loc "order_id" df) as [p1|]; [|done].
  destruct (loc "sale_date" df) as [p2|]; [|done].
  destruct (loc "amount" df) as [p3|]; [|done].
  simpl. intros [= <-]. by exists p1, p2, p3.
Qed.

(** The cleaned frame: the coerced rows that have all three fields. *)
Lemma normalize_spec df df' :
  normalize df = Ok df' →
  ∃ dfc p1 p2 p3,
    coerce (placeholder (rename df)) = Ok dfc ∧
    loc "order_id" dfc = Ok p1 ∧ loc "sale_date" dfc = Ok p2 ∧ loc "amount" dfc = Ok p3 ∧
    columns df' = columns dfc ∧
    rows df' = filter (λ r, complete [p1; p2; p3] r = true) (rows dfc).
Proof.
  unfold normalize. destruct (coerce _) as [dfc|] eqn:Hc; [|done]. simpl.
  intros (p1 & p2 & p3 & ?)%dropna_required_spec. exists dfc, p1, p2, p3. naive_solver.
Qed.

Lemma complete_cells p1 p2 p3 r :
  complete [p1; p2; p3] r = true ↔
  isna (cell_at p1 r.2) = false ∧ isna (cell_at p2 r.2) = false ∧ isna (cell_at p3 r.2) = false.
Proof.
  unfold complete, notna. simpl. rewrite !andb_true_iff, !negb_true_iff. naive_solver.
Qed.

(** The required fields of a surviving row are all present. *)
Lemma normalize_complete df df' r :
  normalize df = Ok df' → r ∈ rows df' →
  ∃ p1 p2 p3,
    loc "order_id" df' = Ok p1 ∧ loc "sale_date" df' = Ok p2 ∧ loc "amount" df' = Ok p3 ∧
    isna (cell_at p1 r.2) = false ∧ isna (cell_at p2 r.2) = false ∧
    isna (cell_at p3 r.2) = false.
Proof.
  intros (dfc & p1 & p2 & p3 & _ & H1 & H2 & H3 & Hcols & Hrows)%normalize_spec Hr.
  rewrite Hrows in Hr. apply list_elem_of_filter in Hr as [Hr _].
  apply complete_cells in Hr. exists p1, p2, p3.
  rewrite !(loc_columns _ dfc df' Hcols). naive_solver.
Qed.

Lemma indexed_placeholder_rename df : indexed df → indexed (placeholder (rename df)).
Proof.
  intros Hi k r. unfold placeholder. destruct (has_column _ _); [apply Hi|].
  simpl. rewrite list_lookup_fmap. destruct (rows df !! k) as [r0|] eqn:E; [|done].
  intros [= <-]. simpl. by apply Hi.
Qed.

End NormalizerFacts.

Section NormalizerTheorems.
Context `{Pandas}.

Lemma to_date_na col k c :
  col !! k = Some c → infer_date col c = None → to_date col !! k = Some CNaT.
Proof. intros Hk Hc. unfold to_date. by rewrite list_lookup_fmap, Hk; simpl; rewrite Hc. Qed.

Lemma unparsed_row_dropped df df' r :
  indexed df → normalize df = Ok df' →
  r ∈ rows (placeholder (rename df)) →
  fails_to_parse (placeholder (rename df)) r.2 = true →
  r.1 ∉ (rows df').*1.
Proof.
  intros Hidx Hn Hr Hfail.
  apply indexed_placeholder_rename in Hidx.
  unfold normalize in Hn. remember (placeholder (rename df)) as df0 eqn:Edf0. clear Edf0.
  assert (normalize_from : ∃ dfc q1 q2 q3, coerce df0 = Ok dfc ∧ loc "order_id" dfc = Ok q1 ∧
            loc "sale_date" dfc = Ok q2 ∧ loc "amount" dfc = Ok q3 ∧
            rows df' = filter (λ r, complete [q1; q2; q3] r = true) (rows dfc)).
  { destruct (coerce df0) as [dfc|]; [|done]. simpl in Hn.
    apply dropna_required_spec in Hn as (q1 & q2 & q3 & ?). exists dfc, q1, q2, q3. naive_solver. }
  destruct normalize_from as (dfc & q1 & q2 & q3 & Hc & Hq1 & Hq2 & Hq3 & Hrows).
  destruct (coerce_spec _ _ Hc) as (p1 & p2 & p3 & Hp1 & Hp2 & Hp3 & Hcols & Hlen & Hcells).
  rewrite (loc_columns _ df0 dfc Hcols) in Hq1. rewrite (loc_columns _ df0 dfc Hcols) in Hq2.
  rewrite (loc_columns _ df0 dfc Hcols) in Hq3.
  assert (q1 = p1) as -> by congruence. assert (q2 = p2) as -> by congruence.
  assert (q3 = p3) as -> by congruence.
  unfold fails_to_parse in Hfail. rewrite Hp1, Hp2, Hp3 in Hfail.
  apply list_elem_of_lookup in Hr as [k Hk].
  intros (x & Hx1 & Hx)%list_elem_of_fmap.
  rewrite Hrows in Hx. apply list_elem_of_filter in Hx as [Hcomplete Hx].
  apply list_elem_of_lookup in Hx as [j Hj].
  destruct (Hcells _ _ Hj) as (r0 & Hr0 & Hfst & Hv1 & Hv2 & Hv3 & _).
  assert (j = k) as ->.
  { rewrite <- (Hidx _ _ Hr0), <- Hfst, <- Hx1. by apply Hidx. }
  assert (r0 = r) as -> by congruence.
  apply complete_cells in Hcomplete as (Hn1 & Hn2 & Hn3).
  apply orb_true_iff in Hfail as [[Hf|Hf]%orb_true_iff|Hf].
  - destruct (to_numeric_na true (column_at p1 df0) k (cell_at p1 r.2))
      as (v & Hv & Hna); [by rewrite column_at_lookup, Hk|done|]. congruence.
  - apply bool_decide_eq_true in Hf.
    rewrite (to_date_na (column_at p2 df0) k (cell_at p2 r.2)) in Hv2;
      [|by rewrite column_at_lookup, Hk|done].
    injection Hv2 as Hv2. by rewrite <- Hv2 in Hn2.
  - destruct (to_numeric_na false (column_at p3 df0) k (cell_at p3 r.2))
      as (v & Hv & Hna); [by rewrite column_at_lookup, Hk|done|]. congruence.
Qed.

Lemma normalize_length df df' :
  normalize df = Ok df' → (length (rows df') ≤ length (rows df))%nat.
Proof.
  intros (dfc & p1 & p2 & p3 & Hc & _ & _ & _ & _ & ->)%normalize_spec.
  destruct (coerce_spec _ _ Hc) as (_ & _ & _ & _ & _ & _ & _ & Hlen & _).
  etransitivity; [apply length_filter|]. rewrite Hlen.
  unfold placeholder. destruct (has_column _ _); simpl; [done|by rewrite length_fmap].
Qed.

End NormalizerTheorems.

Lemma filter_all {X} (P : X → Prop) `{∀ x, Decision (P x)} l :
  Forall P l → filter P l = l.
Proof.
  induction 1 as [|x l Hx _ IH]; [done|]. by rewrite filter_cons_True, IH.
Qed.

(** ** Rollups over an exact arithmetic *)

Arguments total {A} add zero vs : simpl never.

Section ExactArithmetic.
Context {A : Type} (add : A → A → A) (zero : A).
Hypothesis add_assoc : ∀ x y z, add x (add y z) = add (add x y) z.
Hypothesis add_comm : ∀ x y, add x y = add y x.
Hypothesis add_zero : ∀ x, add zero x = x.

Lemma foldl_add_from a l : foldl add a l = add a (total add zero l).
Proof.
  unfold total. revert a. induction l as [|x l IH]; intros a; simpl.
  - by rewrite add_comm, add_zero.
  - rewrite (IH (add a x)), (IH (add zero x)), add_zero. by rewrite add_assoc.
Qed.

Lemma total_cons x l : total add zero (x :: l) = add x (total add zero l).
Proof. unfold total at 1. simpl. by rewrite add_zero, foldl_add_from. Qed.

Lemma total_group_add k v groups :
  total add zero (group_add add zero k v groups).*2
  = add (total add zero groups.*2) v.
Proof.
  induction groups as [|[k' s] rest IH]; cbn [group_add].
  - rewrite fmap_cons, total_cons. cbn [snd fmap list_fmap].
    by rewrite (add_comm (total _ _ _)), !add_zero.
  - destruct (cell_eqb k k'); [|destruct (cell_ltb k k')];
      rewrite !fmap_cons, !total_cons; cbn [snd].
    + rewrite <- !add_assoc. f_equal. apply add_comm.
    + by rewrite add_zero, add_comm.
    + by rewrite IH, add_assoc.
Qed.

(** Grouping does not change the sum: the totals of the groups add up to
    the sum of the values whose key is present. *)
Lemma total_group_sums kvs :
  total add zero (group_sums add zero kvs).*2
  = total add zero (filter (λ kv, isna kv.1 = false) kvs).*2.
Proof.
  unfold group_sums.
  assert (∀ groups,
    total add zero (foldl (λ groups kv, if isna kv.1 then groups
                                        else group_add add zero kv.1 kv.2 groups)
                          groups kvs).*2
    = add (total add zero groups.*2)
          (total add zero (filter (λ kv, isna kv.1 = false) kvs).*2)) as Hgen.
  { induction kvs as [|[k v] kvs IH]; intros groups; simpl.
    - unfold total at 3. simpl. by rewrite add_comm, add_zero.
    - rewrite IH. rewrite filter_cons. simpl. destruct (isna k) eqn:Hk.
      + by rewrite decide_False by done.
      + rewrite decide_True by done. rewrite total_group_add.
        rewrite fmap_cons, total_cons. simpl. by rewrite add_assoc. }
  rewrite Hgen. unfold total at 2. simpl. by rewrite add_zero.
Qed.

Section Reconcile.
Context `{Pandas} (amt : cell → A).

Lemma rollup_total_required by_ df df' :
  normalize df = Ok df' → by_ ∈ ["order_id"; "sale_date"] →
  ∃ pa, loc "amount" df' = Ok pa ∧
    rollup_total add zero amt by_ df'
    = Ok (total add zero ((λ r, amt (cell_at pa r.2)) <$> rows df')).
Proof.
  intros Hn Hby.
  destruct (normalize_spec _ _ Hn)
    as (dfc & p1 & p2 & p3 & _ & Hp1 & Hp2 & Hp3 & Hcols & Hrows).
  rewrite <- (loc_columns _ dfc df' Hcols) in Hp1.
  rewrite <- (loc_columns _ dfc df' Hcols) in Hp2.
  rewrite <- (loc_columns _ dfc df' Hcols) in Hp3.
  exists p3. split; [done|].
  assert (∃ pk, loc by_ df' = Ok pk ∧ ∀ r, r ∈ rows df' → isna (cell_at pk r.2) = false)
    as (pk & Hpk & Hkeys).
  { assert (∀ r, r ∈ rows df' → complete [p1; p2; p3] r = true) as Hall.
    { intros r. rewrite Hrows. by intros [? _]%list_elem_of_filter. }
    apply elem_of_cons in Hby as [->| ->%list_elem_of_singleton];
      [exists p1|exists p2]; (split; [done|]);
      intros r Hr%Hall%complete_cells; naive_solver. }
  unfold rollup_total, rollup, key_amounts. rewrite Hpk, Hp3. cbn [rbind].
  rewrite total_group_sums. do 2 f_equal.
  rewrite filter_all.
  - rewrite <- list_fmap_compose. by apply list_fmap_ext.
  - apply Forall_fmap, Forall_forall. intros r Hr. by apply Hkeys.
Qed.

End Reconcile.
End ExactArithmetic.

(** ** The write loop, statement by statement *)

Lemma run_Exception q tbls e : run q tbls = Raise e → is_Exception e = true.
Proof.
  destruct q as [|name cols vals]; simpl; [done|]. unfold insert_into.
  repeat case_match; naive_solver.
Qed.

Lemma answer_Exception q tbls fs e :
  uninterrupted fs → answer q tbls fs = Raise e → is_Exception e = true.
Proof.
  unfold answer. destruct fs as [|[e'|] fs]; simpl; intros Hfs; try apply run_Exception.
  intros [= ->]. apply Forall_cons in Hfs as [Hne _]. by destruct e.
Qed.

Lemma uninterrupted_tail fs : uninterrupted fs → uninterrupted (tail fs).
Proof. destruct fs; [done|]. by intros [_ ?]%Forall_cons. Qed.

Lemma length_trace qs tbls fs : length (trace qs tbls fs) = length qs.
Proof.
  revert tbls fs. induction qs as [|q qs IH]; intros tbls fs; simpl; [done|].
  destruct (answer q tbls fs); simpl; by rewrite IH.
Qed.

Lemma trace_statements qs tbls fs : (trace qs tbls fs).*1 = qs.
Proof.
  revert tbls fs. induction qs as [|q qs IH]; intros tbls fs; simpl; [done|].
  destruct (answer q tbls fs); simpl; by rewrite IH.
Qed.

Lemma replay_app J1 J2 tbls : replay (J1 ++ J2) tbls = replay J2 (replay J1 tbls).
Proof. apply foldl_app. Qed.

(** One turn of the loop. *)
Lemma attempt_answer title stmt r q w :
  stmt r.2 = Ok q →
  attempt title stmt r w =
    match answer q (tables w) (faults w) with
    | Ok tbls =>
        (MkWorld tbls (tail (faults w)) (journal w ++ [(q, None)]) (stdout w), Ok tt)
    | Raise e =>
        if is_Exception e
        then (MkWorld (tables w) (tail (faults w)) (journal w ++ [(q, Some e)])
                      (stdout w ++ [InsertError title r.1 e]), Ok tt)
        else (MkWorld (tables w) (tail (faults w)) (journal w ++ [(q, Some e)])
                      (stdout w), Raise e)
    end.
Proof.
  intros Hq. unfold attempt, try_except, bind, lift, execute, print. rewrite Hq.
  destruct (answer q (tables w) (faults w)) as [tbls|e]; [done|].
  destruct (is_Exception e); reflexivity.
Qed.

Lemma answer_Ok q tbls fs tbls' : answer q tbls fs = Ok tbls' → run q tbls = Ok tbls'.
Proof. unfold answer. by destruct fs as [|[e|] fs]. Qed.

Lemma drop_tail {X} n (l : list X) : drop n (tail l) = drop (S n) l.
Proof. destruct l; simpl; [by rewrite drop_nil|done]. Qed.

Lemma trace_cons q qs tbls fs :
  trace (q :: qs) tbls fs =
    match answer q tbls fs with
    | Ok tbls' => (q, None) :: trace qs tbls' (tail fs)
    | Raise e => (q, Some e) :: trace qs tbls (tail fs)
    end.
Proof. done. Qed.

(** The loop, turn by turn: every statement is sent, a refused one leaves
    its line, and the tables are what the accepted ones made of them. *)
Lemma for_each_attempt title stmt rws qs w :
  Forall2 (λ r q, stmt r.2 = Ok q) rws qs →
  uninterrupted (faults w) →
  for_each rws (attempt title stmt) w =
    (MkWorld (replay (trace qs (tables w) (faults w)) (tables w))
             (drop (length qs) (faults w))
             (journal w ++ trace qs (tables w) (faults w))
             (stdout w ++ errors title rws (trace qs (tables w) (faults w))), Ok tt).
Proof.
  intros Hqs. revert w. induction Hqs as [|r q rws qs Hq _ IH]; intros w Hfs.
  - unfold errors. simpl. unfold ret. rewrite !app_nil_r. by destruct w.
  - cbn [for_each]. unfold bind at 1. rewrite (attempt_answer _ _ _ _ _ Hq), trace_cons.
    destruct (answer q (tables w) (faults w)) as [tbls|e] eqn:Ha.
    + rewrite IH by (by apply uninterrupted_tail). cbn [tables faults journal stdout].
      apply answer_Ok in Ha. unfold replay at 2. cbn [foldl fst snd]. rewrite Ha.
      fold (replay (trace qs tbls (tail (faults w))) tbls).
      unfold errors. cbn [zip zip_with omap fst snd fmap option_fmap option_map].
      by rewrite drop_tail, <- !app_assoc.
    + rewrite (answer_Exception _ _ _ _ Hfs Ha).
      rewrite IH by (by apply uninterrupted_tail). cbn [tables faults journal stdout].
      unfold replay at 2. cbn [foldl fst snd].
      fold (replay (trace qs (tables w) (tail (faults w))) (tables w)).
      unfold errors. cbn [zip zip_with omap fst snd fmap option_fmap option_map].
      by rewrite drop_tail, <- !app_assoc.
Qed.

Section CleanedRows.
Context `{Pandas}.

Lemma harmonize_number col v :
  Forall (λ c, is_number c = true) col → v ∈ harmonize col → is_number v = true.
Proof.
  intros Hall. unfold harmonize. destruct (forallb _ _).
  - intros Hv. by eapply Forall_forall in Hall.
  - by intros (c & -> & _)%list_elem_of_fmap.
Qed.

Lemma downcast_integer_number col v :
  Forall (λ c, is_number c = true) col → v ∈ downcast_integer col → is_number v = true.
Proof.
  intros Hall. unfold downcast_integer. destruct (existsb _ _).
  - intros Hv. by eapply Forall_forall in Hall.
  - destruct (mapM _ _).
    + by intros (c & -> & _)%list_elem_of_fmap.
    + intros Hv. by eapply Forall_forall in Hall.
Qed.

(** Whatever [to_numeric] returns is a number (NaN included). *)
Lemma to_numeric_number dc col v : v ∈ to_numeric dc col → is_number v = true.
Proof.
  unfold to_numeric.
  assert (Forall (λ c, is_number c = true) (harmonize (to_numeric_scalar <$> col))) as Hh.
  { apply Forall_forall. intros c. apply harmonize_number.
    apply Forall_fmap, Forall_forall. intros ? _. apply to_numeric_scalar_number. }
  destruct dc; [by apply downcast_integer_number|].
  intros Hv. by eapply Forall_forall in Hh.
Qed.

Lemma to_date_cell col v : v ∈ to_date col → (∃ d, v = CDate d) ∨ v = CNaT.
Proof.
  unfold to_date. intros (c & -> & _)%list_elem_of_fmap.
  destruct (infer_date col c); eauto.
Qed.

Lemma normalize_rows df df' :
  normalize df = Ok df' →
  ∃ p1 p2 p3,
    loc "order_id" df' = Ok p1 ∧ loc "sale_date" df' = Ok p2 ∧ loc "amount" df' = Ok p3 ∧
    ∀ r, r ∈ rows df' → cleaned_row p1 p2 p3 r.2.
Proof.
  intros (dfc & p1 & p2 & p3 & Hc & H1 & H2 & H3 & Hcols & Hrows)%normalize_spec.
  exists p1, p2, p3. rewrite !(loc_columns _ dfc df' Hcols). split_and!; [done..|].
  intros r. rewrite Hrows. intros [Hcomplete Hr]%list_elem_of_filter.
  apply complete_cells in Hcomplete as (Hn1 & Hn2 & Hn3).
  destruct (coerce_spec _ _ Hc) as (q1 & q2 & q3 & Hq1 & Hq2 & Hq3 & Hcols' & _ & Hcells).
  rewrite (loc_columns _ _ dfc Hcols') in H1.
  rewrite (loc_columns _ _ dfc Hcols') in H2.
  rewrite (loc_columns _ _ dfc Hcols') in H3.
  assert (q1 = p1) as -> by congruence. assert (q2 = p2) as -> by congruence.
  assert (q3 = p3) as -> by congruence.
  apply list_elem_of_lookup in Hr as [k Hk].
  destruct (Hcells _ _ Hk) as (r0 & _ & _ & Hv1 & Hv2 & Hv3 & _).
  apply list_elem_of_lookup_2 in Hv1, Hv2, Hv3.
  apply to_numeric_number in Hv1, Hv3. apply to_date_cell in Hv2 as [Hd| Hd].
  - by split_and!.
  - by rewrite Hd in Hn2.
Qed.

End CleanedRows.

(** A row with a date in it is no row of numbers: [iterrows] yields its
    values as they are. *)
Lemma series_cleaned df p1 p2 p3 r :
  loc "sale_date" df = Ok p2 → cleaned_row p1 p2 p3 r →
  ∀ p name, loc name df = Ok p → cell_at p (series df r) = cell_at p r.
Proof.
  intros Hp2%loc_Ok (_ & _ & [d Hd] & _) p name Hp%loc_Ok.
  unfold series.
  set (vals := (λ p, cell_at p r) <$> seq 0 (length (columns df))).
  assert (∀ q, (q < length (columns df))%nat → cell_at q vals = cell_at q r) as Hvals.
  { intros q Hq. unfold cell_at at 1, vals. rewrite list_lookup_fmap, lookup_seq_lt by done. done. }
  assert (forallb is_number vals = false) as ->.
  { apply not_true_is_false. intros Hall. rewrite forallb_forall in Hall.
    specialize (Hall (CDate d)). rewrite <- Hd in Hall at 1.
    assert (is_number (CDate d) = true); [|done]. apply Hall.
    apply list_elem_of_In. unfold vals. apply list_elem_of_fmap. exists p2.
    split; [done|]. apply elem_of_seq. apply lookup_lt_Some in Hp2. lia. }
  apply Hvals. by apply lookup_lt_Some in Hp.
Qed.

Lemma params_required df p1 p2 p3 row :
  loc "order_id" df = Ok p1 → loc "sale_date" df = Ok p2 → loc "amount" df = Ok p3 →
  params required df row
  = Ok [Lit (cell_at p1 row); Lit (cell_at p2 row); Lit (cell_at p3 row)].
Proof. intros H1 H2 H3. unfold required. simpl. by rewrite H1, H2, H3. Qed.

(** ** Tables *)

Lemma written_required c1 c2 c3 :
  written required [Lit c1; Lit c2; Lit c3] = bronze_row c1 c2 c3.
Proof. done. Qed.

Lemma to_pkey_int c rws : to_pkey INT (Lit c) rws = int_key c.
Proof. by destruct c. Qed.

Lemma has_schema_lookup name s tbls :
  has_schema name s tbls → ∃ t, tbls !! name = Some t ∧ table_schema t = s.
Proof. unfold has_schema. destruct (tbls !! name) as [t|]; [|done]. intros [= <-]. eauto. Qed.

Lemma rows_of_insert name t tbls : rows_of name (<[name := t]> tbls) = table_rows t.
Proof. unfold rows_of. by rewrite lookup_insert_eq. Qed.

Lemma rows_of_insert_ne name name' t tbls :
  name ≠ name' → rows_of name' (<[name := t]> tbls) = rows_of name' tbls.
Proof. intros. unfold rows_of. by rewrite lookup_insert_ne. Qed.

Lemma has_schema_insert name t tbls : has_schema name (table_schema t) (<[name := t]> tbls).
Proof. unfold has_schema. by rewrite lookup_insert_eq. Qed.

Lemma has_schema_insert_ne name name' s t tbls :
  name ≠ name' → has_schema name' s (<[name := t]> tbls) ↔ has_schema name' s tbls.
Proof. intros. unfold has_schema. by rewrite lookup_insert_ne. Qed.

(** An [INSERT] of the bronze loop into a bronze table of the script's
    shape. *)
Lemma run_bronze_insert tbls c1 c2 c3 :
  has_schema "bronze_table" bronze_schema tbls →
  run (InsertInto "bronze_table" required [Lit c1; Lit c2; Lit c3]) tbls =
    match int_key c1 with
    | Some k =>
        Ok (<["bronze_table" :=
                Table bronze_schema
                  (bronze_upsert (rows_of "bronze_table" tbls) (c1, c2, c3))]> tbls)
    | None => Raise (InvalidRequest "Invalid constant for the primary key")
    end.
Proof.
  intros (t & Ht & Hs)%has_schema_lookup. cbn [run]. unfold insert_into.
  rewrite Ht, Hs. unfold rows_of, bronze_upsert. rewrite Ht. cbn [fmap option_fmap option_map default fst snd].
  change (negb (length required =? length [Lit c1; Lit c2; Lit c3])%nat) with false.
  cbn match.
  change (negb (forallb (λ c, bool_decide (c ∈ (fields bronze_schema).*1)) required))
    with false.
  cbn match.
  change ((list_to_map (zip required [Lit c1; Lit c2; Lit c3]) : gmap string value)
            !! primary_key bronze_schema) with (Some (Lit c1)).
  change ((list_to_map (fields bronze_schema) : gmap string cql_type)
            !! primary_key bronze_schema) with (Some INT).
  cbn match. rewrite to_pkey_int, written_required.
  by destruct (int_key c1).
Qed.

Lemma fresh_uuid_None rws : rws !! fresh_uuid rws = None.
Proof.
  unfold fresh_uuid. destruct (rws !! KUuid (fresh (uuids rws))) as [row|] eqn:E; [|done].
  exfalso. apply (is_fresh (uuids rws)). unfold uuids.
  apply elem_of_set_omap. exists (KUuid (fresh (uuids rws))). split; [|done].
  apply elem_of_dom. eauto.
Qed.

Lemma run_silver_insert tbls c1 c2 c3 :
  has_schema "silver_table" silver_schema tbls →
  run (InsertInto "silver_table" ("sale_id" :: required)
         [UuidCall; Lit c1; Lit c2; Lit c3]) tbls =
    Ok (<["silver_table" :=
            Table silver_schema
              (silver_append (rows_of "silver_table" tbls) (c1, c2, c3))]> tbls).
Proof.
  intros (t & Ht & Hs)%has_schema_lookup. cbn [run]. unfold insert_into.
  rewrite Ht, Hs. unfold rows_of, silver_append. rewrite Ht.
  cbn [fmap option_fmap option_map default fst snd].
  change (negb (length ("sale_id" :: required)
                =? length [UuidCall; Lit c1; Lit c2; Lit c3])%nat) with false.
  cbn match.
  change (negb (forallb (λ c, bool_decide (c ∈ (fields silver_schema).*1))
                        ("sale_id" :: required))) with false.
  cbn match.
  change ((list_to_map (zip ("sale_id" :: required) [UuidCall; Lit c1; Lit c2; Lit c3])
            : gmap string value) !! primary_key silver_schema) with (Some UuidCall).
  change ((list_to_map (fields silver_schema) : gmap string cql_type)
            !! primary_key silver_schema) with (Some UUID).
  cbn match. cbn [to_pkey]. fold (fresh_uuid (table_rows t)).
  rewrite fresh_uuid_None. cbn [default].
  change (written ("sale_id" :: required) [UuidCall; Lit c1; Lit c2; Lit c3])
    with (bronze_row c1 c2 c3).
  by rewrite (right_id ∅ (∪)).
Qed.

(** ** What holds of the tables through a loop, whatever the store does *)

Lemma attempt_tables title stmt r w :
  tables (attempt title stmt r w).1 = tables w ∨
  ∃ q, stmt r.2 = Ok q ∧ run q (tables w) = Ok (tables (attempt title stmt r w).1).
Proof.
  destruct (stmt r.2) as [q|e] eqn:Hq.
  - rewrite (attempt_answer _ _ _ _ _ Hq).
    destruct (answer q (tables w) (faults w)) as [tbls|e] eqn:Ha.
    + right. exists q. split; [done|]. by apply answer_Ok in Ha.
    + left. by destruct (is_Exception e).
  - left. unfold attempt, try_except, bind, lift, print. rewrite Hq.
    by destruct (is_Exception e).
Qed.

Lemma for_each_tables_invariant (P : gmap string table → Prop) title stmt rws w :
  (∀ r q t t', r ∈ rws → stmt r.2 = Ok q → P t → run q t = Ok t' → P t') →
  P (tables w) → P (tables (for_each rws (attempt title stmt) w).1).
Proof.
  revert w. induction rws as [|r rws IH]; intros w Hstep HP; [done|].
  cbn [for_each]. unfold bind at 1.
  destruct (attempt title stmt r w) as [w1 [[]|e]] eqn:Hat.
  - apply IH.
    + intros r' q t t' Hr'. apply Hstep. by right.
    + destruct (attempt_tables title stmt r w) as [Heq|(q & Hq & Hrun)];
        rewrite Hat in *; cbn [fst] in *.
      * by rewrite Heq.
      * eapply Hstep; [by left|done..].
  - cbn [fst].
    destruct (attempt_tables title stmt r w) as [Heq|(q & Hq & Hrun)];
      rewrite Hat in *; cbn [fst] in *.
    + by rewrite Heq.
    + eapply Hstep; [by left|done..].
Qed.

(** ** The statements of the bronze and the silver loop *)

Lemma normalize_cleaned `{Pandas} raw df :
  normalize raw = Ok df → ∃ p1 p2 p3, cleaned df p1 p2 p3.
Proof. intros (p1 & p2 & p3 & ?)%normalize_rows. by exists p1, p2, p3. Qed.

Lemma record_at_series df p1 p2 p3 r :
  cleaned df p1 p2 p3 → r ∈ rows df →
  record_at p1 p2 p3 (r.1, series df r.2) = record_at p1 p2 p3 r.
Proof.
  intros (H1 & H2 & H3 & Hrows) Hr. unfold record_at. cbn [snd].
  pose proof (series_cleaned df p1 p2 p3 r.2 H2 (Hrows r Hr)) as Hs.
  by rewrite (Hs _ _ H1), (Hs _ _ H2), (Hs _ _ H3).
Qed.

Lemma bronze_statements df p1 p2 p3 :
  cleaned df p1 p2 p3 →
  Forall2 (λ r q, bronze_insert df r.2 = Ok q) (iterrows df)
          (bronze_statement <$> (record_at p1 p2 p3 <$> rows df)).
Proof.
  intros Hc. pose proof Hc as (H1 & H2 & H3 & Hrows).
  unfold iterrows. rewrite <- list_fmap_compose. apply Forall2_fmap, Forall_Forall2_diag.
  apply Forall_forall. intros r Hr. cbn [snd compose].
  unfold bronze_insert. rewrite (params_required df p1 p2 p3) by done. cbn [rbind].
  pose proof (record_at_series df p1 p2 p3 r Hc Hr) as Hrec.
  unfold record_at in Hrec. cbn [snd] in Hrec. injection Hrec as -> -> ->. done.
Qed.

Lemma silver_statements df p1 p2 p3 :
  cleaned df p1 p2 p3 →
  Forall2 (λ r q, silver_insert df r.2 = Ok q) (iterrows df)
          (silver_statement <$> (record_at p1 p2 p3 <$> rows df)).
Proof.
  intros Hc. pose proof Hc as (H1 & H2 & H3 & Hrows).
  unfold iterrows. rewrite <- list_fmap_compose. apply Forall2_fmap, Forall_Forall2_diag.
  apply Forall_forall. intros r Hr. cbn [snd compose].
  unfold silver_insert. rewrite (params_required df p1 p2 p3) by done. cbn [rbind].
  pose proof (record_at_series df p1 p2 p3 r Hc Hr) as Hrec.
  unfold record_at in Hrec. cbn [snd] in Hrec. injection Hrec as -> -> ->. done.
Qed.

Lemma replay_trace_nil qs tbls : replay (trace qs tbls []) tbls = run_all qs tbls.
Proof.
  revert tbls. induction qs as [|q qs IH]; intros tbls; [done|].
  rewrite trace_cons. unfold answer. cbn [head tail].
  destruct (run q tbls) as [t'|e] eqn:Hrun; unfold replay, run_all; cbn [foldl fst snd];
    rewrite Hrun; [apply IH|apply IH].
Qed.

Lemma run_all_cons q qs tbls :
  run_all (q :: qs) tbls
  = run_all qs (match run q tbls with Ok t' => t' | Raise _ => tbls end).
Proof. done. Qed.

Lemma insert_table_id name s t (tbls : gmap string table) :
  tbls !! name = Some t → table_schema t = s →
  <[name := Table s (table_rows t)]> tbls = tbls.
Proof. intros Ht <-. apply insert_id. rewrite Ht. by destruct t. Qed.

Lemma run_all_bronze cs tbls :
  has_schema "bronze_table" bronze_schema tbls →
  run_all (bronze_statement <$> cs) tbls =
    <["bronze_table" := Table bronze_schema (foldl bronze_upsert (rows_of "bronze_table" tbls) cs)]> tbls.
Proof.
  revert tbls. induction cs as [|[[c1 c2] c3] cs IH]; intros tbls Hs.
  - apply has_schema_lookup in Hs as (t & Ht & Hs).
    change (run_all (bronze_statement <$> []) tbls) with tbls.
    change (foldl bronze_upsert (rows_of "bronze_table" tbls) [])
      with (rows_of "bronze_table" tbls).
    unfold rows_of. rewrite Ht. symmetry. by apply insert_table_id.
  - rewrite fmap_cons, run_all_cons.
    change (bronze_statement (c1, c2, c3))
      with (InsertInto "bronze_table" required [Lit c1; Lit c2; Lit c3]).
    rewrite (run_bronze_insert _ _ _ _ Hs).
    change (foldl bronze_upsert (rows_of "bronze_table" tbls) ((c1, c2, c3) :: cs))
      with (foldl bronze_upsert (bronze_upsert (rows_of "bronze_table" tbls) (c1, c2, c3)) cs).
    destruct (int_key c1) as [k|] eqn:Hk.
    + rewrite IH; [|apply (has_schema_insert "bronze_table" (Table bronze_schema _))].
      rewrite rows_of_insert, insert_insert_eq. reflexivity.
    + rewrite IH; [|exact Hs].
      assert (bronze_upsert (rows_of "bronze_table" tbls) (c1, c2, c3)
              = rows_of "bronze_table" tbls) as ->; [|reflexivity].
      unfold bronze_upsert. cbn [fst snd]. rewrite Hk. reflexivity.
Qed.

Lemma run_all_silver cs tbls :
  has_schema "silver_table" silver_schema tbls →
  run_all (silver_statement <$> cs) tbls =
    <["silver_table" := Table silver_schema (foldl silver_append (rows_of "silver_table" tbls) cs)]> tbls.
Proof.
  revert tbls. induction cs as [|[[c1 c2] c3] cs IH]; intros tbls Hs.
  - apply has_schema_lookup in Hs as (t & Ht & Hs).
    change (run_all (silver_statement <$> []) tbls) with tbls.
    change (foldl silver_append (rows_of "silver_table" tbls) [])
      with (rows_of "silver_table" tbls).
    unfold rows_of. rewrite Ht. symmetry. by apply insert_table_id.
  - rewrite fmap_cons, run_all_cons.
    change (silver_statement (c1, c2, c3))
      with (InsertInto "silver_table" ("sale_id" :: required)
              [UuidCall; Lit c1; Lit c2; Lit c3]).
    rewrite (run_silver_insert _ _ _ _ Hs).
    change (foldl silver_append (rows_of "silver_table" tbls) ((c1, c2, c3) :: cs))
      with (foldl silver_append (silver_append (rows_of "silver_table" tbls) (c1, c2, c3)) cs).
    rewrite IH; [|apply (has_schema_insert "silver_table" (Table silver_schema _))].
    rewrite rows_of_insert, insert_insert_eq. reflexivity.
Qed.

(** The two write stages on a cleaned frame and a store that raises no
    [KeyboardInterrupt]: the loop ends, and the world is the one the
    journal of its statements describes. *)
Lemma insert_rows_cleaned title stmt mk df p1 p2 p3 w :
  Forall2 (λ r q, stmt r.2 = Ok q) (iterrows df) (mk <$> (record_at p1 p2 p3 <$> rows df)) →
  uninterrupted (faults w) →
  let qs := mk <$> (record_at p1 p2 p3 <$> rows df) in
  let J := trace qs (tables w) (faults w) in
  insert_rows title stmt df w =
    (MkWorld (replay J (tables w)) (drop (length (rows df)) (faults w))
             (journal w ++ J) (stdout w ++ errors title (iterrows df) J), Ok tt).
Proof.
  intros Hqs Hfs qs J. subst J qs. unfold insert_rows.
  rewrite (for_each_attempt _ _ _ _ _ Hqs Hfs).
  rewrite !length_fmap. reflexivity.
Qed.

(** ** Grand totals of the rollups *)

(** C1 (as amended).  In an exact arithmetic of amounts (addition
    associative and commutative, zero neutral) the rollup by order and the
    rollup by date of a cleaned frame have the same grand total, which is
    the sum of all amounts of the frame: every surviving row has its
    identifier and its date, so each row is in exactly one group of either
    rollup. *)
Theorem rollup_totals_reconcile `{Pandas} {A : Type} (add : A → A → A) (zero : A)
    (amt : cell → A) (raw df : DataFrame) :
  (∀ x y z, add x (add y z) = add (add x y) z) →
  (∀ x y, add x y = add y x) →
  (∀ x, add zero x = x) →
  normalize raw = Ok df →
  ∃ s, rollup_total add zero amt "order_id" df = Ok s ∧
       rollup_total add zero amt "sale_date" df = Ok s ∧
       amount_total add zero amt df = Ok s.
Proof.
  intros Hassoc Hcomm Hzero Hn.
  destruct (rollup_total_required add zero Hassoc Hcomm Hzero amt "order_id" raw df Hn)
    as (pa & Hpa & Hby_order); [set_solver|].
  destruct (rollup_total_required add zero Hassoc Hcomm Hzero amt "sale_date" raw df Hn)
    as (pa' & Hpa' & Hby_date); [set_solver|].
  assert (pa' = pa) as -> by congruence.
  eexists. split_and!; [exact Hby_order|exact Hby_date|].
  unfold amount_total. rewrite Hpa. reflexivity.
Qed.

Lemma rollup_totals_reconcile_witness :
  ∃ s, rollup_total Z.add 0 whole "order_id" (cleaned_of whole_sales) = Ok s ∧
       rollup_total Z.add 0 whole "sale_date" (cleaned_of whole_sales) = Ok s ∧
       amount_total Z.add 0 whole (cleaned_of whole_sales) = Ok s.
Proof.
  apply (@rollup_totals_reconcile iso_pandas Z Z.add 0 whole whole_sales).
  - intros. lia.
  - intros. lia.
  - intros. lia.
  - vm_compute. reflexivity.
Defined.

(** C1, as stated, fails in [float64], the arithmetic of the script: the
    two amounts of order 1 overflow to infinity, so the rollup by order
    totals infinity, while the rollup by date, which adds the negative
    amount in between, totals 1e308. *)
Lemma rollup_totals_float_mismatch :
  rollup_total PrimFloat.add 0%float float_of "order_id" (cleaned_of huge_sales)
    = Ok infinity ∧
  rollup_total PrimFloat.add 0%float float_of "sale_date" (cleaned_of huge_sales)
    = Ok 1e308%float ∧
  amount_total PrimFloat.add 0%float float_of (cleaned_of huge_sales) = Ok infinity ∧
  (infinity =? 1e308)%float = false.
Proof. vm_compute. repeat split. Qed.

(** ** Where the statements and the groups come from *)

Lemma attempt_journal title stmt r w :
  journal (attempt title stmt r w).1 = journal w ∨
  ∃ q o, stmt r.2 = Ok q ∧
         journal (attempt title stmt r w).1 = (journal w ++ [(q, o)])%list.
Proof.
  destruct (stmt r.2) as [q|e] eqn:Hq.
  - right. exists q. rewrite (attempt_answer _ _ _ _ _ Hq).
    destruct (answer q (tables w) (faults w)) as [tbls|e].
    + by exists None.
    + exists (Some e). by destruct (is_Exception e).
  - left. unfold attempt, try_except, bind, lift, print. rewrite Hq.
    by destruct (is_Exception e).
Qed.

Lemma for_each_journal title stmt rws w :
  ∃ J, journal (for_each rws (attempt title stmt) w).1 = (journal w ++ J)%list ∧
       Forall (λ j, ∃ r, r ∈ rws ∧ stmt r.2 = Ok j.1) J.
Proof.
  revert w. induction rws as [|r rws IH]; intros w.
  - exists []. split; [by rewrite app_nil_r|constructor].
  - cbn [for_each]. unfold bind at 1.
    assert (∃ J1, journal (attempt title stmt r w).1 = (journal w ++ J1)%list ∧
                  Forall (λ j, ∃ r', r' ∈ r :: rws ∧ stmt r'.2 = Ok j.1) J1)
      as (J1 & HJ1 & HF1).
    { destruct (attempt_journal title stmt r w) as [Heq|(q & o & Hq & Heq)].
      - exists []. split; [by rewrite app_nil_r|constructor].
      - exists [(q, o)]. split; [done|]. repeat constructor. exists r. split; [by left|done]. }
    destruct (attempt title stmt r w) as [w1 [[]|e]]; cbn [fst] in *.
    + destruct (IH w1) as (J2 & HJ2 & HF2). exists (J1 ++ J2). split.
      * by rewrite HJ2, HJ1, app_assoc.
      * apply Forall_app. split; [done|].
        eapply Forall_impl; [exact HF2|]. intros j (r' & Hr' & Hj). exists r'.
        split; [by right|done].
    + by exists J1.
Qed.

Lemma then_print_journal (m : M unit) l w :
  journal ((m >> print l) w).1 = journal (m w).1.
Proof. unfold bind, print. by destruct (m w) as [w1 [[]|e]]. Qed.

Lemma sent_app w w' J : journal w' = (journal w ++ J)%list → sent w w' = J.
Proof. unfold sent. intros ->. by rewrite drop_app_length. Qed.

Lemma iterrows_elem df r' :
  r' ∈ iterrows df → ∃ r, r ∈ rows df ∧ r' = (r.1, series df r.2).
Proof. unfold iterrows. intros (r & -> & Hr)%list_elem_of_fmap. eauto. Qed.

Lemma Forall2_fmap_r_elem {X Y Z} (P : X → Z → Prop) (f : Y → Z) (g : Y → X) l x :
  Forall2 P (g <$> l) (f <$> l) → x ∈ l → P (g x) (f x).
Proof.
  intros HF Hx. apply list_elem_of_lookup in Hx as [i Hi].
  eapply (Forall2_lookup_lr _ _ _ i); [exact HF|..]; by rewrite list_lookup_fmap, Hi.
Qed.

Lemma write_bronze_sent df p1 p2 p3 w j :
  cleaned df p1 p2 p3 → j ∈ sent w (write_bronze df w).1 →
  ∃ r, r ∈ rows df ∧ j.1 = bronze_statement (record_at p1 p2 p3 r).
Proof.
  intros Hc. unfold write_bronze. unfold sent. rewrite then_print_journal.
  unfold insert_rows.
  destruct (for_each_journal "Bronze Table" (bronze_insert df) (iterrows df) w)
    as (J & HJ & HF).
  rewrite HJ, drop_app_length. intros Hj.
  eapply Forall_forall in HF as (r' & Hr' & Hq); [|exact Hj].
  apply iterrows_elem in Hr' as (r & Hr & ->). exists r. split; [done|].
  pose proof (bronze_statements df p1 p2 p3 Hc) as Hall. unfold iterrows in Hall.
  rewrite <- list_fmap_compose in Hall.
  pose proof (Forall2_fmap_r_elem _ _ _ _ _ Hall Hr) as Hst. cbn [snd compose] in *.
  congruence.
Qed.

Lemma write_silver_sent df p1 p2 p3 w j :
  cleaned df p1 p2 p3 → j ∈ sent w (write_silver df w).1 →
  ∃ r, r ∈ rows df ∧ j.1 = silver_statement (record_at p1 p2 p3 r).
Proof.
  intros Hc. unfold write_silver. unfold sent. rewrite then_print_journal.
  unfold insert_rows.
  destruct (for_each_journal "Silver Table" (silver_insert df) (iterrows df) w)
    as (J & HJ & HF).
  rewrite HJ, drop_app_length. intros Hj.
  eapply Forall_forall in HF as (r' & Hr' & Hq); [|exact Hj].
  apply iterrows_elem in Hr' as (r & Hr & ->). exists r. split; [done|].
  pose proof (silver_statements df p1 p2 p3 Hc) as Hall. unfold iterrows in Hall.
  rewrite <- list_fmap_compose in Hall.
  pose proof (Forall2_fmap_r_elem _ _ _ _ _ Hall Hr) as Hst. cbn [snd compose] in *.
  congruence.
Qed.

(** The key of every group is the key of a row. *)
Lemma group_add_keys {A} (add : A → A → A) zero k v groups g :
  g ∈ group_add add zero k v groups → g.1 = k ∨ ∃ g', g' ∈ groups ∧ g.1 = g'.1.
Proof.
  induction groups as [|[k' s] rest IH]; cbn [group_add].
  - intros ->%list_elem_of_singleton. by left.
  - destruct (cell_eqb k k'); [|destruct (cell_ltb k k')].
    + intros [->|Hg]%elem_of_cons; right.
      * exists (k', s). split; [by left|done].
      * exists g. split; [by right|done].
    + intros [->|Hg]%elem_of_cons; [by left|]. right. by exists g.
    + intros [->|Hg]%elem_of_cons.
      * right. exists (k', s). split; [by left|done].
      * destruct (IH Hg) as [?|(g' & Hg' & ?)]; [by left|].
        right. exists g'. split; [by right|done].
Qed.

Lemma group_sums_keys {A} (add : A → A → A) zero kvs g :
  g ∈ group_sums add zero kvs → ∃ kv, kv ∈ kvs ∧ g.1 = kv.1.
Proof.
  unfold group_sums.
  assert (∀ groups,
    g ∈ foldl (λ groups kv, if isna kv.1 then groups
                            else group_add add zero kv.1 kv.2 groups) groups kvs →
    (∃ g', g' ∈ groups ∧ g.1 = g'.1) ∨ ∃ kv, kv ∈ kvs ∧ g.1 = kv.1) as Hgen.
  { induction kvs as [|kv kvs IH]; intros groups; cbn [foldl].
    - intros Hg. left. by exists g.
    - intros Hg. destruct (IH _ Hg) as [(g' & Hg' & Heq)|(kv' & Hkv' & Heq)].
      + destruct (isna kv.1).
        * left. by exists g'.
        * destruct (group_add_keys _ _ _ _ _ _ Hg') as [Hk|(g'' & Hg'' & Hk)].
          -- right. exists kv. split; [by left|congruence].
          -- left. exists g''. split; [done|congruence].
      + right. exists kv'. split; [by right|done]. }
  intros Hg. destruct (Hgen [] Hg) as [(g' & Hg' & _)|?]; [|done].
  by apply elem_of_nil in Hg'.
Qed.

Lemma groupby_sum_keys by_ df groups g :
  groupby_sum by_ df = Ok groups → g ∈ groups →
  ∃ pk r, loc by_ df = Ok pk ∧ r ∈ rows df ∧ g.1 = cell_at pk r.2.
Proof.
  unfold groupby_sum, rollup, key_amounts.
  destruct (loc by_ df) as [pk|]; [|done]. cbn [rbind].
  destruct (loc "amount" df) as [pa|]; [|done]. cbn [rbind].
  intros [= <-] (kv & (r & -> & Hr)%list_elem_of_fmap & Hk)%group_sums_keys.
  by exists pk, r.
Qed.

Section C2.
Context `{Pandas}.

(** C2.  A record of the file one of whose three required fields does not
    parse is in no row of the cleaned frame; the cleaned frame has at most
    as many rows as the file has records; and what the later stages send or
    group comes from the rows of the cleaned frame only: every statement of
    the bronze and of the silver loop carries the three fields of one of
    its rows, and every key of a rollup is the key of one of its rows. *)
Theorem normalize_excludes_unparsed header records df :
  normalize (read_csv header records) = Ok df →
  (∀ r, r ∈ rows (placeholder (rename (read_csv header records))) →
        fails_to_parse (placeholder (rename (read_csv header records))) r.2 = true →
        r.1 ∉ (rows df).*1) ∧
  (length (rows df) ≤ length records)%nat ∧
  ∃ p1 p2 p3, cleaned df p1 p2 p3 ∧
    (∀ w j, j ∈ sent w (write_bronze df w).1 →
            ∃ r, r ∈ rows df ∧ j.1 = bronze_statement (record_at p1 p2 p3 r)) ∧
    (∀ w j, j ∈ sent w (write_silver df w).1 →
            ∃ r, r ∈ rows df ∧ j.1 = silver_statement (record_at p1 p2 p3 r)) ∧
    (∀ by_ groups g, groupby_sum by_ df = Ok groups → g ∈ groups →
            ∃ pk r, loc by_ df = Ok pk ∧ r ∈ rows df ∧ g.1 = cell_at pk r.2).
Proof.
  intros Hn. split_and!.
  - intros r Hr Hfail. eapply unparsed_row_dropped; [apply indexed_read_csv|done..].
  - etransitivity; [by eapply normalize_length|].
    unfold read_csv. cbn [rows]. by rewrite length_imap.
  - destruct (normalize_cleaned _ _ Hn) as (p1 & p2 & p3 & Hc).
    exists p1, p2, p3. split_and!; [done|..].
    + intros w j. by apply write_bronze_sent.
    + intros w j. by apply write_silver_sent.
    + intros by_ groups g. apply groupby_sum_keys.
Qed.

End C2.

Lemma normalize_excludes_unparsed_witness :
  (∀ r, r ∈ rows (placeholder (rename (read_csv sales_header mixed_records))) →
        @fails_to_parse iso_pandas
          (placeholder (rename (read_csv sales_header mixed_records))) r.2 = true →
        r.1 ∉ (rows (cleaned_of (read_csv sales_header mixed_records))).*1) ∧
  (length (rows (cleaned_of (read_csv sales_header mixed_records)))
     ≤ length mixed_records)%nat ∧
  ∃ p1 p2 p3, cleaned (cleaned_of (read_csv sales_header mixed_records)) p1 p2 p3 ∧
    (∀ w j, j ∈ sent w (write_bronze (cleaned_of (read_csv sales_header mixed_records)) w).1 →
            ∃ r, r ∈ rows (cleaned_of (read_csv sales_header mixed_records)) ∧
                 j.1 = bronze_statement (record_at p1 p2 p3 r)) ∧
    (∀ w j, j ∈ sent w (write_silver (cleaned_of (read_csv sales_header mixed_records)) w).1 →
            ∃ r, r ∈ rows (cleaned_of (read_csv sales_header mixed_records)) ∧
                 j.1 = silver_statement (record_at p1 p2 p3 r)) ∧
    (∀ by_ groups g,
        groupby_sum by_ (cleaned_of (read_csv sales_header mixed_records)) = Ok groups →
        g ∈ groups →
        ∃ pk r, loc by_ (cleaned_of (read_csv sales_header mixed_records)) = Ok pk ∧
                r ∈ rows (cleaned_of (read_csv sales_header mixed_records)) ∧
                g.1 = cell_at pk r.2).
Proof.
  apply (@normalize_excludes_unparsed iso_pandas sales_header mixed_records).
  vm_compute. reflexivity.
Defined.

(** ** The placeholder identifier *)

Lemma positions_app name l1 l2 q :
  positions name (l1 ++ l2) q = positions name l1 q ++ positions name l2 (q + length l1)%nat.
Proof.
  revert q. induction l1 as [|l l1 IH]; intros q; cbn [positions app length].
  - by rewrite Nat.add_0_r.
  - rewrite IH. replace (S q + length l1)%nat with (q + S (length l1))%nat by lia.
    by destruct (String.eqb l name).
Qed.

Lemma positions_absent name labels q :
  existsb (String.eqb name) labels = false → positions name labels q = [].
Proof.
  revert q. induction labels as [|l labels IH]; intros q; cbn [existsb positions]; [done|].
  intros [Hl Hrest]%orb_false_iff. rewrite String.eqb_sym in Hl. rewrite Hl. by apply IH.
Qed.

Lemma loc_assign_new name v df :
  has_column name df = false → loc name (assign_new name v df) = Ok (length (columns df)).
Proof.
  intros Habs. unfold loc, assign_new. cbn [columns].
  rewrite positions_app, (positions_absent _ _ _ Habs). cbn [positions app].
  by rewrite String.eqb_refl.
Qed.

Lemma loc_assign_new_ne name name' v df :
  name ≠ name' → loc name' (assign_new name v df) = loc name' df.
Proof.
  intros Hne. unfold loc, assign_new. cbn [columns].
  rewrite positions_app. cbn [positions].
  destruct (String.eqb_spec name name') as [|_]; [done|]. by rewrite app_nil_r.
Qed.

Lemma update_column_Ok f name df p :
  loc name df = Ok p → update_column f name df = Ok (set_column_at p (f (column_at p df)) df).
Proof. intros Hp. unfold update_column. by rewrite Hp. Qed.

Lemma filter_ext_in {X} (P Q : X → Prop) `{∀ x, Decision (P x)} `{∀ x, Decision (Q x)}
    (l : list X) :
  (∀ x, x ∈ l → P x ↔ Q x) → filter P l = filter Q l.
Proof.
  induction l as [|x l IH]; intros Hext; [done|].
  rewrite !filter_cons. rewrite IH by (intros y Hy; apply Hext; by right).
  destruct (decide (P x)) as [HP|HP], (decide (Q x)) as [HQ|HQ]; try done;
    exfalso; apply (Hext x) in HP || apply (Hext x) in HQ; try done; by left.
Qed.

Section C4.
Context `{Pandas}.

Lemma coerce_Ok df p1 p2 p3 :
  loc "order_id" df = Ok p1 → loc "sale_date" df = Ok p2 → loc "amount" df = Ok p3 →
  ∃ dfc, coerce df = Ok dfc.
Proof.
  intros H1 H2 H3. unfold coerce. rewrite (update_column_Ok _ _ _ _ H1). cbn [rbind].
  rewrite (update_column_Ok _ _ _ p2) by done. cbn [rbind].
  rewrite (update_column_Ok _ _ _ p3) by done. eauto.
Qed.

(** Normalization of a frame without an [order_id] column. *)
Lemma placeholder_normalize raw p2 p3 :
  has_column "order_id" (rename raw) = false →
  loc "sale_date" (rename raw) = Ok p2 → loc "amount" (rename raw) = Ok p3 →
  ∃ df dfc p1,
    normalize raw = Ok df ∧ coerce (placeholder (rename raw)) = Ok dfc ∧
    loc "order_id" df = Ok p1 ∧
    length (rows dfc) = length (rows raw) ∧
    (∀ r, r ∈ rows dfc → cell_at p1 r.2 = CInt 0) ∧
    rows df = filter (λ r, complete [p2; p3] r = true) (rows dfc).
Proof.
  intros Habs Hd Ha.
  assert (placeholder (rename raw) = assign_new "order_id" (CInt 0) (rename raw)) as Hph.
  { unfold placeholder. by rewrite Habs. }
  set (p1 := length (columns (rename raw))).
  assert (loc "order_id" (placeholder (rename raw)) = Ok p1) as H1.
  { rewrite Hph. by apply loc_assign_new. }
  assert (loc "sale_date" (placeholder (rename raw)) = Ok p2) as H2.
  { rewrite Hph, loc_assign_new_ne; done. }
  assert (loc "amount" (placeholder (rename raw)) = Ok p3) as H3.
  { rewrite Hph, loc_assign_new_ne; done. }
  destruct (coerce_Ok _ _ _ _ H1 H2 H3) as [dfc Hc].
  destruct (coerce_spec _ _ Hc) as (q1 & q2 & q3 & Hq1 & Hq2 & Hq3 & Hcols & Hlen & Hcells).
  assert (q1 = p1) as -> by congruence. assert (q2 = p2) as -> by congruence.
  assert (q3 = p3) as -> by congruence.
  assert (column_at p1 (placeholder (rename raw))
          = replicate (length (rows raw)) (CInt 0)) as Hzeros.
  { rewrite Hph. unfold column_at, assign_new. cbn [rows rename].
    rewrite <- list_fmap_compose. induction (rows raw) as [|r l IH]; [done|].
    rewrite fmap_cons. cbn [length replicate]. rewrite IH. f_equal.
    cbn [compose snd]. apply cell_at_set_cell. }
  assert (to_numeric true (column_at p1 (placeholder (rename raw)))
          = replicate (length (rows raw)) (CInt 0)) as Hnum.
  { rewrite Hzeros. apply to_numeric_ints. by apply Forall_replicate. }
  assert (∀ r, r ∈ rows dfc → cell_at p1 r.2 = CInt 0) as Hzero.
  { intros r [k Hk]%list_elem_of_lookup.
    destruct (Hcells _ _ Hk) as (r0 & _ & _ & Hv1 & _).
    rewrite Hnum in Hv1. apply lookup_replicate in Hv1 as [Hv1 _]. done. }
  assert (dropna required dfc
          = Ok (Frame (columns dfc) (filter (λ r, complete [p1; p2; p3] r = true) (rows dfc))))
    as Hdrop.
  { unfold dropna, required. cbn [locs].
    rewrite !(loc_columns _ _ dfc Hcols), H1, H2, H3. done. }
  eexists _, dfc, p1. split_and!.
  - unfold normalize. rewrite Hc. cbn [rbind]. exact Hdrop.
  - done.
  - unfold loc. cbn [columns]. fold (loc "order_id" dfc).
    by rewrite (loc_columns _ _ dfc Hcols).
  - rewrite Hlen, Hph. unfold assign_new. cbn [rows rename]. apply length_fmap.
  - done.
  - cbn [rows]. apply filter_ext_in. intros r Hr.
    unfold complete. cbn [forallb]. unfold notna at 1. rewrite (Hzero r Hr). done.
Qed.

(** C4.  When the renamed frame has no [order_id] column (and has its date
    and amount columns), normalization succeeds: every row gets the
    identifier 0, and the rows that are dropped are exactly those whose date
    or amount is missing after coercion; none is dropped for its
    identifier. *)
Theorem placeholder_keeps_rows raw p2 p3 :
  has_column "order_id" (rename raw) = false →
  loc "sale_date" (rename raw) = Ok p2 → loc "amount" (rename raw) = Ok p3 →
  ∃ df dfc p1,
    normalize raw = Ok df ∧ coerce (placeholder (rename raw)) = Ok dfc ∧
    loc "order_id" df = Ok p1 ∧
    length (rows dfc) = length (rows raw) ∧
    (∀ r, r ∈ rows dfc → cell_at p1 r.2 = CInt 0) ∧
    rows df = filter (λ r, complete [p2; p3] r = true) (rows dfc).
Proof. apply placeholder_normalize. Qed.

End C4.

Lemma placeholder_keeps_rows_witness :
  ∃ df dfc p1,
    @normalize iso_pandas anonymous_sales = Ok df ∧
    @coerce iso_pandas (placeholder (rename anonymous_sales)) = Ok dfc ∧
    loc "order_id" df = Ok p1 ∧
    length (rows dfc) = length (rows anonymous_sales) ∧
    (∀ r, r ∈ rows dfc → cell_at p1 r.2 = CInt 0) ∧
    rows df = filter (λ r, complete [0%nat; 1%nat] r = true) (rows dfc).
Proof.
  apply (@placeholder_keeps_rows iso_pandas anonymous_sales 0%nat 1%nat); reflexivity.
Defined.

(** ** Amounts that survive the cleaning *)

Section C9.
Context `{Pandas}.

(** C9 (as amended).  The amount of every row of the cleaned frame is a
    number other than NaN, and a record whose amount coerces to NaN is in no
    row of the cleaned frame.  (The infinities are numbers other than NaN:
    they stay.) *)
Theorem surviving_amount_not_nan header records df :
  normalize (read_csv header records) = Ok df →
  (∃ p3, loc "amount" df = Ok p3 ∧
         ∀ r, r ∈ rows df →
              is_number (cell_at p3 r.2) = true ∧ isna (cell_at p3 r.2) = false) ∧
  (∀ r p, r ∈ rows (placeholder (rename (read_csv header records))) →
          loc "amount" (placeholder (rename (read_csv header records))) = Ok p →
          isna (to_numeric_scalar (cell_at p r.2)) = true →
          r.1 ∉ (rows df).*1).
Proof.
  intros Hn. split.
  - destruct (normalize_rows _ _ Hn) as (p1 & p2 & p3 & _ & _ & H3 & Hrows).
    exists p3. split; [done|]. intros r Hr.
    destruct (Hrows r Hr) as (_ & _ & _ & ? & ?). done.
  - intros r p Hr Hp Hna.
    eapply unparsed_row_dropped; [apply indexed_read_csv|done..|].
    destruct (normalize_spec _ _ Hn) as (dfc & _ & _ & _ & Hc & _).
    destruct (coerce_spec _ _ Hc) as (q1 & q2 & q3 & Hq1 & Hq2 & Hq3 & _).
    unfold fails_to_parse. rewrite Hq1, Hq2, Hq3.
    assert (q3 = p) as -> by congruence. rewrite Hna. by rewrite orb_true_r.
Qed.

End C9.

Lemma surviving_amount_not_nan_witness :
  (∃ p3, loc "amount" (cleaned_of infinite_sale) = Ok p3 ∧
         ∀ r, r ∈ rows (cleaned_of infinite_sale) →
              is_number (cell_at p3 r.2) = true ∧ isna (cell_at p3 r.2) = false) ∧
  (∀ r p, r ∈ rows (placeholder (rename infinite_sale)) →
          loc "amount" (placeholder (rename infinite_sale)) = Ok p →
          isna (@to_numeric_scalar iso_pandas (cell_at p r.2)) = true →
          r.1 ∉ (rows (cleaned_of infinite_sale)).*1).
Proof.
  apply (@surviving_amount_not_nan iso_pandas sales_header
           [ [CInt 7; CStr "2024-02-01"; CFloat infinity] ]).
  vm_compute. reflexivity.
Defined.

(** C9, as stated, fails: the sale with the infinite amount survives
    normalization, and the script stores it in the bronze table and sums
    it into the rollup by date. *)
Lemma infinite_amount_survives :
  @normalize iso_pandas infinite_sale
    = Ok (Frame ["order_id"; "sale_date"; "amount"]
                [(0%nat, [CInt 7; CDate (Date 2024 2 1); CFloat infinity])]) ∧
  is_finite infinity = false ∧
  (rows_of "bronze_table" (tables (@script iso_pandas infinite_sale new_world).1)
     !! KInt 7) ≫= (λ row, row !! "amount") = Some (CFloat infinity) ∧
  groupby_sum "sale_date" (cleaned_of infinite_sale)
    = Ok [(CDate (Date 2024 2 1), infinity)].
Proof. vm_compute. repeat split. Qed.

(** ** The region stage *)

Lemma gold3_statements groups :
  Forall2 (λ r q, gold_insert "gold_table3" "region" (rollup_frame "region" groups) r.2 = Ok q)
          (iterrows (rollup_frame "region" groups))
          (gold_statement "gold_table3" "region" <$> iterrows (rollup_frame "region" groups)).
Proof.
  apply Forall2_fmap_r, Forall_Forall2_diag, Forall_forall. intros r _.
  unfold gold_insert. cbn [params].
  change (loc "region" (rollup_frame "region" groups)) with (Ok (A:=nat) 0%nat).
  change (loc "amount" (rollup_frame "region" groups)) with (Ok (A:=nat) 1%nat).
  reflexivity.
Qed.

Lemma groupby_sum_Ok by_ df pk pa :
  loc by_ df = Ok pk → loc "amount" df = Ok pa → ∃ groups, groupby_sum by_ df = Ok groups.
Proof.
  intros Hk Ha. unfold groupby_sum, rollup, key_amounts. rewrite Hk, Ha. cbn [rbind]. eauto.
Qed.

(** C5 (as amended).  The region stage follows the column, not the
    values: without a column labelled [region] the stage only prints that it
    skips (no rollup, no statement); with the column, the rollup by region
    is computed (its groups are the region values present, possibly none)
    and one [INSERT] is sent for each of its groups. *)
Theorem region_stage_follows_column df w :
  (has_column "region" df = false →
     write_gold3 df w
     = (MkWorld (tables w) (faults w) (journal w) (stdout w ++ [skip_line]), Ok tt)) ∧
  (has_column "region" df = true →
   ∀ pr pa, loc "region" df = Ok pr → loc "amount" df = Ok pa →
            uninterrupted (faults w) →
     ∃ groups w',
       groupby_sum "region" df = Ok groups ∧
       write_gold3 df w = (w', Ok tt) ∧
       (sent w w').*1 = gold_statement "gold_table3" "region"
                          <$> iterrows (rollup_frame "region" groups) ∧
       last (stdout w') = Some gold3_done).
Proof.
  split.
  - intros Hno. unfold write_gold3. rewrite Hno. reflexivity.
  - intros Hyes pr pa Hpr Hpa Hfs.
    destruct (groupby_sum_Ok _ _ _ _ Hpr Hpa) as [groups Hg]. exists groups.
    unfold write_gold3. rewrite Hyes. unfold gold3. rewrite Hg. cbn [rbind].
    unfold bind at 1. unfold lift at 1. unfold bind at 1. unfold insert_rows.
    rewrite (for_each_attempt _ _ _ _ _ (gold3_statements groups) Hfs).
    unfold print. cbn [tables faults journal stdout].
    eexists. split_and!; [done|reflexivity|..].
    + unfold sent. cbn [journal]. rewrite drop_app_length. apply trace_statements.
    + cbn [stdout]. by rewrite last_snoc.
Qed.

Lemma region_stage_follows_column_witness :
  (has_column "region" (cleaned_of regionless_sale) = false →
     write_gold3 (cleaned_of regionless_sale) new_world
     = (MkWorld (tables new_world) (faults new_world) (journal new_world)
                (stdout new_world ++ [skip_line]), Ok tt)) ∧
  (has_column "region" (cleaned_of regionless_sale) = true →
   ∀ pr pa, loc "region" (cleaned_of regionless_sale) = Ok pr →
            loc "amount" (cleaned_of regionless_sale) = Ok pa →
            uninterrupted (faults new_world) →
     ∃ groups w',
       groupby_sum "region" (cleaned_of regionless_sale) = Ok groups ∧
       write_gold3 (cleaned_of regionless_sale) new_world = (w', Ok tt) ∧
       (sent new_world w').*1 = gold_statement "gold_table3" "region"
                          <$> iterrows (rollup_frame "region" groups) ∧
       last (stdout w') = Some gold3_done).
Proof. exact (region_stage_follows_column (cleaned_of regionless_sale) new_world). Defined.

(** C5, as stated, fails: no record of [regionless_sale] carries a region
    value, yet the stage is not skipped; it computes the empty rollup and
    prints that the data was inserted. *)
Lemma region_stage_runs_without_values :
  existsb (λ r, notna (cell_at 3 r.2)) (rows (cleaned_of regionless_sale)) = false ∧
  gold3 (cleaned_of regionless_sale) = Ok (Frame ["region"; "amount"] []) ∧
  write_gold3 (cleaned_of regionless_sale) new_world
    = (MkWorld ∅ [] [] [gold3_done], Ok tt).
Proof. vm_compute. repeat split. Qed.

(** ** Provisioning *)

Lemma create_existing name s tbls :
  is_Some (tbls !! name) → create_table_if_not_exists name s tbls = tbls.
Proof. intros [t Ht]. unfold create_table_if_not_exists. by rewrite Ht. Qed.

Lemma create_subseteq name s tbls : tbls ⊆ create_table_if_not_exists name s tbls.
Proof.
  unfold create_table_if_not_exists. destruct (tbls !! name) eqn:E; [done|].
  by apply insert_subseteq.
Qed.

Lemma create_is_Some name s tbls : is_Some (create_table_if_not_exists name s tbls !! name).
Proof.
  unfold create_table_if_not_exists. destruct (tbls !! name) eqn:E; [by rewrite E|].
  rewrite lookup_insert_eq. eauto.
Qed.

Lemma create_all_subseteq l tbls : tbls ⊆ create_all l tbls.
Proof.
  revert tbls. induction l as [|t l IH]; intros tbls; [done|].
  unfold create_all. cbn [foldl]. etransitivity; [apply create_subseteq|apply IH].
Qed.

Lemma create_all_is_Some l tbls t : t ∈ l → is_Some (create_all l tbls !! t.1.1).
Proof.
  revert tbls. induction l as [|t' l IH]; intros tbls; [by intros ?%elem_of_nil|].
  unfold create_all. cbn [foldl]. intros [->|Ht]%elem_of_cons; [|by apply IH].
  destruct (create_is_Some t'.1.1 t'.1.2 tbls) as [x Hx].
  exists x. eapply lookup_weaken; [exact Hx|apply create_all_subseteq].
Qed.

Lemma create_all_existing l tbls :
  (∀ t, t ∈ l → is_Some (tbls !! t.1.1)) → create_all l tbls = tbls.
Proof.
  induction l as [|t l IH]; intros Hall; [done|].
  unfold create_all. cbn [foldl]. rewrite create_existing by (apply Hall; by left).
  apply IH. intros t' Ht'. apply Hall. by right.
Qed.

Lemma provision_quiet t w :
  faults w = [] →
  provision t w
  = (MkWorld (create_table_if_not_exists t.1.1 t.1.2 (tables w)) []
             (journal w ++ [(CreateTableIfNotExists t.1.1 t.1.2, None)])
             (stdout w ++ [Line t.2]), Ok tt).
Proof.
  intros Hfs. unfold provision, bind, execute, answer, print. rewrite Hfs. reflexivity.
Qed.

Lemma for_each_provision_quiet l w :
  faults w = [] →
  ∃ w', for_each l provision w = (w', Ok tt) ∧
        tables w' = create_all l (tables w) ∧ faults w' = [].
Proof.
  revert w. induction l as [|t l IH]; intros w Hfs.
  - exists w. by split_and!.
  - cbn [for_each]. unfold bind at 1. rewrite (provision_quiet _ _ Hfs).
    destruct (IH (MkWorld (create_table_if_not_exists t.1.1 t.1.2 (tables w)) []
                          (journal w ++ [(CreateTableIfNotExists t.1.1 t.1.2, None)])
                          (stdout w ++ [Line t.2]))) as (w' & Hrun & Htb & Hf); [done|].
    exists w'. by split_and!.
Qed.

Lemma provision_tables t w : tables w ⊆ tables (provision t w).1.
Proof.
  unfold provision, bind, execute, print.
  destruct (answer _ (tables w) (faults w)) as [tbls|e] eqn:Ha; cbn [fst tables]; [|done].
  apply answer_Ok in Ha. cbn [run] in Ha. injection Ha as <-. apply create_subseteq.
Qed.

Lemma for_each_provision_tables l w : tables w ⊆ tables (for_each l provision w).1.
Proof.
  revert w. induction l as [|t l IH]; intros w; [done|].
  cbn [for_each]. unfold bind at 1. pose proof (provision_tables t w) as Ht.
  destruct (provision t w) as [w1 [[]|e]]; cbn [fst] in *; [|done].
  etransitivity; [exact Ht|apply IH].
Qed.

(** C7.  Provisioning never changes a table that exists, whatever the
    store answers: every table the keyspace had is there afterwards with the
    same shape and the same rows.  On a store that raises no fault it
    succeeds and leaves the five tables in the keyspace, and a second
    invocation succeeds as well and changes no table at all. *)
Theorem ensure_schemas_idempotent w :
  tables w ⊆ tables (ensure_schemas w).1 ∧
  (faults w = [] →
   ∃ w1 w2,
     ensure_schemas w = (w1, Ok tt) ∧
     (∀ t, t ∈ script_tables → is_Some (tables w1 !! t.1.1)) ∧
     ensure_schemas w1 = (w2, Ok tt) ∧
     tables w2 = tables w1).
Proof.
  split; [apply for_each_provision_tables|]. intros Hfs.
  destruct (for_each_provision_quiet script_tables w Hfs) as (w1 & Hrun1 & Htb1 & Hf1).
  destruct (for_each_provision_quiet script_tables w1 Hf1) as (w2 & Hrun2 & Htb2 & _).
  exists w1, w2. split_and!; [exact Hrun1| |exact Hrun2|].
  - intros t Ht. rewrite Htb1. by apply create_all_is_Some.
  - rewrite Htb2. apply create_all_existing. intros t Ht. rewrite Htb1.
    by apply create_all_is_Some.
Qed.

Lemma ensure_schemas_idempotent_witness :
  tables foreign_world ⊆ tables (ensure_schemas foreign_world).1 ∧
  (faults foreign_world = [] →
   ∃ w1 w2,
     ensure_schemas foreign_world = (w1, Ok tt) ∧
     (∀ t, t ∈ script_tables → is_Some (tables w1 !! t.1.1)) ∧
     ensure_schemas w1 = (w2, Ok tt) ∧
     tables w2 = tables w1).
Proof. exact (ensure_schemas_idempotent foreign_world). Defined.

Lemma cleaned_example raw p1 p2 p3 :
  @normalize iso_pandas raw = Ok (cleaned_of raw) →
  loc "order_id" (cleaned_of raw) = Ok p1 →
  loc "sale_date" (cleaned_of raw) = Ok p2 →
  loc "amount" (cleaned_of raw) = Ok p3 →
  cleaned (cleaned_of raw) p1 p2 p3.
Proof.
  intros Hn H1 H2 H3.
  destruct (@normalize_cleaned iso_pandas _ _ Hn) as (q1 & q2 & q3 & G1 & G2 & G3 & Hrows).
  assert (q1 = p1) as -> by congruence. assert (q2 = p2) as -> by congruence.
  assert (q3 = p3) as -> by congruence. by split_and!.
Qed.

Lemma uninterrupted_nil : uninterrupted [].
Proof. constructor. Qed.

(** ** The bronze stage on a store without faults *)

Lemma write_bronze_quiet df p1 p2 p3 w :
  cleaned df p1 p2 p3 →
  has_schema "bronze_table" bronze_schema (tables w) →
  faults w = [] →
  ∃ w', write_bronze df w = (w', Ok tt) ∧
    tables w' = <["bronze_table" :=
                    Table bronze_schema
                      (foldl bronze_upsert (rows_of "bronze_table" (tables w))
                             (record_at p1 p2 p3 <$> rows df))]> (tables w) ∧
    faults w' = [].
Proof.
  intros Hc Hs Hfs. unfold write_bronze, bind.
  rewrite (insert_rows_cleaned _ _ bronze_statement df p1 p2 p3 w
             (bronze_statements df p1 p2 p3 Hc)) by (rewrite Hfs; apply uninterrupted_nil).
  unfold print. cbn [tables faults journal stdout]. eexists. split; [reflexivity|].
  cbn [tables faults]. rewrite Hfs, replay_trace_nil, drop_nil.
  split; [|done]. by apply run_all_bronze.
Qed.

Lemma bronze_row_lookups c1 c2 c3 old :
  (bronze_row c1 c2 c3 ∪ old) !! "order_id" = Some c1 ∧
  (bronze_row c1 c2 c3 ∪ old) !! "sale_date" = Some c2 ∧
  (bronze_row c1 c2 c3 ∪ old) !! "amount" = Some c3.
Proof.
  unfold bronze_row. split_and!; apply lookup_union_Some_l.
  - by rewrite lookup_insert_eq.
  - rewrite lookup_insert_ne by done. by rewrite lookup_insert_eq.
  - rewrite !lookup_insert_ne by done. by rewrite lookup_insert_eq.
Qed.

Lemma bronze_upsert_other rws c k :
  int_key c.1.1 ≠ Some k → bronze_upsert rws c !! k = rws !! k.
Proof.
  intros Hk. unfold bronze_upsert. destruct (int_key c.1.1) as [k'|]; [|done].
  rewrite lookup_insert_ne; [done|congruence].
Qed.

Lemma foldl_bronze_upsert_other rws cs k :
  (∀ c, c ∈ cs → int_key c.1.1 ≠ Some k) →
  foldl bronze_upsert rws cs !! k = rws !! k.
Proof.
  revert rws. induction cs as [|c cs IH]; intros rws Hcs; [done|].
  cbn [foldl]. rewrite IH by (intros c' Hc'; apply Hcs; by right).
  apply bronze_upsert_other, Hcs. by left.
Qed.

(** The row of a key holds the fields of the last record with that key. *)
Lemma foldl_bronze_upsert_last rws l1 c l2 k :
  int_key c.1.1 = Some k →
  (∀ c', c' ∈ l2 → int_key c'.1.1 ≠ Some k) →
  ∃ row, foldl bronze_upsert rws (l1 ++ c :: l2) !! k = Some row ∧
         row !! "order_id" = Some c.1.1 ∧ row !! "sale_date" = Some c.1.2 ∧
         row !! "amount" = Some c.2.
Proof.
  intros Hk Hl2. rewrite foldl_app. cbn [foldl].
  rewrite (foldl_bronze_upsert_other _ l2 k Hl2).
  unfold bronze_upsert at 1. rewrite Hk, lookup_insert_eq.
  eexists. split; [done|]. apply bronze_row_lookups.
Qed.

Lemma dom_bronze_upsert rws c :
  dom (bronze_upsert rws c)
  = dom rws ∪ (match int_key c.1.1 with Some k => {[k]} | None => ∅ end).
Proof.
  unfold bronze_upsert. destruct (int_key c.1.1) as [k|].
  - rewrite dom_insert_L. set_solver.
  - set_solver.
Qed.

Lemma omap_cons_key {X} (f : X → option pkey) x l :
  (list_to_set (omap f (x :: l)) : gset pkey)
  = (match f x with Some k => {[k]} | None => ∅ end) ∪ list_to_set (omap f l).
Proof.
  change (omap f (x :: l))
    with (match f x with Some y => y :: omap f l | None => omap f l end).
  destruct (f x) as [k|].
  - reflexivity.
  - by rewrite (left_id_L ∅ (∪)).
Qed.

Lemma dom_foldl_bronze_upsert rws cs :
  dom (foldl bronze_upsert rws cs)
  = dom rws ∪ list_to_set (omap (λ c, int_key c.1.1) cs).
Proof.
  revert rws. induction cs as [|c cs IH]; intros rws.
  - cbn [foldl].
    change (list_to_set (omap (λ c : cell * cell * cell, int_key c.1.1) []))
      with (∅ : gset pkey).
    by rewrite (right_id_L ∅ (∪)).
  - cbn [foldl]. rewrite IH, dom_bronze_upsert, omap_cons_key.
    by rewrite (assoc_L (∪)).
Qed.



(** ** The silver stage on a store without faults *)


Lemma silver_append_subseteq rws c : rws ⊆ silver_append rws c.
Proof. unfold silver_append. apply insert_subseteq, fresh_uuid_None. Qed.

Lemma foldl_silver_append_spec rws cs :
  length (silver_keys rws cs) = length cs ∧
  NoDup (silver_keys rws cs) ∧
  rws ⊆ foldl silver_append rws cs ∧
  size (foldl silver_append rws cs) = (size rws + length cs)%nat ∧
  ∀ i k c, silver_keys rws cs !! i = Some k → cs !! i = Some c →
    (∃ u, k = KUuid u) ∧ rws !! k = None ∧
    foldl silver_append rws cs !! k = Some (bronze_row c.1.1 c.1.2 c.2).
Proof.
  revert rws. induction cs as [|c cs IH]; intros rws.
  - cbn [silver_keys foldl length]. split_and!; [done|constructor|done|lia|].
    intros i k c Hk. by rewrite lookup_nil in Hk.
  - cbn [silver_keys foldl length].
    destruct (IH (silver_append rws c)) as (Hlen & Hnd & Hsub & Hsize & Hkeys).
    pose proof (fresh_uuid_None rws) as Hfresh.
    assert (silver_append rws c !! fresh_uuid rws = Some (bronze_row c.1.1 c.1.2 c.2))
      as Hnew by (unfold silver_append; apply lookup_insert_eq).
    split_and!.
    + by rewrite Hlen.
    + constructor; [|done]. intros [i Hi]%list_elem_of_lookup.
      assert (is_Some (cs !! i)) as [c' Hc'].
      { apply lookup_lt_is_Some. rewrite <- Hlen. by eapply lookup_lt_Some. }
      destruct (Hkeys i _ c' Hi Hc') as (_ & Hnone & _). congruence.
    + etransitivity; [apply silver_append_subseteq|exact Hsub].
    + rewrite Hsize. unfold silver_append. rewrite map_size_insert_None by done. lia.
    + intros [|i] k c'; cbn [lookup list_lookup].
      * intros [= <-] [= <-]. split_and!; [by eexists|done|].
        eapply lookup_weaken; [exact Hnew|exact Hsub].
      * intros Hk Hc'. destruct (Hkeys i k c' Hk Hc') as (Hu & Hnone & Hrow).
        split_and!; [done| |done].
        unfold silver_append in Hnone. by apply lookup_insert_None in Hnone as [? _].
Qed.



(** ** The bronze stage without identifiers *)

Lemma then_print_tables (m : M unit) l w :
  tables ((m >> print l) w).1 = tables (m w).1.
Proof. unfold bind, print. by destruct (m w) as [w1 [[]|e]]. Qed.

Lemma size_single_key (m : gmap pkey (gmap string cell)) k0 :
  (∀ k, k ≠ k0 → m !! k = None) → (size m ≤ 1)%nat.
Proof.
  intros Hm. rewrite <- size_dom.
  assert (dom m ⊆ ({[k0]} : gset pkey)) as Hsub.
  { intros k [x Hk]%elem_of_dom. apply elem_of_singleton.
    destruct (decide (k = k0)) as [|Hne]; [done|]. rewrite (Hm k Hne) in Hk. done. }
  apply subseteq_size in Hsub. by rewrite size_singleton in Hsub.
Qed.

Section C10.
Context `{Pandas}.

(** Without an [order_id] column every row of the cleaned frame has the
    identifier 0. *)
Lemma placeholder_zero raw df p1 r :
  has_column "order_id" (rename raw) = false → normalize raw = Ok df →
  loc "order_id" df = Ok p1 → r ∈ rows df → cell_at p1 r.2 = CInt 0.
Proof.
  intros Habs Hn Hp1 Hr.
  destruct (normalize_spec _ _ Hn) as (dfc & q1 & q2 & q3 & Hc & _).
  destruct (coerce_spec _ _ Hc) as (s1 & s2 & s3 & _ & Hs2 & Hs3 & _).
  assert (placeholder (rename raw) = assign_new "order_id" (CInt 0) (rename raw)) as Hph.
  { unfold placeholder. by rewrite Habs. }
  rewrite Hph, loc_assign_new_ne in Hs2 by done.
  rewrite Hph, loc_assign_new_ne in Hs3 by done.
  destruct (placeholder_normalize raw s2 s3 Habs Hs2 Hs3)
    as (df' & dfc' & p1' & Hn' & _ & Hp1' & _ & Hzero & Hrows).
  assert (df' = df) as -> by congruence. assert (p1' = p1) as -> by congruence.
  apply Hzero. rewrite Hrows in Hr. by apply list_elem_of_filter in Hr as [_ ?].
Qed.

(** C10 (as amended).  Without an [order_id] column the bronze stage
    writes under the key 0 only: whatever the store answers, the rows under
    the other keys are as they were, so a bronze table that was empty has at
    most one row afterwards; and on a store that raises no fault the row
    under 0 holds the date and the amount of the last row of the cleaned
    frame. *)
Theorem placeholder_bronze_single_key raw df w :
  has_column "order_id" (rename raw) = false →
  normalize raw = Ok df →
  has_schema "bronze_table" bronze_schema (tables w) →
  (∀ k, k ≠ KInt 0 →
        rows_of "bronze_table" (tables (write_bronze df w).1) !! k
        = rows_of "bronze_table" (tables w) !! k) ∧
  (rows_of "bronze_table" (tables w) = ∅ →
   (size (rows_of "bronze_table" (tables (write_bronze df w).1)) ≤ 1)%nat) ∧
  (faults w = [] →
   ∀ p2 p3 r, loc "sale_date" df = Ok p2 → loc "amount" df = Ok p3 →
     last (rows df) = Some r →
     ∃ row, rows_of "bronze_table" (tables (write_bronze df w).1) !! KInt 0 = Some row ∧
            row !! "order_id" = Some (CInt 0) ∧
            row !! "sale_date" = Some (cell_at p2 r.2) ∧
            row !! "amount" = Some (cell_at p3 r.2)).
Proof.
  intros Habs Hn Hs.
  destruct (normalize_cleaned _ _ Hn) as (p1 & p2 & p3 & Hc).
  pose proof Hc as (H1 & H2 & H3 & _).
  assert (∀ k, k ≠ KInt 0 →
            rows_of "bronze_table" (tables (write_bronze df w).1) !! k
            = rows_of "bronze_table" (tables w) !! k) as Hothers.
  { unfold write_bronze. rewrite then_print_tables. unfold insert_rows.
    pose proof (for_each_tables_invariant
      (λ t, has_schema "bronze_table" bronze_schema t ∧
            ∀ k, k ≠ KInt 0 →
                 rows_of "bronze_table" t !! k = rows_of "bronze_table" (tables w) !! k)
      "Bronze Table" (bronze_insert df) (iterrows df) w) as Hinv.
    apply Hinv; [|by split]. clear Hinv.
    intros r' q t t' Hr' Hq [Hst Ht] Hrun.
    apply iterrows_elem in Hr' as (r & Hr & ->).
    pose proof (bronze_statements df p1 p2 p3 Hc) as Hall. unfold iterrows in Hall.
    rewrite <- list_fmap_compose in Hall.
    pose proof (Forall2_fmap_r_elem _ _ _ _ _ Hall Hr) as Hst'. cbn [snd compose] in *.
    assert (q = bronze_statement (record_at p1 p2 p3 r)) as -> by congruence.
    unfold bronze_statement in Hrun. rewrite (run_bronze_insert _ _ _ _ Hst) in Hrun.
    unfold record_at in Hrun. cbn [fst snd] in Hrun.
    rewrite (placeholder_zero raw df p1 r Habs Hn H1 Hr) in Hrun.
    change (int_key (CInt 0)) with (Some (KInt 0)) in Hrun. injection Hrun as <-.
    split; [apply (has_schema_insert "bronze_table" (Table bronze_schema _))|].
    intros k Hk. rewrite rows_of_insert. cbn [table_rows].
    rewrite bronze_upsert_other; [by apply Ht|]. cbn [fst]. 
    change (int_key (CInt 0)) with (Some (KInt 0)). congruence. }
  split_and!; [exact Hothers| |].
  - intros Hempty. apply (size_single_key _ (KInt 0)). intros k Hk.
    rewrite (Hothers k Hk), Hempty. apply lookup_empty.
  - intros Hfs q2 q3 r Hq2 Hq3 Hlast.
    assert (q2 = p2) as -> by congruence. assert (q3 = p3) as -> by congruence.
    destruct (write_bronze_quiet df p1 p2 p3 w Hc Hs Hfs) as (w' & Hrun & Htb & _).
    rewrite Hrun. cbn [fst]. rewrite Htb, rows_of_insert. cbn [table_rows].
    apply last_Some in Hlast as [l1 Hl1]. rewrite Hl1, fmap_app. cbn [fmap list_fmap].
    destruct (foldl_bronze_upsert_last (rows_of "bronze_table" (tables w))
                (record_at p1 p2 p3 <$> l1) (record_at p1 p2 p3 r) [] (KInt 0))
      as (row & Hrow & Ho & Hd & Ha).
    { unfold record_at. cbn [fst].
      rewrite (placeholder_zero raw df p1 r Habs Hn H1); [done|].
      rewrite Hl1. apply elem_of_app. right. by left. }
    { intros c' Hc'. by apply elem_of_nil in Hc'. }
    exists row. split_and!; [done| |done|done].
    rewrite Ho. unfold record_at. cbn [fst]. f_equal.
    apply (placeholder_zero raw df p1 r Habs Hn H1).
    rewrite Hl1. apply elem_of_app. right. by left.
Qed.

End C10.

Lemma placeholder_bronze_single_key_witness :
  (∀ k, k ≠ KInt 0 →
        rows_of "bronze_table" (tables (write_bronze (cleaned_of anonymous_sales) provisioned).1) !! k
        = rows_of "bronze_table" (tables provisioned) !! k) ∧
  (rows_of "bronze_table" (tables provisioned) = ∅ →
   (size (rows_of "bronze_table"
            (tables (write_bronze (cleaned_of anonymous_sales) provisioned).1)) ≤ 1)%nat) ∧
  (faults provisioned = [] →
   ∀ p2 p3 r, loc "sale_date" (cleaned_of anonymous_sales) = Ok p2 →
     loc "amount" (cleaned_of anonymous_sales) = Ok p3 →
     last (rows (cleaned_of anonymous_sales)) = Some r →
     ∃ row, rows_of "bronze_table"
              (tables (write_bronze (cleaned_of anonymous_sales) provisioned).1) !! KInt 0
            = Some row ∧
            row !! "order_id" = Some (CInt 0) ∧
            row !! "sale_date" = Some (cell_at p2 r.2) ∧
            row !! "amount" = Some (cell_at p3 r.2)).
Proof.
  apply (@placeholder_bronze_single_key iso_pandas anonymous_sales
           (cleaned_of anonymous_sales) provisioned); reflexivity.
Defined.

(** C10, as stated, fails: after a run on a file with order ids 1 and 2, a
    run on a file without identifiers leaves three rows in the bronze
    table. *)
Lemma placeholder_bronze_keeps_earlier_rows :
  has_column "order_id" (rename anonymous_sales) = false ∧
  size (rows_of "bronze_table" (tables after_whole_sales)) = 2%nat ∧
  size (rows_of "bronze_table"
          (tables (@script iso_pandas anonymous_sales after_whole_sales).1)) = 3%nat.
Proof. vm_compute. repeat split. Qed.

(** ** One refused write *)

Lemma replay_accepted J tbls : replay J tbls = run_all (accepted J) tbls.
Proof.
  revert tbls. induction J as [|[q [e|]] J IH]; intros tbls; [done|..].
  - unfold replay. cbn [foldl fst snd]. apply IH.
  - unfold replay. cbn [foldl fst snd].
    change (accepted ((q, None) :: J)) with (q :: accepted J).
    rewrite run_all_cons. apply IH.
Qed.

Lemma one_failure_tail j0 J i e :
  one_failure (j0 :: J) (S i) e → j0.2 = None ∧ one_failure J i e.
Proof.
  intros [[q Hq] Hothers]. split.
  - destruct j0 as [q0 o0]. apply (Hothers 0%nat q0 o0); [lia|done].
  - split; [by exists q|]. intros j q' o Hj. apply (Hothers (S j)). lia.
Qed.

Lemma one_failure_head j0 J e :
  one_failure (j0 :: J) 0 e → j0.2 = Some e ∧ Forall (λ j, j.2 = None) J.
Proof.
  intros [[q Hq] Hothers]. injection Hq as ->. split; [done|].
  apply Forall_lookup. intros j [q' o] Hj. apply (Hothers (S j) q' o); [lia|done].
Qed.

Lemma accepted_all J : Forall (λ j, j.2 = None) J → accepted J = J.*1.
Proof.
  induction 1 as [|[q o] J Ho _ IH]; [done|]. cbn [snd] in Ho. subst o.
  change (accepted ((q, None) :: J)) with (q :: accepted J). by rewrite IH.
Qed.

Lemma accepted_one_failure J i e : one_failure J i e → accepted J = delete i J.*1.
Proof.
  revert i. induction J as [|[q o] J IH]; intros i HJ.
  - destruct HJ as [[q Hq] _]. by rewrite lookup_nil in Hq.
  - destruct i as [|i].
    + apply one_failure_head in HJ as [Ho Hall]. cbn [snd] in Ho. subst o.
      change (accepted ((q, Some e) :: J)) with (accepted J). by rewrite accepted_all.
    + apply one_failure_tail in HJ as [Ho HJ]. cbn [snd] in Ho. subst o.
      change (accepted ((q, None) :: J)) with (q :: accepted J).
      rewrite (IH i HJ). done.
Qed.

Lemma errors_all_accepted title rws J :
  Forall (λ j, j.2 = None) J → errors title rws J = [].
Proof.
  intros HJ. revert rws. induction HJ as [|[q o] J Ho _ IH]; intros [|r rws]; try done.
  cbn [snd] in Ho. subst o. unfold errors. cbn [zip zip_with]. 
  change (omap ?f ((r, (q, None)) :: ?l)) with (omap f l). apply IH.
Qed.

Lemma errors_one_failure title rws J i e r :
  one_failure J i e → rws !! i = Some r →
  errors title rws J = [InsertError title r.1 e].
Proof.
  revert rws i. induction J as [|[q o] J IH]; intros rws i HJ Hr.
  - destruct HJ as [[q Hq] _]. by rewrite lookup_nil in Hq.
  - destruct rws as [|r0 rws]; [by rewrite lookup_nil in Hr|]. destruct i as [|i].
    + apply one_failure_head in HJ as [Ho Hall]. cbn [snd] in Ho. subst o.
      injection Hr as ->. unfold errors. cbn [zip zip_with].
      change (omap ?f ((r, (q, Some e)) :: ?l)) with (InsertError title r.1 e :: omap f l).
      f_equal. by apply (errors_all_accepted title rws J).
    + apply one_failure_tail in HJ as [Ho HJ]. cbn [snd] in Ho. subst o.
      unfold errors. cbn [zip zip_with].
      change (omap ?f ((r0, (q, None)) :: ?l)) with (omap f l).
      by apply (IH rws i).
Qed.

(** An accepted statement ran, on tables that keep what the statements of
    the loop keep. *)
Lemma trace_accepted_ran (P : gmap string table → Prop) qs tbls fs j q :
  (∀ q t t', q ∈ qs → P t → run q t = Ok t' → P t') →
  P tbls → trace qs tbls fs !! j = Some (q, None) →
  ∃ t t', P t ∧ run q t = Ok t'.
Proof.
  revert tbls fs j. induction qs as [|q0 qs IH]; intros tbls fs j Hstep HP.
  - cbn [trace]. by rewrite lookup_nil.
  - rewrite trace_cons. destruct (answer q0 tbls fs) as [tbls'|e] eqn:Ha.
    + destruct j as [|j]; cbn [lookup list_lookup].
      * intros [= <-]. apply answer_Ok in Ha. eauto.
      * apply IH.
        -- intros q' t t' Hq'. apply Hstep. by right.
        -- apply answer_Ok in Ha. eapply Hstep; [by left|done..].
    + destruct j as [|j]; cbn [lookup list_lookup]; [done|].
      apply IH; [|done]. intros q' t t' Hq'. apply Hstep. by right.
Qed.

Lemma run_bronze_keeps_schema c t t' :
  has_schema "bronze_table" bronze_schema t →
  run (bronze_statement c) t = Ok t' →
  has_schema "bronze_table" bronze_schema t' ∧ is_Some (int_key c.1.1).
Proof.
  intros Hs. unfold bronze_statement. rewrite (run_bronze_insert _ _ _ _ Hs).
  destruct (int_key c.1.1) as [k|]; [|done]. intros [= <-].
  split; [apply (has_schema_insert "bronze_table" (Table bronze_schema _))|eauto].
Qed.

Lemma lookup_delete_elem {X} (l : list X) i j x :
  j ≠ i → l !! j = Some x → ∃ j', delete i l !! j' = Some x.
Proof.
  intros Hne Hj. destruct (decide (j < i)%nat).
  - exists j. by rewrite list_lookup_delete_lt.
  - exists (j - 1)%nat. rewrite list_lookup_delete_ge by lia.
    by replace (S (j - 1)) with j by lia.
Qed.

(** What a write stage does when one write is refused. *)
Lemma stage_one_failure title stmt mk df p1 p2 p3 w i e :
  Forall2 (λ r q, stmt r.2 = Ok q) (iterrows df) (mk <$> (record_at p1 p2 p3 <$> rows df)) →
  uninterrupted (faults w) →
  one_failure (sent w (insert_rows title stmt df w).1) i e →
  ∃ r, rows df !! i = Some r ∧
    (insert_rows title stmt df w).2 = Ok tt ∧
    (sent w (insert_rows title stmt df w).1).*1 = mk <$> (record_at p1 p2 p3 <$> rows df) ∧
    stdout (insert_rows title stmt df w).1 = stdout w ++ [InsertError title r.1 e] ∧
    tables (insert_rows title stmt df w).1
    = run_all (mk <$> delete i (record_at p1 p2 p3 <$> rows df)) (tables w).
Proof.
  intros Hqs Hfs. rewrite (insert_rows_cleaned _ _ _ _ _ _ _ _ Hqs Hfs).
  cbn [fst snd tables journal stdout]. unfold sent. cbn [journal].
  rewrite drop_app_length. intros HJ.
  assert (is_Some (rows df !! i)) as [r Hr].
  { apply lookup_lt_is_Some. destruct HJ as [[q Hq] _]. apply lookup_lt_Some in Hq.
    by rewrite length_trace, !length_fmap in Hq. }
  exists r. split_and!; [done|done|apply trace_statements| |].
  - f_equal. apply (errors_one_failure _ _ _ i e (r.1, series df r.2) HJ).
    unfold iterrows. by rewrite list_lookup_fmap, Hr.
  - rewrite replay_accepted, (accepted_one_failure _ i e HJ), trace_statements.
    by rewrite list_fmap_delete.
Qed.

Lemma then_print_Ok (m : M unit) l w :
  (m w).2 = Ok tt →
  (m >> print l) w
  = (MkWorld (tables (m w).1) (faults (m w).1) (journal (m w).1) (stdout (m w).1 ++ [l]),
     Ok tt).
Proof. unfold bind, print. destruct (m w) as [w1 [[]|e]]; [done|done]. Qed.

Lemma sent_insert_rows title stmt mk df p1 p2 p3 w :
  Forall2 (λ r q, stmt r.2 = Ok q) (iterrows df) (mk <$> (record_at p1 p2 p3 <$> rows df)) →
  uninterrupted (faults w) →
  sent w (insert_rows title stmt df w).1
  = trace (mk <$> (record_at p1 p2 p3 <$> rows df)) (tables w) (faults w).
Proof.
  intros Hqs Hfs. rewrite (insert_rows_cleaned _ _ _ _ _ _ _ _ Hqs Hfs).
  unfold sent. cbn [fst journal]. by rewrite drop_app_length.
Qed.

Lemma bronze_one_failure df p1 p2 p3 w i e :
  cleaned df p1 p2 p3 → uninterrupted (faults w) →
  has_schema "bronze_table" bronze_schema (tables w) →
  one_failure (sent w (write_bronze df w).1) i e →
  ∃ r, rows df !! i = Some r ∧
    (write_bronze df w).2 = Ok tt ∧
    length (sent w (write_bronze df w).1) = length (rows df) ∧
    stdout (write_bronze df w).1
    = stdout w ++ [InsertError "Bronze Table" r.1 e; bronze_done] ∧
    tables (write_bronze df w).1
    = run_all (bronze_statement <$> delete i (record_at p1 p2 p3 <$> rows df)) (tables w) ∧
    ∀ j r', j ≠ i → rows df !! j = Some r' →
      ∃ k, int_key (cell_at p1 r'.2) = Some k ∧
           is_Some (rows_of "bronze_table" (tables (write_bronze df w).1) !! k).
Proof.
  intros Hc Hfs Hs. pose proof (bronze_statements df p1 p2 p3 Hc) as Hqs.
  unfold write_bronze at 1. unfold sent. rewrite then_print_journal.
  fold (sent w (insert_rows "Bronze Table" (bronze_insert df) df w).1). intros HJ.
  destruct (stage_one_failure _ _ _ _ _ _ _ _ _ _ Hqs Hfs HJ)
    as (r & Hr & Hres & Hsent & Hout & Htb).
  pose proof (sent_insert_rows "Bronze Table" _ _ _ _ _ _ _ Hqs Hfs) as Htrace.
  exists r. unfold write_bronze. rewrite (then_print_Ok _ _ _ Hres).
  cbn [fst snd stdout tables journal]. unfold sent. cbn [journal].
  fold (sent w (insert_rows "Bronze Table" (bronze_insert df) df w).1).
  split_and!; [done|done| | |done|].
  - rewrite <- (length_fmap fst), Hsent. by rewrite !length_fmap.
  - rewrite Hout, <- app_assoc. done.
  - intros j r' Hne Hr'.
    assert (sent w (insert_rows "Bronze Table" (bronze_insert df) df w).1 !! j
            = Some (bronze_statement (record_at p1 p2 p3 r'), None)) as Hj.
    { assert (is_Some (sent w (insert_rows "Bronze Table" (bronze_insert df) df w).1 !! j))
        as [[q o] Hqo].
      { apply lookup_lt_is_Some. rewrite <- (length_fmap fst), Hsent, !length_fmap.
        by eapply lookup_lt_Some. }
      assert (q = bronze_statement (record_at p1 p2 p3 r')) as ->.
      { assert ((sent w (insert_rows "Bronze Table" (bronze_insert df) df w).1).*1 !! j
                = Some q) as Hq by (by rewrite list_lookup_fmap, Hqo).
        rewrite Hsent, !list_lookup_fmap, Hr' in Hq. by injection Hq. }
      destruct HJ as [_ Hothers]. by rewrite (Hothers j _ o Hne Hqo) in Hqo. }
    rewrite Htrace in Hj.
    assert (∀ q t t',
              q ∈ bronze_statement <$> (record_at p1 p2 p3 <$> rows df) →
              has_schema "bronze_table" bronze_schema t → run q t = Ok t' →
              has_schema "bronze_table" bronze_schema t') as Hkeep.
    { intros q t t' Hq Ht Hrun. apply list_elem_of_fmap in Hq as (c & -> & _).
      by apply (run_bronze_keeps_schema c t t'). }
    destruct (trace_accepted_ran (has_schema "bronze_table" bronze_schema) _ _ _ _ _
                Hkeep Hs Hj) as (t & t' & Ht & Hrun).
    apply run_bronze_keeps_schema in Hrun as [_ [k Hk]]; [|done].
    exists k. split; [done|]. rewrite Htb, (run_all_bronze _ _ Hs), rows_of_insert.
    cbn [table_rows]. apply elem_of_dom. rewrite dom_foldl_bronze_upsert.
    apply elem_of_union_r, elem_of_list_to_set, list_elem_of_omap.
    destruct (lookup_delete_elem (record_at p1 p2 p3 <$> rows df) i j
                (record_at p1 p2 p3 r') Hne) as [j' Hj'].
    { by rewrite list_lookup_fmap, Hr'. }
    exists (record_at p1 p2 p3 r'). split; [by eapply list_elem_of_lookup_2|done].
Qed.

Lemma silver_one_failure df p1 p2 p3 w i e :
  cleaned df p1 p2 p3 → uninterrupted (faults w) →
  has_schema "silver_table" silver_schema (tables w) →
  one_failure (sent w (write_silver df w).1) i e →
  ∃ r, rows df !! i = Some r ∧
    (write_silver df w).2 = Ok tt ∧
    length (sent w (write_silver df w).1) = length (rows df) ∧
    stdout (write_silver df w).1
    = stdout w ++ [InsertError "Silver Table" r.1 e; silver_done] ∧
    tables (write_silver df w).1
    = run_all (silver_statement <$> delete i (record_at p1 p2 p3 <$> rows df)) (tables w) ∧
    rows_of "silver_table" (tables w) ⊆ rows_of "silver_table" (tables (write_silver df w).1) ∧
    size (rows_of "silver_table" (tables (write_silver df w).1))
    = (size (rows_of "silver_table" (tables w)) + (length (rows df) - 1))%nat ∧
    ∀ j r', j ≠ i → rows df !! j = Some r' →
      ∃ k, rows_of "silver_table" (tables w) !! k = None ∧
           rows_of "silver_table" (tables (write_silver df w).1) !! k
           = Some (bronze_row (cell_at p1 r'.2) (cell_at p2 r'.2) (cell_at p3 r'.2)).
Proof.
  intros Hc Hfs Hs. pose proof (silver_statements df p1 p2 p3 Hc) as Hqs.
  unfold write_silver at 1. unfold sent. rewrite then_print_journal.
  fold (sent w (insert_rows "Silver Table" (silver_insert df) df w).1). intros HJ.
  destruct (stage_one_failure _ _ _ _ _ _ _ _ _ _ Hqs Hfs HJ)
    as (r & Hr & Hres & Hsent & Hout & Htb).
  exists r. unfold write_silver. rewrite (then_print_Ok _ _ _ Hres).
  cbn [fst snd stdout tables journal]. unfold sent. cbn [journal].
  fold (sent w (insert_rows "Silver Table" (silver_insert df) df w).1).
  destruct (foldl_silver_append_spec (rows_of "silver_table" (tables w))
              (delete i (record_at p1 p2 p3 <$> rows df)))
    as (Hlen & _ & Hsub & Hsize & Hkeys).
  rewrite Htb, (run_all_silver _ _ Hs), rows_of_insert. cbn [table_rows].
  split_and!; [done|done| | |done|done| |].
  - rewrite <- (length_fmap fst), Hsent. by rewrite !length_fmap.
  - rewrite Hout, <- app_assoc. done.
  - rewrite Hsize, length_delete, length_fmap by (by rewrite list_lookup_fmap, Hr). done.
  - intros j r' Hne Hr'.
    destruct (lookup_delete_elem (record_at p1 p2 p3 <$> rows df) i j
                (record_at p1 p2 p3 r') Hne) as [j' Hj'].
    { by rewrite list_lookup_fmap, Hr'. }
    assert (is_Some (silver_keys (rows_of "silver_table" (tables w))
                       (delete i (record_at p1 p2 p3 <$> rows df)) !! j')) as [k Hk].
    { apply lookup_lt_is_Some. rewrite Hlen. by eapply lookup_lt_Some. }
    destruct (Hkeys j' k _ Hk Hj') as (_ & Hnone & Hrow). by exists k.
Qed.

(** C6 (as amended).  On a cleaned frame and a store that raises no
    [KeyboardInterrupt], when exactly one write of the bronze stage, or of
    the silver stage, is refused: the stage returns normally, it has sent a
    statement for every row, it prints one line for the refused row and
    then its closing line, and the tables are the ones the other writes
    make, in order.  In silver every other row has a row of its own under
    a new key, and the table grows by one row less than the frame has; in
    bronze the key of every other row is in the table. *)
Theorem write_fault_isolation df p1 p2 p3 w :
  cleaned df p1 p2 p3 → uninterrupted (faults w) →
  (∀ i e,
     has_schema "bronze_table" bronze_schema (tables w) →
     one_failure (sent w (write_bronze df w).1) i e →
     ∃ r, rows df !! i = Some r ∧
       (write_bronze df w).2 = Ok tt ∧
       length (sent w (write_bronze df w).1) = length (rows df) ∧
       stdout (write_bronze df w).1
       = stdout w ++ [InsertError "Bronze Table" r.1 e; bronze_done] ∧
       tables (write_bronze df w).1
       = run_all (bronze_statement <$> delete i (record_at p1 p2 p3 <$> rows df))
                 (tables w) ∧
       ∀ j r', j ≠ i → rows df !! j = Some r' →
         ∃ k, int_key (cell_at p1 r'.2) = Some k ∧
              is_Some (rows_of "bronze_table" (tables (write_bronze df w).1) !! k)) ∧
  (∀ i e,
     has_schema "silver_table" silver_schema (tables w) →
     one_failure (sent w (write_silver df w).1) i e →
     ∃ r, rows df !! i = Some r ∧
       (write_silver df w).2 = Ok tt ∧
       length (sent w (write_silver df w).1) = length (rows df) ∧
       stdout (write_silver df w).1
       = stdout w ++ [InsertError "Silver Table" r.1 e; silver_done] ∧
       tables (write_silver df w).1
       = run_all (silver_statement <$> delete i (record_at p1 p2 p3 <$> rows df))
                 (tables w) ∧
       rows_of "silver_table" (tables w)
         ⊆ rows_of "silver_table" (tables (write_silver df w).1) ∧
       size (rows_of "silver_table" (tables (write_silver df w).1))
       = (size (rows_of "silver_table" (tables w)) + (length (rows df) - 1))%nat ∧
       ∀ j r', j ≠ i → rows df !! j = Some r' →
         ∃ k, rows_of "silver_table" (tables w) !! k = None ∧
              rows_of "silver_table" (tables (write_silver df w).1) !! k
              = Some (bronze_row (cell_at p1 r'.2) (cell_at p2 r'.2) (cell_at p3 r'.2))).
Proof.
  intros Hc Hfs. split.
  - intros i e. by apply bronze_one_failure.
  - intros i e. by apply silver_one_failure.
Qed.

Lemma one_failure_second q0 q1 q2 e :
  one_failure [(q0, None); (q1, Some e); (q2, None)] 1 e.
Proof.
  split; [by exists q1|]. intros [|[|[|j]]] q o Hne Hj; try done.
  - by injection Hj as _ <-.
  - by injection Hj as _ <-.
Qed.

Lemma write_fault_isolation_witness :
  (∃ r, rows (cleaned_of whole_sales) !! 1%nat = Some r ∧
     (write_bronze (cleaned_of whole_sales) flaky).2 = Ok tt ∧
     length (sent flaky (write_bronze (cleaned_of whole_sales) flaky).1)
     = length (rows (cleaned_of whole_sales)) ∧
     stdout (write_bronze (cleaned_of whole_sales) flaky).1
     = stdout flaky
       ++ [InsertError "Bronze Table" r.1 (DriverError "write timeout"); bronze_done] ∧
     tables (write_bronze (cleaned_of whole_sales) flaky).1
     = run_all (bronze_statement
                  <$> delete 1%nat (record_at 0 1 2 <$> rows (cleaned_of whole_sales)))
               (tables flaky) ∧
     ∀ j r', j ≠ 1%nat → rows (cleaned_of whole_sales) !! j = Some r' →
       ∃ k, int_key (cell_at 0 r'.2) = Some k ∧
            is_Some (rows_of "bronze_table"
                       (tables (write_bronze (cleaned_of whole_sales) flaky).1) !! k)) ∧
  (∃ r, rows (cleaned_of whole_sales) !! 1%nat = Some r ∧
     (write_silver (cleaned_of whole_sales) flaky).2 = Ok tt ∧
     length (sent flaky (write_silver (cleaned_of whole_sales) flaky).1)
     = length (rows (cleaned_of whole_sales)) ∧
     stdout (write_silver (cleaned_of whole_sales) flaky).1
     = stdout flaky
       ++ [InsertError "Silver Table" r.1 (DriverError "write timeout"); silver_done] ∧
     tables (write_silver (cleaned_of whole_sales) flaky).1
     = run_all (silver_statement
                  <$> delete 1%nat (record_at 0 1 2 <$> rows (cleaned_of whole_sales)))
               (tables flaky) ∧
     rows_of "silver_table" (tables flaky)
       ⊆ rows_of "silver_table" (tables (write_silver (cleaned_of whole_sales) flaky).1) ∧
     size (rows_of "silver_table" (tables (write_silver (cleaned_of whole_sales) flaky).1))
     = (size (rows_of "silver_table" (tables flaky))
        + (length (rows (cleaned_of whole_sales)) - 1))%nat ∧
     ∀ j r', j ≠ 1%nat → rows (cleaned_of whole_sales) !! j = Some r' →
       ∃ k, rows_of "silver_table" (tables flaky) !! k = None ∧
            rows_of "silver_table"
              (tables (write_silver (cleaned_of whole_sales) flaky).1) !! k
            = Some (bronze_row (cell_at 0 r'.2) (cell_at 1 r'.2) (cell_at 2 r'.2))).
Proof.
  destruct (write_fault_isolation (cleaned_of whole_sales) 0 1 2 flaky) as [Hb Hs].
  - apply cleaned_example; reflexivity.
  - repeat constructor; discriminate.
  - split.
    + apply (Hb 1%nat (DriverError "write timeout")); [reflexivity|].
      exact (one_failure_second _ _ _ _).
    + apply (Hs 1%nat (DriverError "write timeout")); [reflexivity|].
      exact (one_failure_second _ _ _ _).
Defined.

Lemma bronze_fault_loses_record :
  length (rows (cleaned_of repeated_sales)) = 3%nat ∧
  (sent provisioned (write_bronze (cleaned_of repeated_sales) provisioned).1).*2
  = [None; None; Some (InvalidRequest "Invalid constant for the primary key")] ∧
  (write_bronze (cleaned_of repeated_sales) provisioned).2 = Ok tt ∧
  size (rows_of "bronze_table"
          (tables (write_bronze (cleaned_of repeated_sales) provisioned).1)) = 1%nat ∧
  rows_of "bronze_table"
    (tables (write_bronze (cleaned_of repeated_sales) provisioned).1) !! KInt 1
  = Some (bronze_row (CInt 1) (CDate (Date 2024 1 2)) (CInt 5)).
Proof. vm_compute. repeat split. Qed.

(** ** The cleaning stage beyond its rows: labels, dtypes, order, errors *)

Lemma rename_label_idem l : rename_label (rename_label l) = rename_label l.
Proof.
  unfold rename_label.
  destruct (String.eqb_spec l "Order ID") as [->|?]; [done|].
  destruct (String.eqb_spec l "Order Date") as [->|?]; [done|].
  destruct (String.eqb_spec l "TotalRevenue") as [->|?]; [done|].
  destruct (String.eqb_spec l "Order ID"); [done|].
  destruct (String.eqb_spec l "Order Date"); [done|].
  by destruct (String.eqb_spec l "TotalRevenue").
Qed.

Lemma rename_label_fresh l :
  rename_label l ≠ "Order ID" ∧ rename_label l ≠ "Order Date" ∧
  rename_label l ≠ "TotalRevenue".
Proof.
  unfold rename_label.
  destruct (String.eqb_spec l "Order ID") as [->|?]; [done|].
  destruct (String.eqb_spec l "Order Date") as [->|?]; [done|].
  by destruct (String.eqb_spec l "TotalRevenue") as [->|?].
Qed.

Lemma has_column_false name df :
  has_column name df = false ↔ name ∉ columns df.
Proof.
  unfold has_column. rewrite <- not_true_iff_false, existsb_exists. split.
  - intros Hno Hin. apply Hno. exists name. split; [by apply list_elem_of_In|].
    apply String.eqb_refl.
  - intros Hno (l & Hl & ->%String.eqb_eq). by apply Hno, list_elem_of_In.
Qed.

Lemma loc_absent name df : has_column name df = false → loc name df = Raise (KeyError name).
Proof. intros Hno. unfold loc. by rewrite (positions_absent _ _ _ Hno). Qed.

Lemma has_column_placeholder name df :
  name ≠ "order_id" → has_column name (placeholder df) = has_column name df.
Proof.
  intros Hne. unfold placeholder. destruct (has_column "order_id" df); [done|].
  unfold has_column, assign_new. cbn [columns]. rewrite existsb_app. cbn [existsb].
  destruct (String.eqb_spec name "order_id"); [done|]. by rewrite !orb_false_r.
Qed.

Lemma update_column_columns f name df df' :
  update_column f name df = Ok df' → columns df' = columns df.
Proof.
  unfold update_column. destruct (loc name df); [|done]. by intros [= <-].
Qed.

Section CleaningErrors.
Context `{Pandas}.

Lemma coerce_missing name df :
  (name = "sale_date" ∨ name = "amount") →
  has_column name df = false →
  (∀ n, n ∈ required → n ≠ name → ∃ p, loc n df = Ok p) →
  coerce df = Raise (KeyError name).
Proof.
  intros Hname Hno Hothers. unfold coerce.
  destruct (Hothers "order_id") as [p1 Hp1]; [set_solver|naive_solver|].
  rewrite (update_column_Ok _ _ _ _ Hp1). cbn [rbind].
  destruct Hname as [-> | ->].
  - unfold update_column. rewrite (loc_columns "sale_date" df) by done.
    by rewrite (loc_absent _ _ Hno).
  - destruct (Hothers "sale_date") as [p2 Hp2]; [set_solver|done|].
    rewrite (update_column_Ok _ _ _ p2) by (by rewrite (loc_columns "sale_date" df)).
    cbn [rbind]. unfold update_column. rewrite (loc_columns "amount" df) by done.
    by rewrite (loc_absent _ _ Hno).
Qed.

(** X1.  A file without the date column, or without the amount column,
    ends the script in the cleaning stage with the [KeyError] of that
    label (the other required columns being there once): after the line
    about the identifier column nothing is printed, no statement is sent
    and no table is touched. *)
Theorem missing_column_stops_script df w name :
  (name = "sale_date" ∨ name = "amount") →
  has_column name (rename df) = false →
  (∀ n, n ∈ required → n ≠ name → ∃ p, loc n (placeholder (rename df)) = Ok p) →
  normalize df = Raise (KeyError name) ∧
  script df w
  = (MkWorld (tables w) (faults w) (journal w) (stdout w ++ [identifier_line df]),
     Raise (KeyError name)).
Proof.
  intros Hname Hno Hothers.
  assert (normalize df = Raise (KeyError name)) as Hn.
  { unfold normalize. rewrite (coerce_missing name); [done|done| |done].
    rewrite has_column_placeholder; [done|]. by destruct Hname as [-> | ->]. }
  split; [done|]. unfold script, bind, print, lift. cbn [fst snd]. by rewrite Hn.
Qed.

End CleaningErrors.

Lemma missing_column_stops_script_witness :
  @normalize iso_pandas undated_sales = Raise (KeyError "sale_date") ∧
  @script iso_pandas undated_sales provisioned
  = (MkWorld (tables provisioned) (faults provisioned) (journal provisioned)
             (stdout provisioned ++ [identifier_line undated_sales]),
     Raise (KeyError "sale_date")).
Proof.
  apply (@missing_column_stops_script iso_pandas undated_sales provisioned "sale_date").
  - by left.
  - reflexivity.
  - intros n Hn Hne. unfold required in Hn.
    apply elem_of_cons in Hn as [->|Hn]; [by exists 0%nat|].
    apply elem_of_cons in Hn as [->|Hn]; [done|].
    apply elem_of_cons in Hn as [->|Hn]; [by exists 1%nat|].
    by apply elem_of_nil in Hn.
Defined.

(** X2.  Renaming is idempotent, it leaves none of the three labels of
    the file among the columns, and it touches no row. *)
Theorem rename_idempotent df :
  rename (rename df) = rename df ∧
  has_column "Order ID" (rename df) = false ∧
  has_column "Order Date" (rename df) = false ∧
  has_column "TotalRevenue" (rename df) = false ∧
  rows (rename df) = rows df.
Proof.
  split_and!; [|apply has_column_false..|done].
  - unfold rename. cbn [columns rows]. f_equal. rewrite <- list_fmap_compose.
    apply list_fmap_ext. intros _ l _. apply rename_label_idem.
  - intros (l & Hl & _)%list_elem_of_fmap. by destruct (rename_label_fresh l) as (? & ? & ?).
  - intros (l & Hl & _)%list_elem_of_fmap. by destruct (rename_label_fresh l) as (? & ? & ?).
  - intros (l & Hl & _)%list_elem_of_fmap. by destruct (rename_label_fresh l) as (? & ? & ?).
Qed.

Section CleaningOrder.
Context `{Pandas}.

Lemma placeholder_cells df k r :
  rows (placeholder (rename df)) !! k = Some r →
  ∃ r0, rows df !! k = Some r0 ∧ r.1 = r0.1 ∧
        ∀ q n, columns (placeholder (rename df)) !! q = Some n → n ≠ "order_id" →
               cell_at q r.2 = cell_at q r0.2.
Proof.
  unfold placeholder. destruct (has_column "order_id" (rename df)) eqn:E.
  - intros Hk. exists r. by split_and!.
  - cbn [assign_new rows rename columns]. rewrite list_lookup_fmap.
    destruct (rows df !! k) as [r0|]; [|done]. intros [= <-]. exists r0.
    split_and!; [done..|]. intros q n Hq Hn. cbn [snd].
    apply cell_at_set_cell_ne. intros <-.
    rewrite lookup_app_r, Nat.sub_diag in Hq by done. by injection Hq as <-.
Qed.

(** X3.  Cleaning keeps the rows of the file in their order and under
    their labels, and changes no cell outside the three required columns:
    the labels of the cleaned frame increase strictly, and every row of the
    cleaned frame is the record of the file at its label in all the other
    columns. *)
Theorem normalize_keeps_order header records df :
  normalize (read_csv header records) = Ok df →
  StronglySorted lt (rows df).*1 ∧
  ∀ r, r ∈ rows df →
    ∃ record, records !! r.1 = Some record ∧
      ∀ q n, columns df !! q = Some n → n ∉ required →
             cell_at q r.2 = cell_at q record.
Proof.
  intros Hn. destruct (normalize_spec _ _ Hn)
    as (dfc & p1 & p2 & p3 & Hc & H1 & H2 & H3 & Hcols & Hrows).
  destruct (coerce_spec _ _ Hc) as (q1 & q2 & q3 & Hq1 & Hq2 & Hq3 & Hcols' & Hlen & Hcells).
  rewrite (loc_columns _ _ dfc Hcols') in H1.
  rewrite (loc_columns _ _ dfc Hcols') in H2.
  rewrite (loc_columns _ _ dfc Hcols') in H3.
  assert (q1 = p1) as -> by congruence. assert (q2 = p2) as -> by congruence.
  assert (q3 = p3) as -> by congruence.
  pose proof (indexed_placeholder_rename _ (indexed_read_csv header records)) as Hidx.
  assert (∀ k r, rows dfc !! k = Some r → r.1 = k) as Hidx'.
  { intros k r Hk. destruct (Hcells _ _ Hk) as (r0 & Hr0 & -> & _). by apply Hidx. }
  split.
  - rewrite Hrows. clear -Hidx'.
    assert (∀ (l : list (nat * list cell)) b,
              (∀ k r, l !! k = Some r → r.1 = (b + k)%nat) →
              StronglySorted lt (filter (λ r, complete [p1; p2; p3] r = true) l).*1) as Hgen.
    { induction l as [|r l IH]; intros b Hl; [constructor|].
      assert (StronglySorted lt (filter (λ r, complete [p1; p2; p3] r = true) l).*1) as Hs.
      { apply (IH (S b)). intros k r' Hk. rewrite (Hl (S k) r' Hk). lia. }
      rewrite filter_cons. destruct (decide _); [|done].
      rewrite fmap_cons. constructor; [done|].
      apply Forall_forall. intros x (r' & -> & Hr')%list_elem_of_fmap.
      apply list_elem_of_filter in Hr' as [_ Hr'].
      apply list_elem_of_lookup in Hr' as [k Hk].
      rewrite (Hl 0%nat r eq_refl), (Hl (S k) r' Hk). lia. }
    apply (Hgen _ 0%nat). intros k r Hk. by apply Hidx'.
  - intros r Hr. rewrite Hrows in Hr. apply list_elem_of_filter in Hr as [_ Hr].
    apply list_elem_of_lookup in Hr as [k Hk].
    destruct (Hcells _ _ Hk) as (r0 & Hr0 & Hl & _ & _ & _ & Hother).
    destruct (placeholder_cells _ _ _ Hr0) as (r1 & Hr1 & Hl1 & Hcell1).
    unfold read_csv in Hr1. cbn [rows] in Hr1. rewrite list_lookup_imap in Hr1.
    destruct (records !! k) as [record|] eqn:Hrec; [|done]. injection Hr1 as <-.
    exists record. rewrite Hl, Hl1. cbn [fst snd] in *. split; [done|].
    intros q n Hq Hnr. rewrite Hcols, Hcols' in Hq.
    rewrite Hother, (Hcell1 q n Hq); [done|..].
    + intros ->. apply Hnr. set_solver.
    + intros ->. apply loc_Ok in Hq1. apply Hnr.
      assert (n = "order_id") as -> by congruence. set_solver.
    + intros ->. apply loc_Ok in Hq2. apply Hnr.
      assert (n = "sale_date") as -> by congruence. set_solver.
    + intros ->. apply loc_Ok in Hq3. apply Hnr.
      assert (n = "amount") as -> by congruence. set_solver.
Qed.

Lemma to_numeric_dtype dc col :
  Forall (λ c, ∃ z, c = CInt z) (to_numeric dc col) ∨
  Forall (λ c, ∃ f, c = CFloat f) (to_numeric dc col).
Proof.
  assert (Forall (λ c, ∃ z, c = CInt z) (harmonize (to_numeric_scalar <$> col)) ∨
          Forall (λ c, ∃ f, c = CFloat f) (harmonize (to_numeric_scalar <$> col))) as Hh.
  { unfold harmonize. destruct (forallb is_int _) eqn:E.
    - left. rewrite forallb_forall in E. apply Forall_forall.
      intros c Hc%list_elem_of_In. specialize (E c Hc). destruct c; try done. eauto.
    - right. apply Forall_forall. intros c (c' & -> & _)%list_elem_of_fmap.
      unfold as_float. eauto. }
  unfold to_numeric. destruct dc; [|done]. unfold downcast_integer.
  destruct (existsb isna _); [done|].
  destruct (mapM downcast_value _) as [zs|]; [|done].
  left. apply Forall_forall. intros c (z & -> & _)%list_elem_of_fmap. eauto.
Qed.

(** One value that reads as no number makes the column a float column. *)
Lemma to_numeric_floats dc col k c :
  col !! k = Some c → isna (to_numeric_scalar c) = true →
  Forall (λ c, ∃ f, c = CFloat f) (to_numeric dc col).
Proof.
  intros Hk Hna. destruct (to_numeric_na dc col k c Hk Hna) as (v & Hv & Hvna).
  destruct (to_numeric_dtype dc col) as [Hints|Hfloats]; [|done].
  apply list_elem_of_lookup_2 in Hv.
  rewrite Forall_forall in Hints. by destruct (Hints v Hv) as [z ->].
Qed.

(** X4.  A coerced numeric column has one dtype, whether or not the
    downcast is asked for: it is a column of integers, or a column of
    floats; no text, date or missing date is left in it, and it is as long
    as the column it came from. *)
Theorem to_numeric_single_dtype dc col :
  length (to_numeric dc col) = length col ∧
  (Forall (λ c, ∃ z, c = CInt z) (to_numeric dc col) ∨
   Forall (λ c, ∃ f, c = CFloat f) (to_numeric dc col)).
Proof. split; [apply length_to_numeric|apply to_numeric_dtype]. Qed.

End CleaningOrder.

Lemma normalize_keeps_order_witness :
  StronglySorted lt (rows (cleaned_of annotated_sales)).*1 ∧
  ∀ r, r ∈ rows (cleaned_of annotated_sales) →
    ∃ record,
      [ [CInt 1; CStr "Fruits"; CStr "2024-01-01"; CInt 10];
        [CInt 2; CStr "Snacks"; CStr "2024-01-02"; CStr "n/a"];
        [CInt 3; CStr "Cereal"; CStr "2024-01-03"; CInt 2] ] !! r.1 = Some record ∧
      ∀ q n, columns (cleaned_of annotated_sales) !! q = Some n → n ∉ required →
             cell_at q r.2 = cell_at q record.
Proof.
  apply (@normalize_keeps_order iso_pandas
           ["Order ID"; "Item"; "Order Date"; "TotalRevenue"]).
  reflexivity.
Defined.

(** ** Writes the store refuses, and the interrupt no loop catches *)

Lemma attempt_refused title stmt r w :
  (∀ q, stmt r.2 = Ok q → ∃ e, run q (tables w) = Raise e) →
  tables (attempt title stmt r w).1 = tables w ∧
  ∃ J, journal (attempt title stmt r w).1 = journal w ++ J ∧ Forall (λ j, j.2 ≠ None) J.
Proof.
  intros Hrun. destruct (stmt r.2) as [q|e] eqn:Hq.
  - rewrite (attempt_answer _ _ _ _ _ Hq). destruct (Hrun q eq_refl) as [e He].
    assert (∃ e', answer q (tables w) (faults w) = Raise e') as [e' ->].
    { unfold answer. destruct (head (faults w)) as [[e'|]|]; eauto. }
    destruct (is_Exception e'); cbn [fst tables journal];
      (split; [done|]); exists [(q, Some e')]; (split; [done|]); by repeat constructor.
  - unfold attempt, try_except, bind, lift, print. rewrite Hq.
    destruct (is_Exception e); cbn [fst tables journal];
      (split; [done|]); exists []; by rewrite app_nil_r.
Qed.

Lemma for_each_refused title stmt rws w :
  (∀ r q, r ∈ rws → stmt r.2 = Ok q → ∃ e, run q (tables w) = Raise e) →
  tables (for_each rws (attempt title stmt) w).1 = tables w ∧
  ∃ J, journal (for_each rws (attempt title stmt) w).1 = journal w ++ J ∧
       Forall (λ j, j.2 ≠ None) J.
Proof.
  revert w. induction rws as [|r rws IH]; intros w Hrun.
  - split; [done|]. exists []. by rewrite app_nil_r.
  - cbn [for_each]. unfold bind.
    destruct (attempt_refused title stmt r w) as (Ht & J & HJ & HJs).
    { intros q. apply Hrun. by left. }
    destruct (attempt title stmt r w) as [w1 [[]|e]]; cbn [fst] in *.
    + destruct (IH w1) as (Ht' & J' & HJ' & HJs').
      { rewrite Ht. intros r' q Hr'. apply Hrun. by right. }
      split; [congruence|]. exists (J ++ J'). rewrite HJ', HJ, app_assoc.
      split; [done|]. by apply Forall_app.
    + split; [done|]. by exists J.
Qed.

Lemma then_print_Raise (m : M unit) l w e : (m w).2 = Raise e → (m >> print l) w = m w.
Proof. unfold bind. destruct (m w) as [w1 [[]|e']]; [done|]. by intros [= ->]. Qed.

Lemma rollup_frame_lookup by_ groups k r :
  rows (rollup_frame by_ groups) !! k = Some r →
  ∃ g, groups !! k = Some g ∧ r = (k, [g.1; CFloat g.2]).
Proof.
  unfold rollup_frame. cbn [rows]. rewrite list_lookup_imap.
  destruct (groups !! k) as [g|]; [|done]. intros [= <-]. eauto.
Qed.

(** The frame of lines 133-137: two columns, and every total a float. *)
Lemma gold1_shape df g :
  gold1 df = Ok g →
  columns g = ["order_id"; "amount"] ∧
  ∀ r, r ∈ rows g → ∃ f, cell_at 1 r.2 = CFloat f.
Proof.
  unfold gold1. destruct (groupby_sum "order_id" df) as [groups|]; [|done]. cbn [rbind].
  rewrite (update_column_Ok _ _ _ 0%nat) by reflexivity. cbn [rbind].
  rewrite (update_column_Ok _ _ _ 1%nat) by reflexivity. intros [= <-].
  split; [done|]. intros r [k Hk]%list_elem_of_lookup.
  apply set_column_at_lookup in Hk as (r1 & v & Hr1 & Hv & ->). cbn [snd].
  rewrite cell_at_set_cell.
  unfold astype_float_ignore in Hv. destruct (forallb is_number _).
  - apply list_lookup_fmap_Some in Hv as (c & -> & _). unfold as_float. eauto.
  - rewrite column_at_lookup, Hr1 in Hv.
    cbn [fmap option_fmap option_map] in Hv. injection Hv as <-.
    apply set_column_at_lookup in Hr1 as (r0 & u & Hr0 & _ & ->).
    apply rollup_frame_lookup in Hr0 as (grp & _ & ->). cbn [snd].
    rewrite cell_at_set_cell_ne by done. eauto.
Qed.

(** The key of a row of a two-column frame whose second value is a float,
    as [iterrows] hands it over: a float, or no number at all. *)
Lemma series_float_key g r f :
  length (columns g) = 2%nat → cell_at 1 r = CFloat f →
  int_key (cell_at 0 (series g r)) = None ∧
  cell_at 1 (series g r) = CFloat f.
Proof.
  intros Hlen Hf. unfold series. rewrite Hlen.
  change ((λ p, cell_at p r) <$> seq 0 2) with [cell_at 0 r; cell_at 1 r].
  rewrite Hf. by destruct (cell_at 0 r).
Qed.

Lemma run_gold1_insert tbls c0 c1 :
  has_schema "gold_table1" gold1_schema tbls → int_key c0 = None →
  run (InsertInto "gold_table1" ["order_id"; "total_sales"] [Lit c0; Lit c1]) tbls
  = Raise (InvalidRequest "Invalid constant for the primary key").
Proof.
  intros (t & Ht & Hs)%has_schema_lookup Hk. cbn [run]. unfold insert_into.
  rewrite Ht, Hs.
  change (negb (length ["order_id"; "total_sales"] =? length [Lit c0; Lit c1])%nat)
    with false.
  cbn match.
  change (negb (forallb (λ c, bool_decide (c ∈ (fields gold1_schema).*1))
                  ["order_id"; "total_sales"])) with false.
  cbn match.
  change ((list_to_map (zip ["order_id"; "total_sales"] [Lit c0; Lit c1])
             : gmap string value) !! primary_key gold1_schema) with (Some (Lit c0)).
  change ((list_to_map (fields gold1_schema) : gmap string cql_type)
            !! primary_key gold1_schema) with (Some INT).
  cbn match. by rewrite to_pkey_int, Hk.
Qed.

Lemma gold1_statements g :
  columns g = ["order_id"; "amount"] →
  Forall2 (λ r q, gold_insert "gold_table1" "order_id" g r.2 = Ok q)
          (iterrows g) (gold_statement "gold_table1" "order_id" <$> iterrows g).
Proof.
  intros Hcols. apply Forall2_fmap_r, Forall_Forall2_diag, Forall_forall. intros r _.
  unfold gold_insert. cbn [params].
  assert (loc "order_id" g = Ok 0%nat) as -> by (unfold loc; by rewrite Hcols).
  assert (loc "amount" g = Ok 1%nat) as -> by (unfold loc; by rewrite Hcols).
  reflexivity.
Qed.

(** X5.  The rollup by order is never stored.  A row of the rollup frame
    holds numbers only, one of them the float total, so [iterrows] hands
    its order id over as a float, which the [int] key of [gold_table1]
    refuses: whatever the frame and the store, the stage leaves every table
    as it was, and every statement it sends is answered with an exception.
    On a store that raises no [KeyboardInterrupt] it sends one statement
    for each order id all the same, and ends with the line that reports
    the insertion. *)
Theorem gold1_stores_nothing df w :
  has_schema "gold_table1" gold1_schema (tables w) →
  tables (write_gold1 df w).1 = tables w ∧
  Forall (λ j, j.2 ≠ None) (sent w (write_gold1 df w).1) ∧
  (∀ g, gold1 df = Ok g → uninterrupted (faults w) →
     (write_gold1 df w).2 = Ok tt ∧
     length (sent w (write_gold1 df w).1) = length (rows g) ∧
     last (stdout (write_gold1 df w).1) = Some gold1_done).
Proof.
  intros Hs. unfold write_gold1. unfold bind at 1 3 5 7 9, lift.
  destruct (gold1 df) as [g|e] eqn:Hg; cbn [fst snd].
  2:{ split_and!; [done| |done]. unfold sent. by rewrite drop_all. }
  destruct (gold1_shape _ _ Hg) as [Hcols Hfloat].
  destruct (for_each_refused "Gold Table 1" (gold_insert "gold_table1" "order_id" g)
              (iterrows g) w) as (Ht & J & HJ & HJs).
  { intros r q (r0 & Hr0 & ->)%iterrows_elem Hq.
    pose proof (gold1_statements g Hcols) as Hqs.
    unfold gold_insert in Hq. cbn [params] in Hq.
    assert (loc "order_id" g = Ok 0%nat) as Hl0 by (unfold loc; by rewrite Hcols).
    assert (loc "amount" g = Ok 1%nat) as Hl1 by (unfold loc; by rewrite Hcols).
    rewrite Hl0, Hl1 in Hq. cbn [rbind snd] in Hq. injection Hq as <-.
    destruct (Hfloat r0 Hr0) as [f Hf].
    destruct (series_float_key g r0.2 f) as [Hk _]; [by rewrite Hcols|done|].
    rewrite (run_gold1_insert _ _ _ Hs Hk). eauto. }
  fold (insert_rows "Gold Table 1" (gold_insert "gold_table1" "order_id" g) g) in *.
  split_and!.
  - by rewrite then_print_tables.
  - unfold sent. rewrite then_print_journal, HJ. by rewrite drop_app_length.
  - intros g' [= <-] Hfs.
    pose proof (for_each_attempt "Gold Table 1" _ _ _ w (gold1_statements g Hcols) Hfs)
      as Hloop.
    fold (insert_rows "Gold Table 1" (gold_insert "gold_table1" "order_id" g) g) in Hloop.
    rewrite then_print_Ok by (by rewrite Hloop). cbn [fst snd stdout journal].
    split_and!; [done| |by rewrite last_snoc].
    unfold sent. cbn [journal]. rewrite Hloop. cbn [fst journal].
    rewrite drop_app_length, length_trace, length_fmap. unfold iterrows.
    by rewrite length_fmap.
Qed.

Lemma gold1_stores_nothing_witness :
  tables (write_gold1 (cleaned_of whole_sales) provisioned).1 = tables provisioned ∧
  Forall (λ j, j.2 ≠ None)
         (sent provisioned (write_gold1 (cleaned_of whole_sales) provisioned).1) ∧
  (∀ g, gold1 (cleaned_of whole_sales) = Ok g → uninterrupted (faults provisioned) →
     (write_gold1 (cleaned_of whole_sales) provisioned).2 = Ok tt ∧
     length (sent provisioned (write_gold1 (cleaned_of whole_sales) provisioned).1)
     = length (rows g) ∧
     last (stdout (write_gold1 (cleaned_of whole_sales) provisioned).1) = Some gold1_done).
Proof. apply (gold1_stores_nothing (cleaned_of whole_sales) provisioned). reflexivity. Defined.

Lemma bronze_insert_series df p1 p2 p3 r :
  cleaned df p1 p2 p3 → r ∈ rows df →
  bronze_insert df (series df r.2) = Ok (bronze_statement (record_at p1 p2 p3 r)).
Proof.
  intros Hc Hr. pose proof Hc as (H1 & H2 & H3 & Hrows).
  unfold bronze_insert. rewrite (params_required df p1 p2 p3) by done. cbn [rbind].
  pose proof (record_at_series df p1 p2 p3 r Hc Hr) as Hrec.
  unfold record_at in Hrec. cbn [snd] in Hrec. injection Hrec as -> -> ->. done.
Qed.

Section FloatIdentifiers.
Context `{Pandas}.

(** X6.  One order id that does not parse costs the run its whole bronze
    layer.  The missing value makes [order_id] a float column, which the
    downcast leaves alone; the rows that survive carry float identifiers,
    and the [int] key of the bronze table refuses each of them: the stage
    stores nothing, and every statement it sends is answered with an
    exception. *)
Theorem unparsed_order_id_blocks_bronze header records df w p r :
  normalize (read_csv header records) = Ok df →
  loc "order_id" (placeholder (rename (read_csv header records))) = Ok p →
  r ∈ rows (placeholder (rename (read_csv header records))) →
  isna (to_numeric_scalar (cell_at p r.2)) = true →
  has_schema "bronze_table" bronze_schema (tables w) →
  (∃ p1, loc "order_id" df = Ok p1 ∧
         ∀ r', r' ∈ rows df → ∃ f, cell_at p1 r'.2 = CFloat f) ∧
  tables (write_bronze df w).1 = tables w ∧
  Forall (λ j, j.2 ≠ None) (sent w (write_bronze df w).1).
Proof.
  intros Hn Hp Hr Hna Hs.
  destruct (normalize_cleaned _ _ Hn) as (p1 & p2 & p3 & Hc).
  pose proof Hc as (H1 & H2 & H3 & _).
  assert (∀ r', r' ∈ rows df → ∃ f, cell_at p1 r'.2 = CFloat f) as Hfloat.
  { destruct (normalize_spec _ _ Hn)
      as (dfc & q1 & q2 & q3 & Hco & G1 & G2 & G3 & Hcols & Hrows).
    rewrite (loc_columns _ dfc df Hcols) in H1.
    assert (q1 = p1) as -> by congruence.
    destruct (coerce_spec _ _ Hco) as (s1 & s2 & s3 & Hs1 & _ & _ & Hcols' & _ & Hcells).
    assert (s1 = p) as -> by congruence.
    rewrite (loc_columns _ _ dfc Hcols') in G1.
    assert (p = p1) as -> by congruence.
    apply list_elem_of_lookup in Hr as [k Hk].
    assert (Forall (λ c, ∃ f, c = CFloat f)
              (to_numeric true
                 (column_at p1 (placeholder (rename (read_csv header records))))))
      as Hcol.
    { apply (to_numeric_floats true _ k (cell_at p1 r.2)); [|done].
      by rewrite column_at_lookup, Hk. }
    intros r'. rewrite Hrows. intros [_ Hr']%list_elem_of_filter.
    apply list_elem_of_lookup in Hr' as [k' Hk'].
    destruct (Hcells _ _ Hk') as (r0 & _ & _ & Hv & _).
    rewrite Forall_forall in Hcol. apply Hcol. by eapply list_elem_of_lookup_2. }
  split; [by exists p1|].
  destruct (for_each_refused "Bronze Table" (bronze_insert df) (iterrows df) w)
    as (Ht & J & HJ & HJs).
  { intros r' q (r0 & Hr0 & ->)%iterrows_elem. cbn [snd].
    rewrite (bronze_insert_series df p1 p2 p3 r0 Hc Hr0). intros [= <-].
    unfold bronze_statement. rewrite (run_bronze_insert _ _ _ _ Hs).
    unfold record_at. cbn [fst snd]. destruct (Hfloat r0 Hr0) as [f ->]. eauto. }
  fold (insert_rows "Bronze Table" (bronze_insert df) df) in *. unfold write_bronze.
  split.
  - by rewrite then_print_tables.
  - unfold sent. rewrite then_print_journal, HJ. by rewrite drop_app_length.
Qed.

End FloatIdentifiers.

Lemma unparsed_order_id_blocks_bronze_witness :
  (∃ p1, loc "order_id" (cleaned_of smudged_sales) = Ok p1 ∧
         ∀ r', r' ∈ rows (cleaned_of smudged_sales) → ∃ f, cell_at p1 r'.2 = CFloat f) ∧
  tables (write_bronze (cleaned_of smudged_sales) provisioned).1 = tables provisioned ∧
  Forall (λ j, j.2 ≠ None)
         (sent provisioned (write_bronze (cleaned_of smudged_sales) provisioned).1).
Proof.
  apply (@unparsed_order_id_blocks_bronze iso_pandas sales_header
           [ [CStr "1"; CStr "2024-01-01"; CInt 10];
             [CStr "#2"; CStr "2024-01-02"; CInt 5];
             [CStr "3"; CStr "2024-01-03"; CInt 2] ]
           (cleaned_of smudged_sales) provisioned 0%nat
           (1%nat, [CStr "#2"; CStr "2024-01-02"; CInt 5])).
  - reflexivity.
  - reflexivity.
  - apply list_elem_of_lookup. by exists 1%nat.
  - reflexivity.
  - reflexivity.
Defined.

(** A loop on a store whose first [KeyboardInterrupt] comes after the
    faults [fs1]. *)
Lemma for_each_attempt_interrupted title stmt fs1 :
  ∀ rws qs w fs2,
  Forall2 (λ r q, stmt r.2 = Ok q) rws qs → uninterrupted fs1 →
  faults w = fs1 ++ Some KeyboardInterrupt :: fs2 →
  (length fs1 < length rws)%nat →
  ∃ w' J errs,
    for_each rws (attempt title stmt) w = (w', Raise KeyboardInterrupt) ∧
    journal w' = journal w ++ J ∧
    J.*1 = take (S (length fs1)) qs ∧
    last J.*2 = Some (Some KeyboardInterrupt) ∧
    faults w' = fs2 ∧
    stdout w' = stdout w ++ errs ∧
    Forall (λ m, ∃ l e, m = InsertError title l e) errs.
Proof.
  induction fs1 as [|f fs1 IH]; intros rws qs w fs2 Hqs Hfs1 Hf Hlen.
  - destruct Hqs as [|r q rws qs Hq Hqs]; [simpl in Hlen; lia|].
    cbn [for_each]. unfold bind. rewrite (attempt_answer _ _ _ _ _ Hq).
    unfold answer. rewrite Hf. cbn [app head is_Exception tail].
    eexists _, [(q, Some KeyboardInterrupt)], []. split_and!; try done.
    cbn [stdout]. by rewrite app_nil_r.
  - destruct Hqs as [|r q rws qs Hq Hqs]; [simpl in Hlen; lia|].
    apply Forall_cons in Hfs1 as [Hne Hfs1].
    cbn [for_each]. unfold bind at 1. rewrite (attempt_answer _ _ _ _ _ Hq).
    assert (∃ w1 o errs1,
              (match answer q (tables w) (faults w) with
               | Ok tbls =>
                   (MkWorld tbls (tail (faults w)) (journal w ++ [(q, None)]) (stdout w),
                    Ok tt)
               | Raise e =>
                   if is_Exception e
                   then (MkWorld (tables w) (tail (faults w)) (journal w ++ [(q, Some e)])
                                 (stdout w ++ [InsertError title r.1 e]), Ok tt)
                   else (MkWorld (tables w) (tail (faults w)) (journal w ++ [(q, Some e)])
                                 (stdout w), Raise e)
               end) = (w1, Ok tt) ∧
              journal w1 = journal w ++ [(q, o)] ∧
              faults w1 = fs1 ++ Some KeyboardInterrupt :: fs2 ∧
              stdout w1 = stdout w ++ errs1 ∧
              Forall (λ m, ∃ l e, m = InsertError title l e) errs1)
      as (w1 & o & errs1 & -> & HJ1 & Hf1 & Hout1 & Herr1).
    { destruct (answer q (tables w) (faults w)) as [tbls|e] eqn:Ha.
      - eexists _, None, []. split_and!; [done|done|by rewrite Hf| |done].
        cbn [stdout]. by rewrite app_nil_r.
      - assert (is_Exception e = true) as ->.
        { unfold answer in Ha. rewrite Hf in Ha. cbn [app head] in Ha.
          destruct f as [e'|]; [|by eapply run_Exception].
          injection Ha as ->. by destruct e. }
        eexists _, (Some e), [_]. split_and!; [done|done|by rewrite Hf|done|].
        repeat constructor. eauto. }
    destruct (IH rws qs w1 fs2 Hqs Hfs1 Hf1) as (w' & J & errs & -> & HJ & Hst & Hlast & ? & Hout & Herr).
    { simpl in Hlen. lia. }
    exists w', ((q, o) :: J), (errs1 ++ errs). split_and!; [done| | | |done| |].
    + by rewrite HJ, HJ1, <- app_assoc.
    + cbn [fmap list_fmap length take fst]. by rewrite <- Hst.
    + cbn [fmap list_fmap snd]. destruct J as [|j J]; [done|]. done.
    + by rewrite Hout, Hout1, <- app_assoc.
    + by apply Forall_app.
Qed.

(** X7.  A [KeyboardInterrupt] is no [Exception]: the loops do not catch
    it.  When the store raises it at a statement of the bronze stage, or
    of the silver stage, the stage ends there with the interrupt: the
    statements of the later rows are not sent, and after the lines of the
    rows refused before, nothing is printed, the closing line of the stage
    neither. *)
Theorem interrupt_ends_stage df p1 p2 p3 w fs1 fs2 :
  cleaned df p1 p2 p3 → uninterrupted fs1 →
  faults w = fs1 ++ Some KeyboardInterrupt :: fs2 →
  (length fs1 < length (rows df))%nat →
  (∃ w' errs,
     write_bronze df w = (w', Raise KeyboardInterrupt) ∧
     (sent w w').*1
     = take (S (length fs1)) (bronze_statement <$> (record_at p1 p2 p3 <$> rows df)) ∧
     last (sent w w').*2 = Some (Some KeyboardInterrupt) ∧
     faults w' = fs2 ∧
     stdout w' = stdout w ++ errs ∧
     Forall (λ m, ∃ l e, m = InsertError "Bronze Table" l e) errs) ∧
  (∃ w' errs,
     write_silver df w = (w', Raise KeyboardInterrupt) ∧
     (sent w w').*1
     = take (S (length fs1)) (silver_statement <$> (record_at p1 p2 p3 <$> rows df)) ∧
     last (sent w w').*2 = Some (Some KeyboardInterrupt) ∧
     faults w' = fs2 ∧
     stdout w' = stdout w ++ errs ∧
     Forall (λ m, ∃ l e, m = InsertError "Silver Table" l e) errs).
Proof.
  intros Hc Hfs1 Hf Hlen. split.
  - destruct (for_each_attempt_interrupted "Bronze Table" (bronze_insert df) fs1
                (iterrows df) _ w fs2 (bronze_statements df p1 p2 p3 Hc) Hfs1 Hf)
      as (w' & J & errs & Hloop & HJ & Hst & Hlast & Hf' & Hout & Herr).
    { unfold iterrows. by rewrite length_fmap. }
    exists w', errs. unfold write_bronze.
    rewrite then_print_Raise with (e := KeyboardInterrupt)
      by (unfold insert_rows; by rewrite Hloop).
    unfold insert_rows. rewrite Hloop, (sent_app _ _ _ HJ). by split_and!.
  - destruct (for_each_attempt_interrupted "Silver Table" (silver_insert df) fs1
                (iterrows df) _ w fs2 (silver_statements df p1 p2 p3 Hc) Hfs1 Hf)
      as (w' & J & errs & Hloop & HJ & Hst & Hlast & Hf' & Hout & Herr).
    { unfold iterrows. by rewrite length_fmap. }
    exists w', errs. unfold write_silver.
    rewrite then_print_Raise with (e := KeyboardInterrupt)
      by (unfold insert_rows; by rewrite Hloop).
    unfold insert_rows. rewrite Hloop, (sent_app _ _ _ HJ). by split_and!.
Qed.

Lemma interrupt_ends_stage_witness :
  (∃ w' errs,
     write_bronze (cleaned_of whole_sales) interrupted = (w', Raise KeyboardInterrupt) ∧
     (sent interrupted w').*1
     = take 2 (bronze_statement <$> (record_at 0 1 2 <$> rows (cleaned_of whole_sales))) ∧
     last (sent interrupted w').*2 = Some (Some KeyboardInterrupt) ∧
     faults w' = [None] ∧
     stdout w' = stdout interrupted ++ errs ∧
     Forall (λ m, ∃ l e, m = InsertError "Bronze Table" l e) errs) ∧
  (∃ w' errs,
     write_silver (cleaned_of whole_sales) interrupted = (w', Raise KeyboardInterrupt) ∧
     (sent interrupted w').*1
     = take 2 (silver_statement <$> (record_at 0 1 2 <$> rows (cleaned_of whole_sales))) ∧
     last (sent interrupted w').*2 = Some (Some KeyboardInterrupt) ∧
     faults w' = [None] ∧
     stdout w' = stdout interrupted ++ errs ∧
     Forall (λ m, ∃ l e, m = InsertError "Silver Table" l e) errs).
Proof.
  apply (interrupt_ends_stage (cleaned_of whole_sales) 0 1 2 interrupted [None] [None]).
  - apply cleaned_example; reflexivity.
  - repeat constructor; discriminate.
  - reflexivity.
  - vm_compute. lia.
Defined.

(** ** Provisioning, outside any [try] *)

Lemma provision_silent t w :
  Forall (λ f, f = None) (take 1 (faults w)) →
  provision t w
  = (MkWorld (create_table_if_not_exists t.1.1 t.1.2 (tables w)) (tail (faults w))
             (journal w ++ [created t]) (stdout w ++ [Line t.2]), Ok tt).
Proof.
  intros Hf. unfold provision, bind, execute, print, answer.
  destruct (faults w) as [|f fs]; [done|].
  apply Forall_cons in Hf as [-> _]. done.
Qed.

Lemma provision_fault t w e fs :
  faults w = Some e :: fs →
  provision t w
  = (MkWorld (tables w) fs (journal w ++ [(CreateTableIfNotExists t.1.1 t.1.2, Some e)])
             (stdout w), Raise e).
Proof. intros Hf. unfold provision, bind, execute, print, answer. by rewrite Hf. Qed.

Lemma create_all_snoc l t tbls :
  create_all (l ++ [t]) tbls = create_table_if_not_exists t.1.1 t.1.2 (create_all l tbls).
Proof. unfold create_all. by rewrite foldl_app. Qed.

Lemma for_each_provision_silent l w :
  Forall (λ f, f = None) (take (length l) (faults w)) →
  for_each l provision w
  = (MkWorld (create_all l (tables w)) (drop (length l) (faults w))
             (journal w ++ (created <$> l)) (stdout w ++ (Line ∘ snd <$> l)), Ok tt).
Proof.
  revert w. induction l as [|t l IH]; intros w Hf.
  - cbn [for_each ret length drop fmap list_fmap create_all foldl]. unfold ret.
    rewrite !app_nil_r. by destruct w.
  - cbn [for_each]. unfold bind at 1. rewrite provision_silent.
    2:{ destruct (faults w) as [|f fs]; [done|]. apply Forall_cons in Hf as [-> _].
        by repeat constructor. }
    rewrite IH.
    2:{ cbn [faults]. destruct (faults w) as [|f fs]; cbn [tail].
        - rewrite take_nil. constructor.
        - cbn [length take] in Hf. by apply Forall_cons in Hf as [_ Hf]. }
    cbn [tables faults journal stdout length fmap list_fmap].
    rewrite drop_tail, <- !app_assoc. done.
Qed.

Lemma for_each_provision_fault i :
  ∀ l w e fs,
  faults w = replicate i None ++ Some e :: fs → (i < length l)%nat →
  ∃ t, l !! i = Some t ∧
    for_each l provision w
    = (MkWorld (create_all (take i l) (tables w)) fs
               (journal w ++ (created <$> take i l)
                  ++ [(CreateTableIfNotExists t.1.1 t.1.2, Some e)])
               (stdout w ++ (Line ∘ snd <$> take i l)), Raise e).
Proof.
  induction i as [|i IH]; intros l w e fs Hf Hlen.
  - destruct l as [|t l]; [simpl in Hlen; lia|]. exists t. split; [done|].
    cbn [for_each]. unfold bind. rewrite (provision_fault t w e fs Hf).
    cbn [take fmap list_fmap app create_all foldl]. by rewrite app_nil_r.
  - destruct l as [|t0 l]; [simpl in Hlen; lia|].
    cbn [for_each]. unfold bind at 1. rewrite provision_silent by (rewrite Hf; by repeat constructor).
    destruct (IH l (MkWorld (create_table_if_not_exists t0.1.1 t0.1.2 (tables w))
                            (tail (faults w)) (journal w ++ [created t0])
                            (stdout w ++ [Line t0.2])) e fs) as (t & Ht & ->).
    { cbn [faults]. by rewrite Hf. }
    { simpl in Hlen. lia. }
    exists t. split; [done|]. cbn [tables journal stdout take fmap list_fmap].
    by rewrite <- !app_assoc.
Qed.

Section Provisioning.
Context `{Pandas}.

(** X8.  No [try] protects the five [CREATE TABLE]: when the store
    refuses one of them, with whatever exception, the script ends there
    with that exception.  The tables before it are created and their lines
    printed; the later tables are not asked for, and no [INSERT] is ever
    sent. *)
Theorem provisioning_fault_stops_script df d w i e fs :
  normalize df = Ok d →
  faults w = replicate i None ++ Some e :: fs →
  (i < length script_tables)%nat →
  ∃ t, script_tables !! i = Some t ∧
    script df w
    = (MkWorld (create_all (take i script_tables) (tables w)) fs
               (journal w ++ (created <$> take i script_tables)
                  ++ [(CreateTableIfNotExists t.1.1 t.1.2, Some e)])
               (stdout w ++ identifier_line df :: (Line ∘ snd <$> take i script_tables)),
       Raise e).
Proof.
  intros Hn Hf Hlen.
  destruct (for_each_provision_fault i script_tables
              (MkWorld (tables w) (faults w) (journal w) (stdout w ++ [identifier_line df]))
              e fs Hf Hlen) as (t & Ht & Hrun).
  exists t. split; [done|]. unfold script.
  unfold bind at 1. unfold print at 1. unfold bind at 1. unfold lift. rewrite Hn.
  unfold bind at 1. fold (identifier_line df).
  change ensure_schemas with (for_each script_tables provision). rewrite Hrun.
  cbn [tables journal stdout]. by rewrite <- app_assoc.
Qed.

End Provisioning.

Lemma provisioning_fault_stops_script_witness :
  ∃ t, script_tables !! 2%nat = Some t ∧
    @script iso_pandas whole_sales unwilling
    = (MkWorld (create_all (take 2 script_tables) (tables unwilling)) [None]
               (journal unwilling ++ (created <$> take 2 script_tables)
                  ++ [(CreateTableIfNotExists t.1.1 t.1.2, Some (DriverError "unavailable"))])
               (stdout unwilling
                  ++ identifier_line whole_sales :: (Line ∘ snd <$> take 2 script_tables)),
       Raise (DriverError "unavailable")).
Proof.
  apply (@provisioning_fault_stops_script iso_pandas whole_sales (cleaned_of whole_sales)
           unwilling 2 (DriverError "unavailable") [None]).
  - reflexivity.
  - reflexivity.
  - vm_compute. lia.
Defined.

Lemma create_other name s tbls name' :
  name ≠ name' → create_table_if_not_exists name s tbls !! name' = tbls !! name'.
Proof.
  intros Hne. unfold create_table_if_not_exists.
  destruct (tbls !! name); [done|]. by rewrite lookup_insert_ne.
Qed.

Lemma create_all_other l tbls name :
  name ∉ l.*1.*1 → create_all l tbls !! name = tbls !! name.
Proof.
  revert tbls. induction l as [|t l IH]; intros tbls Hno; [done|].
  rewrite !fmap_cons in Hno. apply not_elem_of_cons in Hno as [Hne Hno].
  unfold create_all. cbn [foldl]. fold (create_all l (create_table_if_not_exists t.1.1 t.1.2 tbls)).
  rewrite IH by done. by apply create_other.
Qed.

Lemma create_lookup name s tbls :
  create_table_if_not_exists name s tbls !! name
  = Some (default (Table s ∅) (tbls !! name)).
Proof.
  unfold create_table_if_not_exists. destruct (tbls !! name) as [t|] eqn:E.
  - by rewrite E.
  - by rewrite lookup_insert_eq.
Qed.

Lemma create_all_lookup l tbls t :
  NoDup l.*1.*1 → t ∈ l →
  create_all l tbls !! t.1.1 = Some (default (Table t.1.2 ∅) (tbls !! t.1.1)).
Proof.
  revert tbls. induction l as [|t0 l IH]; intros tbls Hnd Ht; [by apply elem_of_nil in Ht|].
  rewrite !fmap_cons in Hnd. apply NoDup_cons in Hnd as [Hno Hnd].
  unfold create_all. cbn [foldl].
  fold (create_all l (create_table_if_not_exists t0.1.1 t0.1.2 tbls)).
  apply elem_of_cons in Ht as [->|Ht].
  - rewrite create_all_other by done. apply create_lookup.
  - rewrite IH by done. rewrite create_other; [done|].
    intros Heq. apply Hno. rewrite Heq.
    apply list_elem_of_fmap. exists t.1. split; [done|].
    apply list_elem_of_fmap. by exists t.
Qed.

(** X9.  On a store that accepts the five [CREATE TABLE], provisioning
    returns normally and prints its five lines; each table of the script is
    then in the keyspace: the table the keyspace already had under that
    name, whatever its shape and its rows, or else a new table of the
    script's shape without rows. *)
Theorem ensure_schemas_provides w :
  Forall (λ f, f = None) (take 5 (faults w)) →
  (ensure_schemas w).2 = Ok tt ∧
  stdout (ensure_schemas w).1 = stdout w ++ (Line ∘ snd <$> script_tables) ∧
  ∀ t, t ∈ script_tables →
    tables (ensure_schemas w).1 !! t.1.1
    = Some (default (Table t.1.2 ∅) (tables w !! t.1.1)).
Proof.
  intros Hf. change ensure_schemas with (for_each script_tables provision).
  rewrite (for_each_provision_silent script_tables w Hf). cbn [fst snd tables stdout].
  split_and!; [done..|]. intros t Ht. apply create_all_lookup; [|done].
  vm_compute. repeat constructor; set_solver.
Qed.

Lemma ensure_schemas_provides_witness :
  (ensure_schemas legacy_world).2 = Ok tt ∧
  stdout (ensure_schemas legacy_world).1
  = stdout legacy_world ++ (Line ∘ snd <$> script_tables) ∧
  ∀ t, t ∈ script_tables →
    tables (ensure_schemas legacy_world).1 !! t.1.1
    = Some (default (Table t.1.2 ∅) (tables legacy_world !! t.1.1)).
Proof. apply (ensure_schemas_provides legacy_world). constructor. Defined.

(** ** What the script never does to the keyspace *)

Lemma keeps_refl t : keeps t t.
Proof. intros name tb Ht. exists tb. split_and!; [done..|]. intros k row Hk. by exists row. Qed.

Lemma keeps_trans t1 t2 t3 : keeps t1 t2 → keeps t2 t3 → keeps t1 t3.
Proof.
  intros H12 H23 name tb Ht.
  destruct (H12 name tb Ht) as (tb2 & Ht2 & Hs2 & Hr2).
  destruct (H23 name tb2 Ht2) as (tb3 & Ht3 & Hs3 & Hr3).
  exists tb3. split_and!; [done|congruence|]. intros k row Hk.
  destruct (Hr2 k row Hk) as (row2 & Hk2 & Hd2).
  destruct (Hr3 k row2 Hk2) as (row3 & Hk3 & Hd3).
  exists row3. split; [done|set_solver].
Qed.

Lemma keeps_subseteq t1 t2 : t1 ⊆ t2 → keeps t1 t2.
Proof.
  intros Hsub name tb Ht. exists tb. split_and!; [|done|].
  - by eapply lookup_weaken.
  - intros k row Hk. by exists row.
Qed.

Lemma insert_into_keeps name cols vals t t' :
  insert_into name cols vals t = Ok t' → keeps t t'.
Proof.
  unfold insert_into. destruct (t !! name) as [tb0|] eqn:Hname; [|done].
  repeat case_match; try done. intros [= <-].
  intros name' tb Ht. destruct (decide (name' = name)) as [->|Hne].
  - rewrite lookup_insert_eq. eexists. split_and!; [done|cbn; congruence|].
    assert (tb = tb0) as -> by congruence. cbn [table_rows].
    intros k row Hk.
    match goal with
    | |- context [<[?k0 := _]> (table_rows tb0)] =>
        destruct (decide (k = k0)) as [->|Hk0]
    end.
    + rewrite lookup_insert_eq, Hk. cbn [default]. eexists. split; [done|].
      rewrite dom_union. set_solver.
    + rewrite lookup_insert_ne by done. by exists row.
  - rewrite lookup_insert_ne by done. exists tb. split_and!; [done..|].
    intros k row Hk. by exists row.
Qed.

Lemma run_keeps q t t' : run q t = Ok t' → keeps t t'.
Proof.
  destruct q as [name s|name cols vals]; cbn [run].
  - intros [= <-]. apply keeps_subseteq, create_subseteq.
  - apply insert_into_keeps.
Qed.

Lemma keeping_print l : keeping (print l).
Proof. intros w. apply keeps_refl. Qed.

Lemma keeping_lift {A} (r : result A) : keeping (lift r).
Proof. intros w. apply keeps_refl. Qed.

Lemma keeping_execute q : keeping (execute q).
Proof.
  intros w. unfold execute. destruct (answer q (tables w) (faults w)) as [t|e] eqn:Ha.
  - apply answer_Ok in Ha. by apply run_keeps in Ha.
  - apply keeps_refl.
Qed.

Lemma keeping_bind {A B} (m : M A) (k : A → M B) :
  keeping m → (∀ a, keeping (k a)) → keeping (bind m k).
Proof.
  intros Hm Hk w. unfold bind. specialize (Hm w).
  destruct (m w) as [w1 [a|e]]; cbn [fst] in *; [|done].
  eapply keeps_trans; [done|]. apply Hk.
Qed.

Lemma keeping_try_except body handler :
  keeping body → (∀ e, keeping (handler e)) → keeping (try_except body handler).
Proof.
  intros Hb Hh w. unfold try_except. specialize (Hb w).
  destruct (body w) as [w1 [a|e]]; cbn [fst] in *; [done|].
  destruct (is_Exception e); [|done]. eapply keeps_trans; [done|]. apply Hh.
Qed.

Lemma keeping_for_each {X} (l : list X) (body : X → M unit) :
  (∀ x, keeping (body x)) → keeping (for_each l body).
Proof.
  intros Hbody. induction l as [|x l IH]; [intros w; apply keeps_refl|].
  cbn [for_each]. apply keeping_bind; [apply Hbody|done].
Qed.

Lemma keeping_insert_rows title stmt df : keeping (insert_rows title stmt df).
Proof.
  apply keeping_for_each. intros r. apply keeping_try_except.
  - apply keeping_bind; [apply keeping_lift|]. intros q. apply keeping_execute.
  - intros e. apply keeping_print.
Qed.

Lemma keeping_ensure_schemas : keeping ensure_schemas.
Proof.
  apply keeping_for_each. intros t. apply keeping_bind; [apply keeping_execute|].
  intros _. apply keeping_print.
Qed.

Lemma keeping_write_bronze df : keeping (write_bronze df).
Proof. apply keeping_bind; [apply keeping_insert_rows|]. intros _. apply keeping_print. Qed.

Lemma keeping_write_silver df : keeping (write_silver df).
Proof. apply keeping_bind; [apply keeping_insert_rows|]. intros _. apply keeping_print. Qed.

Lemma keeping_write_gold1 df : keeping (write_gold1 df).
Proof.
  apply keeping_bind; [apply keeping_lift|]. intros g.
  apply keeping_bind; [apply keeping_insert_rows|]. intros _. apply keeping_print.
Qed.

Lemma keeping_write_gold2 df : keeping (write_gold2 df).
Proof.
  apply keeping_bind; [apply keeping_lift|]. intros g.
  apply keeping_bind; [apply keeping_insert_rows|]. intros _. apply keeping_print.
Qed.

Lemma keeping_write_gold3 df : keeping (write_gold3 df).
Proof.
  unfold write_gold3. destruct (has_column "region" df); [|apply keeping_print].
  apply keeping_bind; [apply keeping_lift|]. intros g.
  apply keeping_bind; [apply keeping_insert_rows|]. intros _. apply keeping_print.
Qed.

Lemma keeping_script `{Pandas} df : keeping (script df).
Proof.
  apply keeping_bind; [apply keeping_print|]. intros _.
  apply keeping_bind; [apply keeping_lift|]. intros d.
  apply keeping_bind; [apply keeping_ensure_schemas|]. intros _.
  apply keeping_bind; [apply keeping_write_bronze|]. intros _.
  apply keeping_bind; [apply keeping_write_silver|]. intros _.
  apply keeping_bind; [apply keeping_write_gold1|]. intros _.
  apply keeping_bind; [apply keeping_write_gold2|]. intros _.
  apply keeping_write_gold3.
Qed.

(** X10.  The script only adds to the keyspace.  Whatever the file and
    whatever the store answers, and whether the script ends normally or
    with an exception: a table that was in the keyspace is still there
    with the same shape, each of its rows is still there under its key,
    and each column that a row had set is still set. *)
Theorem script_keeps_what_is_stored `{Pandas} df w name tb :
  tables w !! name = Some tb →
  ∃ tb', tables (script df w).1 !! name = Some tb' ∧
    table_schema tb' = table_schema tb ∧
    ∀ k row, table_rows tb !! k = Some row →
      ∃ row', table_rows tb' !! k = Some row' ∧ dom row ⊆ dom row'.
Proof. apply (keeping_script df w). Qed.

Lemma script_keeps_what_is_stored_witness :
  ∃ tb', tables (@script iso_pandas whole_sales legacy_world).1 !! "silver_table" = Some tb' ∧
    table_schema tb' = table_schema legacy_silver ∧
    ∀ k row, table_rows legacy_silver !! k = Some row →
      ∃ row', table_rows tb' !! k = Some row' ∧ dom row ⊆ dom row'.
Proof.
  apply (@script_keeps_what_is_stored iso_pandas whole_sales legacy_world "silver_table"
           legacy_silver).
  reflexivity.
Defined.

(** ** The script runs to its end *)












Section Completion.
Context `{Pandas}.


End Completion.


(** ** The rollup by date, group by group *)




Section GroupsByDate.
Context {A : Type} (add : A → A → A) (zero : A).







End GroupsByDate.





(** ** A second run of the bronze stage *)

Lemma bronze_row_absorb a1 a2 a3 b1 b2 b3 (x : gmap string cell) :
  bronze_row a1 a2 a3 ∪ (bronze_row b1 b2 b3 ∪ x) = bronze_row a1 a2 a3 ∪ x.
Proof.
  apply map_eq. intros i. rewrite !lookup_union. unfold bronze_row.
  destruct (decide (i = "order_id")) as [->|H1].
  { rewrite !lookup_insert_eq. by destruct (x !! "order_id"). }
  rewrite !(lookup_insert_ne _ "order_id") by done.
  destruct (decide (i = "sale_date")) as [->|H2].
  { rewrite !lookup_insert_eq. by destruct (x !! "sale_date"). }
  rewrite !(lookup_insert_ne _ "sale_date") by done.
  destruct (decide (i = "amount")) as [->|H3].
  { rewrite !lookup_insert_eq. by destruct (x !! "amount"). }
  rewrite !(lookup_insert_ne _ "amount") by done.
  rewrite !lookup_empty. by destruct (x !! i).
Qed.

(** The row the bronze loop leaves under a key: the one of the last
    record with that key, over what the row held before. *)
Lemma foldl_bronze_upsert_lookup rws cs k :
  foldl bronze_upsert rws cs !! k
  = match last (filter (λ c, int_key c.1.1 = Some k) cs) with
    | Some c => Some (bronze_row c.1.1 c.1.2 c.2 ∪ default ∅ (rws !! k))
    | None => rws !! k
    end.
Proof.
  induction cs as [|c cs IH] using rev_ind; [reflexivity|].
  rewrite foldl_app, filter_app, filter_cons, filter_nil. cbn [foldl].
  destruct (decide (int_key c.1.1 = Some k)) as [Hk|Hk].
  - rewrite last_snoc. unfold bronze_upsert at 1. rewrite Hk, lookup_insert_eq, IH.
    destruct (last (filter _ cs)) as [c'|]; [|reflexivity]. cbn [from_option id].
    rewrite bronze_row_absorb. reflexivity.
  - rewrite app_nil_r, bronze_upsert_other by exact Hk. apply IH.
Qed.

Lemma foldl_bronze_upsert_idem rws cs :
  foldl bronze_upsert (foldl bronze_upsert rws cs) cs = foldl bronze_upsert rws cs.
Proof.
  apply map_eq. intros k. rewrite (foldl_bronze_upsert_lookup (foldl _ _ _)).
  rewrite !foldl_bronze_upsert_lookup.
  destruct (last (filter _ cs)) as [c|]; [|reflexivity]. cbn [from_option id].
  rewrite bronze_row_absorb. reflexivity.
Qed.

(** X13.  The bronze stage is idempotent on a store without faults: run
    a second time on the same cleaned frame, it returns normally again
    and leaves every table exactly as the first run left it. *)
Theorem bronze_stage_idempotent df p1 p2 p3 w :
  cleaned df p1 p2 p3 →
  has_schema "bronze_table" bronze_schema (tables w) →
  faults w = [] →
  ∃ w1 w2,
    write_bronze df w = (w1, Ok tt) ∧
    write_bronze df w1 = (w2, Ok tt) ∧
    tables w2 = tables w1.
Proof.
  intros Hc Hs Hfs.
  destruct (write_bronze_quiet df p1 p2 p3 w Hc Hs Hfs) as (w1 & Hrun1 & Ht1 & Hfs1).
  assert (has_schema "bronze_table" bronze_schema (tables w1)) as Hs1.
  { rewrite Ht1. apply (has_schema_insert "bronze_table" (Table bronze_schema _)). }
  destruct (write_bronze_quiet df p1 p2 p3 w1 Hc Hs1 Hfs1) as (w2 & Hrun2 & Ht2 & _).
  exists w1, w2. split_and!; [exact Hrun1|exact Hrun2|].
  rewrite Ht2, Ht1, rows_of_insert. cbn [table_rows].
  rewrite insert_insert_eq, foldl_bronze_upsert_idem. reflexivity.
Qed.

Lemma bronze_stage_idempotent_witness :
  ∃ w1 w2,
    write_bronze (cleaned_of whole_sales) provisioned = (w1, Ok tt) ∧
    write_bronze (cleaned_of whole_sales) w1 = (w2, Ok tt) ∧
    tables w2 = tables w1.
Proof.
  apply (bronze_stage_idempotent (cleaned_of whole_sales) 0 1 2 provisioned).
  - apply cleaned_example; reflexivity.
  - reflexivity.
  - reflexivity.
Defined.

(** ** The rollup by date in its table *)














